(** * SerenityJS plugin repository: list view model, list loaders, detail loaders

    A shallow embedding of the TypeScript front end:
    - [client/src/pages/plugins.tsx] and [src/pages/home.tsx]
      (the two generations of the [Plugins] page: filtering and sorting),
    - the two generations of [functions/fetch-plugins.ts]
      (the direct GitHub fan-out loader and the backend-aggregate loader),
    - the direct-design [PluginDetails] page effects, its [resolveUrl],
    - the load effect and the screens of the [Plugins] page, the age text of
      its cards, and the report dialog with [functions/submit-report.ts].

    Conventions of the embedding.
    - JavaScript strings are [string]s of 8-bit code units; only the ASCII
      range is interpreted by [toLowerCase] and by the whitespace class.
    - JavaScript numbers that hold counts and timestamps are [Z]; [NaN] is
      [None] where the code can produce it.
    - Network access is an oracle handed to each run; every request issued is
      appended to a trace, so that "no network call" is "empty trace".
    - Module-level mutable bindings ([CACHE], [lastFetch], the [Map] caches)
      are threaded explicitly. *)

From Stdlib Require Import ZArith Bool Ascii String List Lia Permutation Sorted.
From Stdlib Require Import DecimalString.
From stdpp Require Import base list strings gmap.

Local Open Scope Z_scope.

(* ===================================================================== *)
(** ** JavaScript string primitives used by the pages *)
(* ===================================================================== *)

Module Js.

(** [\s] restricted to the ASCII range: TAB, LF, VT, FF, CR and SPACE. *)
Definition is_ws (c : ascii) : bool := Ascii.is_space c.

Definition lower_char (c : ascii) : ascii :=
  let n := nat_of_ascii c in
  if ((65 <=? n)%nat && (n <=? 90)%nat)%bool then ascii_of_nat (n + 32) else c.

(** [String.prototype.toLowerCase]. *)
Fixpoint toLowerCase (s : string) : string :=
  match s with
  | EmptyString => EmptyString
  | String c s' => String (lower_char c) (toLowerCase s')
  end.

(** [String.prototype.trimStart], [trimEnd] and [trim]. *)
Fixpoint trimStart (s : string) : string :=
  match s with
  | EmptyString => EmptyString
  | String c s' => if is_ws c then trimStart s' else s
  end.

Definition is_empty (s : string) : bool :=
  match s with EmptyString => true | _ => false end.

Fixpoint trimEnd (s : string) : string :=
  match s with
  | EmptyString => EmptyString
  | String c s' =>
    let r := trimEnd s' in
    if (is_ws c && is_empty r)%bool then EmptyString else String c r
  end.

Definition trim (s : string) : string := trimEnd (trimStart s).

(** Truthiness of a string, as used by [.filter(Boolean)] and [!q]. *)
Definition truthy (s : string) : bool := negb (is_empty s).

(** Prepend a character to the first piece of a split. *)
Definition cons_head (c : ascii) (l : list string) : list string :=
  match l with
  | [] => [String c EmptyString]
  | t :: ts => String c t :: ts
  end.

(** [s.split(/\s/)]: one cut per whitespace character. *)
Fixpoint split_ws (s : string) : list string :=
  match s with
  | EmptyString => [EmptyString]
  | String c s' =>
    if is_ws c then EmptyString :: split_ws s' else cons_head c (split_ws s')
  end.

(** [s.split(/\s+/)]: one cut per maximal run of whitespace; [in_run] is
    true while the scan is inside such a run. *)
Fixpoint split_ws_runs_go (in_run : bool) (s : string) : list string :=
  match s with
  | EmptyString => [EmptyString]
  | String c s' =>
    if is_ws c
    then (if in_run then split_ws_runs_go true s'
          else EmptyString :: split_ws_runs_go true s')
    else cons_head c (split_ws_runs_go false s')
  end.

Definition split_ws_runs (s : string) : list string := split_ws_runs_go false s.

(** [t.replace(/^#/, "")]. *)
Definition strip_hash (t : string) : string :=
  match t with
  | String "#"%char t' => t'
  | _ => t
  end.

(** [h.startsWith(t)]. *)
Fixpoint startsWith (h t : string) : bool :=
  match t, h with
  | EmptyString, _ => true
  | String _ _, EmptyString => false
  | String a t', String b h' => (if ascii_dec a b then true else false) && startsWith h' t'
  end.

(** [h.includes(t)]. *)
Fixpoint includes (h t : string) : bool :=
  startsWith h t
  || match h with
   | EmptyString => false
   | String _ h' => includes h' t
   end.

(** [l.join(sep)]. *)
Fixpoint join (sep : string) (l : list string) : string :=
  match l with
  | [] => EmptyString
  | [x] => x
  | x :: xs => x +:+ sep +:+ join sep xs
  end.

(** A whole number in a template literal. *)
Definition num_to_string (z : Z) : string := NilZero.string_of_int (Z.to_int z).

(** No whitespace character occurs in [s]. *)
Fixpoint no_ws (s : string) : bool :=
  match s with
  | EmptyString => true
  | String c s' => negb (is_ws c) && no_ws s'
  end.

End Js.

(** JavaScript numbers as they occur in the comparators: an integer, or
    [NaN] (from the timestamp of an invalid date). *)
Definition num : Type := option Z.

Module Num.
Definition sub (x y : num) : num :=
  match x, y with
  | Some a, Some b => Some (a - b)
  | _, _ => None
  end.

(** [v !== 0]; [NaN !== 0] is true. *)
Definition nonzero (v : num) : bool :=
  match v with
  | Some z => negb (z =? 0)
  | None => true
  end.

(** [x ?? 0] on an optional count. *)
Definition orZero (x : option Z) : Z := default 0 x.
End Num.

(* ===================================================================== *)
(** ** [Array.prototype.sort] with a comparator *)
(* ===================================================================== *)

(** ECMAScript sorts stably and reads the comparator through [SortCompare],
    which turns a [NaN] result into [+0].  For a consistent comparator every
    stable sort returns the same array; insertion sort is used here. *)
Section ArraySort.
Context {A : Type}.
Variable cmp : A -> A -> num.

Definition SortCompare (x y : A) : Z := default 0 (cmp x y).

Fixpoint sort_insert (x : A) (l : list A) : list A :=
  match l with
  | [] => [x]
  | y :: l' => if SortCompare x y <=? 0 then x :: l else y :: sort_insert x l'
  end.

Definition Array_sort (l : list A) : list A := foldr sort_insert [] l.

(** "[x] may stand before [y]": the comparator does not ask for a swap. *)
Definition before (x y : A) : Prop := SortCompare x y <= 0.
End ArraySort.

(* ===================================================================== *)
(** ** List view model, first generation: [client/src/pages/plugins.tsx] *)
(* ===================================================================== *)

Module Early.

(** [client/src/types/plugin.ts]. *)
Record Plugin : Type := mkPlugin {
  id : Z;
  name : string;
  description : string;
  version : string;
  owner : string;
  stars : option Z;
  downloads : option Z;
  keywords : list string;
  logo : option string
}.

(** [const q = (params.get("q") ?? "").toLowerCase().trim()]. *)
Definition query_q (param : option string) : string :=
  Js.trim (Js.toLowerCase (default EmptyString param)).

(** [const sort = (params.get("sort") ?? "stars").toLowerCase()]. *)
Definition query_sort (param : option string) : string :=
  Js.toLowerCase (default "stars"%string param).

Definition terms (q : string) : list string :=
  List.filter Js.truthy
    (List.map (fun t => Js.toLowerCase (Js.strip_hash t)) (Js.split_ws_runs q)).

Definition haystack (p : Plugin) : string :=
  Js.toLowerCase (Js.join " " ([name p; owner p; description p] ++ keywords p)).

Definition filtered (plugins : option (list Plugin)) (q : string) : list Plugin :=
  match plugins with
  | None => []
  | Some ps =>
    if negb (Js.truthy q) then ps
    else
      let ts := terms q in
      if (length ts =? 0)%nat then ps
      else List.filter
             (fun p => forallb (fun t => Js.includes (haystack p) t) ts) ps
  end.

Section Sorting.
Variable localeCompare : string -> string -> Z.

Definition by_downloads (a b : Plugin) : Z :=
  let diff := Num.orZero (downloads b) - Num.orZero (downloads a) in
  if negb (diff =? 0) then diff
  else
    let starDiff := Num.orZero (stars b) - Num.orZero (stars a) in
    if negb (starDiff =? 0) then starDiff
    else localeCompare (name a) (name b).

Definition by_stars (a b : Plugin) : Z :=
  let diff := Num.orZero (stars b) - Num.orZero (stars a) in
  if negb (diff =? 0) then diff
  else
    let dlDiff := Num.orZero (downloads b) - Num.orZero (downloads a) in
    if negb (dlDiff =? 0) then dlDiff
    else localeCompare (name a) (name b).

Definition sorted (filtered : list Plugin) (sort : string) : list Plugin :=
  if String.eqb sort "downloads"
  then Array_sort (fun a b => Some (by_downloads a b)) filtered
  else Array_sort (fun a b => Some (by_stars a b)) filtered.
End Sorting.

End Early.

(* ===================================================================== *)
(** ** List view model, date-sorting generation: [src/pages/home.tsx] *)
(* ===================================================================== *)

Module Dated.

Record PluginContributor : Type := mkContributor {
  username : string;
  profile_url : string;
  avatar_url : string;
  contributions : Z
}.

(** The summary fields of the later [Plugin] interface that the list page
    reads. *)
Record Plugin : Type := mkPlugin {
  id : Z;
  name : string;
  description : string;
  version : string;
  owner : PluginContributor;
  stars : option Z;
  downloads : option Z;
  keywords : list string;
  logo : option string;
  banner : option string;
  published : string;
  updated : string
}.

Definition query_q (param : option string) : string :=
  Js.trim (Js.toLowerCase (default EmptyString param)).

Definition terms (q : string) : list string :=
  List.filter Js.truthy
    (List.map (fun t => Js.toLowerCase (Js.strip_hash t)) (Js.split_ws q)).

Definition haystack (p : Plugin) : string :=
  Js.toLowerCase
  (Js.join " " ([name p; username (owner p); description p] ++ keywords p)).

Definition filtered (plugins : option (list Plugin)) (q : string) : list Plugin :=
  match plugins with
  | None => []
  | Some ps =>
    if negb (Js.truthy q) then ps
    else
      let ts := terms q in
      if (length ts =? 0)%nat then ps
      else List.filter
             (fun p => forallb (fun t => Js.includes (haystack p) t) ts) ps
  end.

Section Sorting.
Variable localeCompare : string -> string -> Z.
(** [new Date(s).getTime()]: milliseconds since the epoch, [None] (NaN)
    for a string that is not a date. *)
Variable Date_getTime : string -> num.

(** The comparator of [list.sort] in [sorted]; [switch], [break] and the
    fallback tail are written out. *)
Definition compare (sort : string) (a b : Plugin) : num :=
  let dateDiff := Num.sub (Date_getTime (updated b)) (Date_getTime (updated a)) in
  let fallback : num :=
    if Num.nonzero dateDiff then dateDiff
    else
      let starDiff := Num.orZero (stars b) - Num.orZero (stars a) in
      if negb (starDiff =? 0) then Some starDiff
      else Some (localeCompare (name a) (name b)) in
  if String.eqb sort "downloads" then
    let downloadDiff := Num.orZero (downloads b) - Num.orZero (downloads a) in
    if negb (downloadDiff =? 0) then Some downloadDiff else fallback
  else if String.eqb sort "stars" then
    let starDiff := Num.orZero (stars b) - Num.orZero (stars a) in
    if negb (starDiff =? 0) then Some starDiff else fallback
  else if String.eqb sort "published" then
    Num.sub (Date_getTime (published b)) (Date_getTime (published a))
  else
    if Num.nonzero dateDiff then dateDiff else fallback.

Definition sorted (filtered : list Plugin) (sort : string) : list Plugin :=
  Array_sort (compare sort) filtered.
End Sorting.

End Dated.

(* ===================================================================== *)
(** ** The filter as the specification words it *)
(* ===================================================================== *)

Module ListSpec.
(** The terms of a query: the query lowercased, split on whitespace, a
    leading [#] stripped from each piece. *)
Definition spec_terms (query : string) : list string :=
  List.map Js.strip_hash (Js.split_ws (Js.toLowerCase query)).

(** Every term is a substring of the text. *)
Definition every_term_in (text : string) (ts : list string) : bool :=
  forallb (fun t => Js.includes text t) ts.

(** Some field, lowercased, contains the term. *)
Definition some_field_has (fields : list string) (t : string) : bool :=
  existsb (fun f => Js.includes (Js.toLowerCase f) t) fields.

(** Two splits agree on their first piece and on the non-empty pieces that
    follow. *)
Definition same_terms (l1 l2 : list string) : Prop :=
  match l1, l2 with
  | t1 :: r1, t2 :: r2 => t1 = t2 /\ List.filter Js.truthy r1 = List.filter Js.truthy r2
  | _, _ => False
  end.

(** The documented cascades of the first generation: more stars first,
    then more downloads, then the name; and with the two counts exchanged. *)
Definition stars_cascade (localeCompare : string -> string -> Z)
           (a b : Early.Plugin) : Prop :=
  let s x := Num.orZero (Early.stars x) in
  let d x := Num.orZero (Early.downloads x) in
  s a > s b
  \/ (s a = s b
      /\ (d a > d b
          \/ (d a = d b /\ localeCompare (Early.name a) (Early.name b) <= 0))).

Definition downloads_cascade (localeCompare : string -> string -> Z)
           (a b : Early.Plugin) : Prop :=
  let s x := Num.orZero (Early.stars x) in
  let d x := Num.orZero (Early.downloads x) in
  d a > d b
  \/ (d a = d b
      /\ (s a > s b
          \/ (s a = s b /\ localeCompare (Early.name a) (Early.name b) <= 0))).

(** The cascade of the date-sorting generation under the key [updated]:
    later update first, then more stars, then the name. *)
Definition updated_cascade (localeCompare : string -> string -> Z)
           (time : string -> Z) (a b : Dated.Plugin) : Prop :=
  let u x := time (Dated.updated x) in
  let s x := Num.orZero (Dated.stars x) in
  u a > u b
  \/ (u a = u b
      /\ (s a > s b
          \/ (s a = s b /\ localeCompare (Dated.name a) (Dated.name b) <= 0))).

(** A comparison of names in code-unit order, one possible [localeCompare]. *)
Definition codeUnitCompare (x y : string) : Z :=
  match String.compare x y with
  | Lt => -1
  | Eq => 0
  | Gt => 1
  end.
End ListSpec.

(* ===================================================================== *)
(** ** Network oracle, traces and exceptions *)
(* ===================================================================== *)

Module Http.

Inductive Method : Type := GET | HEAD.

(** A request as handed to [fetch]: the method and the URL. *)
Definition Request : Type := (Method * string)%type.

(** What a resolved [fetch] promise gives: the status line, the
    [content-type] header, the body read as the JSON value the caller
    expects ([None] when the text does not parse) and the raw text. *)
Record Response (A : Type) : Type := mkResponse {
  status : Z;
  statusText : string;
  contentType : option string;
  json : option A;
  text : string
}.
Arguments mkResponse {A}.
Arguments status {A}.
Arguments statusText {A}.
Arguments contentType {A}.
Arguments json {A}.
Arguments text {A}.

(** [response.ok]: the status is in the range 200-299. *)
Definition ok {A} (r : Response A) : bool :=
  (200 <=? status r) && (status r <=? 299).

(** A thrown JavaScript value, with its [message] when it has one. *)
Inductive Exn : Type :=
  | TypeError (message : string)
  | SyntaxError (message : string)
  | Error (message : string)
  | Thrown (message : option string).

(** [(e as Error)?.message]. *)
Definition message_of (e : Exn) : option string :=
  match e with
  | TypeError m | SyntaxError m | Error m => Some m
  | Thrown m => m
  end.

(** The promise returned by [fetch] resolves with a response or rejects. *)
Inductive Outcome (A : Type) : Type :=
  | Rejected (e : Exn)
  | Resolved (r : Response A).
Arguments Rejected {A}.
Arguments Resolved {A}.

(** Computations that may throw and that log the requests they issue. *)
Definition M (A : Type) : Type := ((Exn + A) * list Request)%type.

Definition ret {A} (a : A) : M A := (inr a, []).
Definition throw {A} (e : Exn) : M A := (inl e, []).
Definition bind {A B} (m : M A) (f : A -> M B) : M B :=
  match m with
  | (inl e, t) => (inl e, t)
  | (inr a, t) => let '(r, t') := f a in (r, t ++ t')
  end.

(** [await fetch(url, { method })] against the oracle's answer [o]. *)
Definition fetch {A} (m : Method) (url : string) (o : Outcome A) : M (Response A) :=
  match o with
  | Rejected e => (inl e, [(m, url)])
  | Resolved r => (inr r, [(m, url)])
  end.

(** [JSON.parse(await response.text())] and [await response.json()]. *)
Definition parse {A} (r : Response A) : M A :=
  match json r with
  | Some a => ret a
  | None => throw (SyntaxError "Unexpected token in JSON")
  end.

End Http.

#[global] Instance M_ret : MRet Http.M := @Http.ret.
#[global] Instance M_bind : MBind Http.M := fun A B f m => Http.bind m f.

(** [Date.now() - lastFetch < CACHE_DURATION] with [CACHE_DURATION] five
    minutes in milliseconds. *)
Definition CACHE_DURATION : Z := 5 * 60 * 1000.

(* ===================================================================== *)
(** ** List loader, direct fan-out design: [fetch-plugins.ts], GitHub search *)
(* ===================================================================== *)

Module Direct.
Import Http.

Definition Plugin : Type := Early.Plugin.

Definition ENDPOINT : string :=
  "https://api.github.com/search/repositories?q=topic:serenityjs-plugin&per_page=100".

Definition PLACEHOLDER : string :=
  "https://avatars.githubusercontent.com/u/92610726?s=88&v=4".

(** One entry of [GithubSearchResponse.items]. *)
Record Repo : Type := mkRepo {
  repo_id : Z;
  repo_name : string;
  full_name : string;
  repo_description : string;
  owner_login : string;
  stargazers_count : Z;
  default_branch : string
}.

Record GithubSearchResponse : Type := mkSearch {
  total_count : Z;
  incomplete_results : bool;
  items : list Repo
}.

(** An element of the [keywords] array of a manifest: a string or
    anything else. *)
Inductive Json : Type := JString (s : string) | JOther.

(** The parsed [package.json]; [pkg_keywords] is [None] when the field is
    not an array. *)
Record Pkg : Type := mkPkg {
  pkg_version : option string;
  pkg_logo : option string;
  pkg_keywords : option (list Json)
}.

Record Asset : Type := mkAsset { download_count : Z }.
Record Release : Type := mkRelease { assets : list Asset }.

(** The remote world as one run of the loader meets it, by URL. *)
Record Net : Type := mkNet {
  search : string -> Outcome GithubSearchResponse;
  manifest : string -> Outcome Pkg;
  releases : string -> Outcome (list Release);
  probe : string -> Outcome unit
}.

Definition manifest_url (repo : Repo) : string :=
  "https://raw.githubusercontent.com/" +:+ full_name repo +:+ "/"
  +:+ default_branch repo +:+ "/package.json".

Definition releases_url (repo : Repo) : string :=
  "https://api.github.com/repos/" +:+ full_name repo +:+ "/releases".

Definition logo_url (repo : Repo) : string :=
  "https://raw.githubusercontent.com/" +:+ full_name repo +:+ "/"
  +:+ default_branch repo +:+ "/public/logo.png".

(** [pkg.keywords.filter(k => typeof k === "string")]. *)
Definition string_keywords (ks : list Json) : list string :=
  omap (fun k => match k with JString s => Some s | JOther => None end) ks.

(** [assets.reduce((sum, asset) => sum + asset.download_count, 0)]. *)
Definition sum_downloads (l : list Asset) : Z :=
  fold_left (fun sum asset => sum + download_count asset) l 0.

(** The body of the [for] loop for one repository: [None] is [continue],
    [Some plugin] is the plugin pushed. *)
Definition candidate (net : Net) (repo : Repo) : M (option Plugin) :=
  presult ← fetch GET (manifest_url repo) (manifest net (manifest_url repo));
  if negb (ok presult) then ret None else
  pkg ← parse presult;
  rresult ← fetch GET (releases_url repo) (releases net (releases_url repo));
  if negb (ok rresult) then ret None else
  rels ← parse rresult;
  match rels with
  | [] => ret None
  | latestRelease :: _ =>
    logoResponse ← fetch HEAD (logo_url repo) (probe net (logo_url repo));
    let logo := if negb (ok logoResponse) then PLACEHOLDER else logo_url repo in
    ret (Some {|
      Early.id := repo_id repo;
      Early.name := repo_name repo;
      Early.description := repo_description repo;
      Early.version := default EmptyString (pkg_version pkg);
      Early.owner := owner_login repo;
      Early.stars := Some (stargazers_count repo);
      Early.downloads := Some (sum_downloads (assets latestRelease));
      Early.keywords :=
        match pkg_keywords pkg with
        | Some ks => string_keywords ks
        | None => []
        end;
      Early.logo := Some logo
    |})
  end.

(** [for (let i = 0; i < result.total_count; i++)], with [n] iterations
    left; reading a field of the absent [result.items[i]] throws. *)
Fixpoint candidates (net : Net) (its : list Repo) (i n : nat)
       (plugins : list Plugin) : M (list Plugin) :=
  match n with
  | O => ret plugins
  | S n' =>
    match its !! i with
    | None =>
        throw (TypeError "Cannot read properties of undefined (reading 'full_name')")
    | Some repo =>
        p ← candidate net repo;
        candidates net its (S i) n' (plugins ++ option_list p)
    end
  end.

(** The module-level bindings [CACHE] and [lastFetch]. *)
Record State : Type := mkState {
  CACHE : list Plugin;
  lastFetch : Z
}.

Definition initial : State := {| CACHE := []; lastFetch := 0 |}.

(** [CACHE.find(p => p.id === plugin.id)]. *)
Definition cache_find (cache : list Plugin) (i : Z) : option Plugin :=
  List.find (fun p => Early.id p =? i) cache.

(** The loop that updates the cache after a successful load. *)
Definition merge (cache plugins : list Plugin) : list Plugin :=
  fold_left
    (fun cache plugin =>
       match cache_find cache (Early.id plugin) with
       | None => cache ++ [plugin]
       | Some _ => cache
       end)
    plugins cache.

(** Is the cache still valid at time [now]? *)
Definition cache_valid (now : Z) (st : State) : bool :=
  (now - lastFetch st <? CACHE_DURATION) && (0 <? length (CACHE st))%nat.

(** [fetchPlugins()], called when [Date.now()] is [now]: the returned
    value or the exception thrown, the bindings afterwards, and the
    requests issued. *)
Definition fetchPlugins (net : Net) (now : Z) (st : State)
  : (Exn + option (list Plugin)) * State * list Request :=
  if cache_valid now st then (inr (Some (CACHE st)), st, [])
  else
    let st1 := {| CACHE := CACHE st; lastFetch := now |} in
    let run : M (option (list Plugin)) :=
      response ← fetch GET ENDPOINT (search net ENDPOINT);
      if ok response then
        result ← parse response;
        plugins ← candidates net (items result) 0
                     (Z.to_nat (total_count result)) [];
        ret (Some plugins)
      else ret None in
    match run with
    | (inr (Some plugins), t) =>
        (inr (Some plugins),
         {| CACHE := merge (CACHE st1) plugins; lastFetch := now |}, t)
    | (r, t) => (r, st1, t)
    end.

End Direct.

(** Notions used to state what the fan-out returns. *)
Module DirectSpec.
Import Http.

(** The plugin a candidate contributes to the list, if any. *)
Definition listed (net : Direct.Net) (repo : Direct.Repo) : option Direct.Plugin :=
  match fst (Direct.candidate net repo) with
  | inr op => op
  | inl _ => None
  end.

(** Every request about [repo] is answered, and the answers that report
    success carry a body that parses. *)
Definition answers (net : Direct.Net) (repo : Direct.Repo) : Prop :=
  (exists r, Direct.manifest net (Direct.manifest_url repo) = Resolved r
           /\ (ok r = true -> is_Some (json r)))
  /\ (exists r, Direct.releases net (Direct.releases_url repo) = Resolved r
              /\ (ok r = true -> is_Some (json r)))
  /\ (exists r, Direct.probe net (Direct.logo_url repo) = Resolved r).

(** The plugin built from a repository, its manifest, its first release and
    the answer of the logo probe. *)
Definition plugin_of (repo : Direct.Repo) (pkg : Direct.Pkg)
         (first : Direct.Release) (logo_found : bool) : Direct.Plugin :=
  {| Early.id := Direct.repo_id repo;
     Early.name := Direct.repo_name repo;
     Early.description := Direct.repo_description repo;
     Early.version := default EmptyString (Direct.pkg_version pkg);
     Early.owner := Direct.owner_login repo;
     Early.stars := Some (Direct.stargazers_count repo);
     Early.downloads := Some (Direct.sum_downloads (Direct.assets first));
     Early.keywords :=
       match Direct.pkg_keywords pkg with
       | Some ks => Direct.string_keywords ks
       | None => []
       end;
     Early.logo := Some (if logo_found then Direct.logo_url repo
                         else Direct.PLACEHOLDER) |}.

(** First in, first summed: the same total as a plain sum. *)
Definition total_downloads (l : list Direct.Asset) : Z :=
  foldr Z.add 0 (List.map Direct.download_count l).

End DirectSpec.

(* ===================================================================== *)
(** ** List and detail loader, backend-aggregate design: [fetch-plugins.ts] *)
(* ===================================================================== *)

Module Aggregate.
Import Http.

Definition Plugin : Type := Dated.Plugin.

Definition PLUGINS_ENDPOINT : string := "https://api.serenityjs.net/plugins".
Definition DETAILS_ENDPOINT : string := "https://api.serenityjs.net/plugin".

(** Arrays hold references to objects, and [indexOf] compares references:
    an object is its address on the heap together with its (never
    mutated) contents. *)
Record Ref : Type := mkRef { addr : nat; obj : Plugin }.

(** What [await response.json()] gives for the list: the array that the
    declared type promises, or a JSON value that is not iterable (an object,
    a number, a boolean, [null]), on which the spread in
    [CACHE.push(...plugins)] throws. *)
Inductive Listing : Type :=
  | Items (plugins : list Plugin)
  | NotIterable.

Record Net : Type := mkNet {
  plugins : string -> Outcome Listing;
  details : string -> Outcome Plugin
}.

(** The module-level bindings, and the next free heap address. *)
Record State : Type := mkState {
  CACHE : list Ref;
  lastFetch : Z;
  next_addr : nat
}.

Definition initial : State := {| CACHE := []; lastFetch := 0; next_addr := 0 |}.

(** [await response.json()] builds new objects. *)
Definition alloc (next : nat) (p : Plugin) : Ref := {| addr := next; obj := p |}.

Fixpoint alloc_all (next : nat) (ps : list Plugin) : list Ref :=
  match ps with
  | [] => []
  | p :: ps' => alloc next p :: alloc_all (S next) ps'
  end.

Definition cache_valid (now : Z) (st : State) : bool :=
  (now - lastFetch st <? CACHE_DURATION) && (0 <? length (CACHE st))%nat.

(** [try { ... } catch (error) { return null; }]. *)
Definition catch_null {A} (m : M (option A)) : option A * list Request :=
  match m with
  | (inr r, t) => (r, t)
  | (inl _, t) => (None, t)
  end.

Definition fetchPlugins (net : Net) (now : Z) (st : State)
  : option (list Ref) * State * list Request :=
  if cache_valid now st then (Some (CACHE st), st, [])
  else
    let run : M (option Listing) :=
      response ← fetch GET PLUGINS_ENDPOINT (plugins net PLUGINS_ENDPOINT);
      if negb (ok response) then mret None
      else body ← parse response; mret (Some body) in
    match catch_null run with
    | (Some (Items ps), t) =>
        let refs := alloc_all (next_addr st) ps in
        (* [lastFetch = now; CACHE.length = 0; CACHE.push(...plugins);] *)
        (Some refs,
         {| CACHE := [] ++ refs;
            lastFetch := now;
            next_addr := (next_addr st + length ps)%nat |}, t)
    | (Some NotIterable, t) =>
        (* [lastFetch = now; CACHE.length = 0;] have run when the spread
           throws; the [catch] returns null *)
        (None, {| CACHE := []; lastFetch := now; next_addr := next_addr st |}, t)
    | (None, t) => (None, st, t)
    end.

(** [CACHE.some(x => x.id === id)] and [CACHE.find(x => x.id === id)]. *)
Definition cache_find (cache : list Ref) (i : Z) : option Ref :=
  List.find (fun x => Dated.id (obj x) =? i) cache.

(** [arr.indexOf(o)] for an object [o]: the first position holding the
    same reference, [-1] when there is none. *)
Fixpoint indexOf_from (l : list Ref) (a : nat) (i : Z) : Z :=
  match l with
  | [] => -1
  | r :: l' => if (addr r =? a)%nat then i else indexOf_from l' a (i + 1)
  end.
Definition indexOf (l : list Ref) (o : Ref) : Z := indexOf_from l (addr o) 0.

(** [arr.slice(start, end)]: a new array, [arr] itself is not changed. *)
Definition Array_slice {A} (l : list A) (start stop : Z) : list A :=
  let len := Z.of_nat (length l) in
  let rel k := if k <? 0 then Z.max (len + k) 0 else Z.min k len in
  let from := rel start in
  let to := rel stop in
  take (Z.to_nat (to - from)) (drop (Z.to_nat from) l).

Definition details_url (i : Z) : string :=
  DETAILS_ENDPOINT +:+ "/" +:+ Js.num_to_string i.

Definition fetchPlugin (net : Net) (now : Z) (i : Z) (st : State)
  : option Ref * State * list Request :=
  match (if cache_valid now st then cache_find (CACHE st) i else None) with
  | Some hit => (Some hit, st, [])
  | None =>
    let run : M (option Plugin) :=
      response ← fetch GET (details_url i) (details net (details_url i));
      if negb (ok response) then mret None
      else p ← parse response; mret (Some p) in
    match catch_null run with
    | (Some p, t) =>
        let plugin := alloc (next_addr st) p in
        let index := indexOf (CACHE st) plugin in
        (* [if (index) CACHE.slice(index, 1);] the copy is dropped *)
        let _ := if negb (index =? 0) then Array_slice (CACHE st) index 1 else [] in
        (Some plugin,
         {| CACHE := CACHE st ++ [plugin];
            lastFetch := lastFetch st;
            next_addr := S (next_addr st) |}, t)
    | (None, t) => (None, st, t)
    end
  end.

End Aggregate.

(* ===================================================================== *)
(** ** Detail page, direct design: [src/pages/plugin-details.tsx] *)
(* ===================================================================== *)

Module Details.
Import Http.

Record GitHubRepo : Type := mkRepo {
  repo_id : Z;
  repo_full_name : string;
  repo_description : option string;
  repo_stargazers_count : Z;
  repo_html_url : string;
  repo_default_branch : string
}.

Record ReleaseAsset : Type := mkAsset {
  asset_name : string;
  browser_download_url : string;
  asset_download_count : Z;
  asset_size : Z
}.

Record GitHubRelease : Type := mkRelease {
  release_id : Z;
  tag_name : string;
  release_name : option string;
  release_body : option string;
  release_html_url : string;
  draft : bool;
  prerelease : bool;
  published_at : option string;
  release_assets : list ReleaseAsset
}.

Record GitHubCommit : Type := mkCommit {
  sha : string;
  commit_html_url : string;
  commit_message : string;
  commit_author_login : option string
}.

Record GitHubContributor : Type := mkContributor {
  login : string;
  contributor_avatar_url : string;
  contributor_html_url : string;
  contributions : Z
}.

Inductive ContentType : Type := File | Dir.

Record GitHubContent : Type := mkContent {
  content_name : string;
  content_path : string;
  content_type : ContentType;
  content_download_url : option string
}.

(** The JSON form of a README answer, as far as the page reads it. *)
Record ReadmeJson : Type := mkReadmeJson {
  content : option string;
  encoding : option string;
  download_url : option string
}.

(** [filename.endsWith(ext)]. *)
Definition endsWith (s ext : string) : bool :=
  Js.startsWith (String.rev s) (String.rev ext).

(** [/\.(jpe?g|png|gif|webp|svg|mp4|webm)$/i.test(filename)]. *)
Definition isMediaFile (filename : string) : bool :=
  existsb (endsWith (Js.toLowerCase filename))
    [".jpg"; ".jpeg"; ".png"; ".gif"; ".webp"; ".svg"; ".mp4"; ".webm"]%string.

(** The module-level [Map] caches, keyed by ["owner/name"]. *)
Record Caches : Type := mkCaches {
  repoCache : gmap string GitHubRepo;
  readmeCache : gmap string string;
  releasesCache : gmap string (list GitHubRelease);
  commitsCache : gmap string (list GitHubCommit);
  contributorsCache : gmap string (list GitHubContributor);
  latestReleaseCache : gmap string (option GitHubRelease);
  galleryCache : gmap string (list GitHubContent)
}.

Definition no_caches : Caches :=
  {| repoCache := ∅; readmeCache := ∅; releasesCache := ∅; commitsCache := ∅;
     contributorsCache := ∅; latestReleaseCache := ∅; galleryCache := ∅ |}.

Inductive Tab : Type := TabReadme | TabVersions | TabChangelog | TabGallery.

Definition tab_eqb (a b : Tab) : bool :=
  match a, b with
  | TabReadme, TabReadme | TabVersions, TabVersions
  | TabChangelog, TabChangelog | TabGallery, TabGallery => true
  | _, _ => false
  end.

(** The three [useState] cells kept for one resource: the value ([None] is
    [null]), the loading flag and the error text. *)
Record Slot (A : Type) : Type := mkSlot {
  value : option A;
  loading : bool;
  error : option string
}.
Arguments mkSlot {A}.
Arguments value {A}.
Arguments loading {A}.
Arguments error {A}.

(** The component state. *)
Record View : Type := mkView {
  tab : Tab;
  repo : Slot GitHubRepo;
  readme : Slot string;
  releases : Slot (list GitHubRelease);
  commits : Slot (list GitHubCommit);
  galleryContent : Slot (list GitHubContent);
  contributors : Slot (list GitHubContributor);
  latestRelease : Slot GitHubRelease
}.

Definition cacheKey (owner name : string) : string := owner +:+ "/" +:+ name.

(** Initial state of a freshly mounted page: [useState(() =>
    cache.get(cacheKey) ?? null)] and the initial loading flags. *)
Definition mount (c : Caches) (owner name : string) : View :=
  let k := cacheKey owner name in
  let r := repoCache c !! k in
  let md := readmeCache c !! k in
  let cs := contributorsCache c !! k in
  let lr := mjoin (latestReleaseCache c !! k) in
  {| tab := TabReadme;
     repo := mkSlot r (negb (bool_decide (is_Some r))) None;
     readme := mkSlot md (negb (from_option Js.truthy false md)) None;
     releases := mkSlot (releasesCache c !! k) false None;
     commits := mkSlot (commitsCache c !! k) false None;
     galleryContent := mkSlot (galleryCache c !! k) false None;
     contributors := mkSlot cs (negb (bool_decide (is_Some cs))) None;
     latestRelease := mkSlot lr (negb (bool_decide (is_Some lr))) None |}.

(** [setTab(t)]. *)
Definition setTab (t : Tab) (v : View) : View :=
  {| tab := t; repo := repo v; readme := readme v; releases := releases v;
     commits := commits v; galleryContent := galleryContent v;
     contributors := contributors v; latestRelease := latestRelease v |}.

(** [setXLoading(true); setXError(null);] at the start of a fetch. *)
Definition begin {A} (s : Slot A) : Slot A :=
  {| value := value s; loading := true; error := None |}.

(** What the [try]/[catch]/[finally] of an effect stores once the
    asynchronous body has finished with [r], given the liveness flag at
    that moment. *)
Definition settle {A} (alive : bool) (fallback : string)
         (r : Exn + option A) (s : Slot A) : Slot A :=
  if alive then
    match r with
    | inr a => {| value := a; loading := false; error := error s |}
    | inl e =>
        {| value := value s; loading := false;
           error := Some (default fallback (message_of e)) |}
    end
  else s.

(** [cache.set(cacheKey, a)] when the body succeeded and the page is
    still alive. *)
Definition remember {A B} (alive : bool) (k : string) (r : Exn + A)
         (f : A -> B) (m : gmap string B) : gmap string B :=
  if alive then
    match r with
    | inr a => <[k := f a]> m
    | inl _ => m
    end
  else m.

(** A body that produced [a] stores [Some a]. *)
Definition stored {A} (r : Exn + A) : Exn + option A :=
  match r with
  | inr a => inr (Some a)
  | inl e => inl e
  end.

Definition failed (what : string) {A} (res : Response A) : Exn :=
  Error (what +:+ ": " +:+ Js.num_to_string (status res) +:+ " " +:+ statusText res).

Record Net : Type := mkNet {
  repo_info : string -> Outcome GitHubRepo;
  readme_file : string -> Outcome ReadmeJson;
  raw_file : string -> Outcome unit;
  release_list : string -> Outcome (list GitHubRelease);
  release_latest : string -> Outcome GitHubRelease;
  commit_list : string -> Outcome (list GitHubCommit);
  contributor_list : string -> Outcome (list GitHubContributor);
  contents : string -> Outcome (list GitHubContent)
}.

Definition repo_url (owner name : string) : string :=
  "https://api.github.com/repos/" +:+ owner +:+ "/" +:+ name.

Section Effects.
(** [decodeBase64Utf8], which throws on text that is not base64, and
    [encodeURIComponent]. *)
Variable decodeBase64Utf8 : string -> Exn + string.
Variable encodeURIComponent : string -> string.
Variable net : Net.
(** The liveness flag of the effect run when its body finishes. *)
Variable alive : bool.
Variables owner name : string.

Let k : string := cacheKey owner name.

(** *** Repository metadata (eager) *)

Definition repo_body : M GitHubRepo :=
  res ← fetch GET (repo_url owner name) (repo_info net (repo_url owner name));
  if negb (ok res) then throw (failed "GitHub error" res)
  else parse res.

Definition repo_effect (c : Caches) (v : View) : Caches * View * list Request :=
  if bool_decide (is_Some (value (repo v))) then (c, v, [])
  else
    let '(r, t) := repo_body in
    ({| repoCache := remember alive k r (fun d => d) (repoCache c);
        readmeCache := readmeCache c;
        releasesCache := releasesCache c; commitsCache := commitsCache c;
        contributorsCache := contributorsCache c;
        latestReleaseCache := latestReleaseCache c;
        galleryCache := galleryCache c |},
     {| tab := tab v;
        repo := settle alive "Failed to fetch repository info." (stored r)
                  (begin (repo v));
        readme := readme v; releases := releases v; commits := commits v;
        galleryContent := galleryContent v; contributors := contributors v;
        latestRelease := latestRelease v |},
     t).

(** *** README (lazy: when the tab is [readme]) *)

Definition readme_url : string := repo_url owner name +:+ "/readme".

Definition readme_body : M string :=
  res ← fetch GET readme_url (readme_file net readme_url);
  if status res =? 404 then mret EmptyString
  else if negb (ok res) then throw (failed "Failed to load README" res)
  else
    let ct := default EmptyString (contentType res) in
    if Js.includes ct "application/json" then
      json ← parse res;
      if from_option Js.truthy false (content json)
         && bool_decide (encoding json = Some "base64"%string)
      then
        match decodeBase64Utf8 (default EmptyString (content json)) with
        | inr md => mret md
        | inl e => throw e
        end
      else if from_option Js.truthy false (download_url json) then
        let u := default EmptyString (download_url json) in
        r ← fetch GET u (raw_file net u); mret (text r)
      else throw (Error "Unexpected README response format.")
    else mret (text res).

Definition readme_effect (c : Caches) (v : View) : Caches * View * list Request :=
  if negb (tab_eqb (tab v) TabReadme) then (c, v, [])
  else if bool_decide (is_Some (value (readme v))) then (c, v, [])
  else
    let '(r, t) := readme_body in
    ({| repoCache := repoCache c;
        readmeCache := remember alive k r (fun md => md) (readmeCache c);
        releasesCache := releasesCache c; commitsCache := commitsCache c;
        contributorsCache := contributorsCache c;
        latestReleaseCache := latestReleaseCache c;
        galleryCache := galleryCache c |},
     {| tab := tab v; repo := repo v;
        readme := settle alive "Failed to load README." (stored r)
                    (begin (readme v));
        releases := releases v; commits := commits v;
        galleryContent := galleryContent v; contributors := contributors v;
        latestRelease := latestRelease v |},
     t).

(** *** Releases (lazy: when the tab is [versions]) *)

Definition releases_url : string := repo_url owner name +:+ "/releases?per_page=25".

Definition releases_body : M (list GitHubRelease) :=
  res ← fetch GET releases_url (release_list net releases_url);
  if negb (ok res) then throw (failed "Failed to load releases" res)
  else parse res.

Definition releases_effect (c : Caches) (v : View) : Caches * View * list Request :=
  if negb (tab_eqb (tab v) TabVersions) then (c, v, [])
  else if bool_decide (is_Some (value (releases v))) then (c, v, [])
  else
    let '(r, t) := releases_body in
    ({| repoCache := repoCache c; readmeCache := readmeCache c;
        releasesCache := remember alive k r (fun d => d) (releasesCache c);
        commitsCache := commitsCache c;
        contributorsCache := contributorsCache c;
        latestReleaseCache := latestReleaseCache c;
        galleryCache := galleryCache c |},
     {| tab := tab v; repo := repo v; readme := readme v;
        releases := settle alive "Failed to load releases." (stored r)
                      (begin (releases v));
        commits := commits v;
        galleryContent := galleryContent v; contributors := contributors v;
        latestRelease := latestRelease v |},
     t).

(** *** Commits (lazy: when the tab is [changelog]) *)

Definition commits_url (v : View) : string :=
  let branch :=
    match value (repo v) with
    | Some r => if Js.truthy (repo_default_branch r) then repo_default_branch r
                else "HEAD"%string
    | None => "HEAD"%string
    end in
  repo_url owner name +:+ "/commits?per_page=50&sha=" +:+ encodeURIComponent branch.

Definition commits_body (v : View) : M (list GitHubCommit) :=
  res ← fetch GET (commits_url v) (commit_list net (commits_url v));
  if negb (ok res) then throw (failed "Failed to load commits" res)
  else parse res.

Definition commits_effect (c : Caches) (v : View) : Caches * View * list Request :=
  if negb (tab_eqb (tab v) TabChangelog) then (c, v, [])
  else if bool_decide (is_Some (value (commits v))) then (c, v, [])
  else
    let '(r, t) := commits_body v in
    ({| repoCache := repoCache c; readmeCache := readmeCache c;
        releasesCache := releasesCache c;
        commitsCache := remember alive k r (fun d => d) (commitsCache c);
        contributorsCache := contributorsCache c;
        latestReleaseCache := latestReleaseCache c;
        galleryCache := galleryCache c |},
     {| tab := tab v; repo := repo v; readme := readme v;
        releases := releases v;
        commits := settle alive "Failed to load commits." (stored r)
                     (begin (commits v));
        galleryContent := galleryContent v; contributors := contributors v;
        latestRelease := latestRelease v |},
     t).

(** *** Gallery (lazy: when the tab is [gallery]) *)

Definition gallery_url : string := repo_url owner name +:+ "/contents/public/gallery".

Definition gallery_body : M (list GitHubContent) :=
  res ← fetch GET gallery_url (contents net gallery_url);
  if status res =? 404 then mret []
  else if negb (ok res) then throw (failed "Failed to load gallery content" res)
  else
    data ← parse res;
    mret (List.filter
            (fun item =>
               match content_type item with
               | File => isMediaFile (content_name item)
               | Dir => false
               end) data).

Definition gallery_effect (c : Caches) (v : View) : Caches * View * list Request :=
  if negb (tab_eqb (tab v) TabGallery) then (c, v, [])
  else if bool_decide (is_Some (value (galleryContent v))) then (c, v, [])
  else
    let '(r, t) := gallery_body in
    ({| repoCache := repoCache c; readmeCache := readmeCache c;
        releasesCache := releasesCache c; commitsCache := commitsCache c;
        contributorsCache := contributorsCache c;
        latestReleaseCache := latestReleaseCache c;
        galleryCache := remember alive k r (fun d => d) (galleryCache c) |},
     {| tab := tab v; repo := repo v; readme := readme v;
        releases := releases v; commits := commits v;
        galleryContent := settle alive "Failed to load gallery content." (stored r)
                            (begin (galleryContent v));
        contributors := contributors v;
        latestRelease := latestRelease v |},
     t).

(** *** Sidebar: latest release (eager) *)

Definition latest_url : string := repo_url owner name +:+ "/releases/latest".
Definition latest_fallback_url : string := repo_url owner name +:+ "/releases?per_page=1".

Definition latest_body : M (option GitHubRelease) :=
  res ← fetch GET latest_url (release_latest net latest_url);
  if status res =? 404 then
    res2 ← fetch GET latest_fallback_url (release_list net latest_fallback_url);
    if negb (ok res2) then throw (failed "Failed to load releases" res2)
    else
      arr ← parse res2;
      mret (List.find (fun x => negb (draft x)) arr)
  else if negb (ok res) then throw (failed "Failed to load latest release" res)
  else data ← parse res; mret (Some data).

Definition latest_effect (c : Caches) (v : View) : Caches * View * list Request :=
  match latestReleaseCache c !! k with
  | Some cached =>
      (c,
       {| tab := tab v; repo := repo v; readme := readme v;
          releases := releases v; commits := commits v;
          galleryContent := galleryContent v; contributors := contributors v;
          latestRelease :=
            {| value := cached; loading := false;
               error := error (latestRelease v) |} |},
       [])
  | None =>
      let '(r, t) := latest_body in
      ({| repoCache := repoCache c; readmeCache := readmeCache c;
          releasesCache := releasesCache c; commitsCache := commitsCache c;
          contributorsCache := contributorsCache c;
          latestReleaseCache := remember alive k r (fun d => d) (latestReleaseCache c);
          galleryCache := galleryCache c |},
       {| tab := tab v; repo := repo v; readme := readme v;
          releases := releases v; commits := commits v;
          galleryContent := galleryContent v; contributors := contributors v;
          latestRelease := settle alive "Failed to load latest release." r
                             (begin (latestRelease v)) |},
       t)
  end.

(** *** Sidebar: contributors (eager) *)

Definition contributors_url : string :=
  repo_url owner name +:+ "/contributors?per_page=30".

Definition contributors_body : M (list GitHubContributor) :=
  res ← fetch GET contributors_url (contributor_list net contributors_url);
  if status res =? 204 then mret []
  else if negb (ok res) then throw (failed "Failed to load contributors" res)
  else parse res.

Definition contributors_effect (c : Caches) (v : View) : Caches * View * list Request :=
  match contributorsCache c !! k with
  | Some cached =>
      (c,
       {| tab := tab v; repo := repo v; readme := readme v;
          releases := releases v; commits := commits v;
          galleryContent := galleryContent v;
          contributors :=
            {| value := Some cached; loading := false;
               error := error (contributors v) |};
          latestRelease := latestRelease v |},
       [])
  | None =>
      let '(r, t) := contributors_body in
      ({| repoCache := repoCache c; readmeCache := readmeCache c;
          releasesCache := releasesCache c; commitsCache := commitsCache c;
          contributorsCache := remember alive k r (fun d => d) (contributorsCache c);
          latestReleaseCache := latestReleaseCache c;
          galleryCache := galleryCache c |},
       {| tab := tab v; repo := repo v; readme := readme v;
          releases := releases v; commits := commits v;
          galleryContent := galleryContent v;
          contributors := settle alive "Failed to load contributors." (stored r)
                            (begin (contributors v));
          latestRelease := latestRelease v |},
       t)
  end.
End Effects.

(** *** What the panels render *)

Inductive Panel (A : Type) : Type :=
  | Spinner
  | Alert (message : string)
  | Empty (notice : string)
  | Shown (a : A).
Arguments Spinner {A}.
Arguments Alert {A}.
Arguments Empty {A}.
Arguments Shown {A}.

(** A truthy error text. *)
Definition has_error {A} (s : Slot A) : bool := from_option Js.truthy false (error s).

(** The "Latest Release" side card: the four conditional blocks, in order. *)
Definition latest_panel (s : Slot GitHubRelease) : list (Panel GitHubRelease) :=
  (if loading s then [Spinner] else [])
  ++ (if has_error s && negb (loading s)
    then [Alert (default EmptyString (error s))] else [])
  ++ (if negb (loading s) && negb (has_error s) && negb (bool_decide (is_Some (value s)))
    then [Empty "No releases yet."%string] else [])
  ++ (match value s with Some r => [Shown r] | None => [] end).

(** The README tab panel. *)
Definition readme_panel (s : Slot string) : list (Panel string) :=
  (if loading s then [Spinner] else [])
  ++ (if has_error s && negb (loading s)
    then [Alert (default EmptyString (error s))] else [])
  ++ (if negb (loading s) && negb (has_error s)
       && bool_decide (value s = Some EmptyString)
    then [Empty "No README found for this repository."%string] else [])
  ++ (if negb (loading s) && negb (has_error s)
       && from_option Js.truthy false (value s)
    then [Shown (default EmptyString (value s))] else []).

End Details.

(* ===================================================================== *)
(** ** Sample data *)
(* ===================================================================== *)

Module Samples.

(** The collection of the specification's sorting example. *)
Definition pluginA : Early.Plugin :=
  Early.mkPlugin 1 "A" "" "" "" (Some 100) (Some 1) [] None.
Definition pluginB : Early.Plugin :=
  Early.mkPlugin 2 "B" "" "" "" (Some 50) (Some 200) [] None.

Definition someone : Dated.PluginContributor :=
  Dated.mkContributor "palm" "https://github.com/palm" "https://github.com/palm.png" 3.

(** Two plugins first released and last released on the same days; the
    second has more stars and the alphabetically earlier name. *)
Definition zeta : Dated.Plugin :=
  Dated.mkPlugin 1 "zeta" "" "1.0.0" someone (Some 1) (Some 0) [] None None
  "2024-01-01T00:00:00Z" "2024-03-01T00:00:00Z".
Definition alpha : Dated.Plugin :=
  Dated.mkPlugin 2 "alpha" "" "1.0.0" someone (Some 50) (Some 0) [] None None
  "2024-01-01T00:00:00Z" "2024-03-01T00:00:00Z".

Definition datedA : Dated.Plugin :=
  Dated.mkPlugin 1 "A" "" "" someone (Some 100) (Some 1) [] None None "" "".
Definition datedB : Dated.Plugin :=
  Dated.mkPlugin 2 "B" "" "" someone (Some 50) (Some 200) [] None None "" "".

(** *** Remote worlds for the loaders *)

Definition answer {A} (status : Z) (statusText : string) (body : option A)
  : Http.Outcome A :=
  Http.Resolved (Http.mkResponse status statusText (Some "application/json"%string) body EmptyString).

Definition ok200 {A} (body : A) : Http.Outcome A := answer 200 "OK" (Some body).
Definition notFound {A} : Http.Outcome A := answer 404 "Not Found" None.
Definition serverError {A} : Http.Outcome A := answer 500 "Internal Server Error" None.

Definition economy : Direct.Repo :=
  Direct.mkRepo 11 "economy" "palm/economy" "Adds money" "palm" 7 "main".
Definition warps : Direct.Repo :=
  Direct.mkRepo 12 "warps" "pmk/warps" "Teleports" "pmk" 3 "develop".

Definition manifest_of_any : Direct.Pkg :=
  Direct.mkPkg (Some "1.2.0"%string) None
  (Some [Direct.JString "shop"; Direct.JOther; Direct.JString "coins"]).

Definition two_assets : Direct.Release :=
  Direct.mkRelease [Direct.mkAsset 5; Direct.mkAsset 6].

(** The search finds nothing. *)
Definition net_nothing : Direct.Net :=
  Direct.mkNet (fun _ => ok200 (Direct.mkSearch 0 false []))
             (fun _ => notFound) (fun _ => notFound) (fun _ => notFound).

(** The search itself is refused. *)
Definition net_down : Direct.Net :=
  Direct.mkNet (fun _ => serverError)
             (fun _ => notFound) (fun _ => notFound) (fun _ => notFound).

(** Two candidates with manifests and one release each; no logo files. *)
Definition net_two : Direct.Net :=
  Direct.mkNet (fun _ => ok200 (Direct.mkSearch 2 false [economy; warps]))
             (fun _ => ok200 manifest_of_any)
             (fun _ => ok200 [two_assets])
             (fun _ => notFound).

(** As [net_two], but the manifest of [economy] is not valid JSON. *)
Definition net_bad_manifest : Direct.Net :=
  Direct.mkNet (fun _ => ok200 (Direct.mkSearch 2 false [economy; warps]))
             (fun url => if String.eqb url (Direct.manifest_url economy)
                         then answer 200 "OK" None else ok200 manifest_of_any)
             (fun _ => ok200 [two_assets])
             (fun _ => notFound).


Definition economy_plugin : Early.Plugin :=
  Early.mkPlugin 11 "economy" "Adds money" "1.2.0" "palm" (Some 7) (Some 11)
  ["shop"; "coins"]%string (Some Direct.PLACEHOLDER).

Definition warps_plugin : Early.Plugin :=
  Early.mkPlugin 12 "warps" "Teleports" "1.2.0" "pmk" (Some 3) (Some 11)
    ["shop"; "coins"]%string (Some Direct.PLACEHOLDER).

Definition direct_warm : Direct.State :=
  Direct.mkState [economy_plugin] 1700000000000.

Definition backend_of (ps : list Dated.Plugin) (p : Dated.Plugin) : Aggregate.Net :=
  Aggregate.mkNet (fun _ => ok200 (Aggregate.Items ps)) (fun _ => ok200 p).

Definition aggregate_warm : Aggregate.State :=
  Aggregate.mkState [Aggregate.mkRef 0 zeta] 1700000000000 1.

(** *** Remote worlds for the detail page *)

Definition a_draft : Details.GitHubRelease :=
  Details.mkRelease 902 "v2.0.0" (Some "Next"%string) None
    "https://github.com/palm/economy/releases/tag/untagged" true false None [].

Definition a_prerelease : Details.GitHubRelease :=
  Details.mkRelease 901 "v1.9.0-beta" (Some "Beta"%string) None
    "https://github.com/palm/economy/releases/tag/v1.9.0-beta" false true
    (Some "2024-02-01T00:00:00Z"%string) [].

(** A host that answers 404 everywhere. *)
Definition details_absent : Details.Net :=
  Details.mkNet (fun _ => notFound) (fun _ => notFound) (fun _ => notFound)
                (fun _ => notFound) (fun _ => notFound) (fun _ => notFound)
                (fun _ => notFound) (fun _ => notFound).

(** A host whose listing of releases honours [per_page]: the repository has
    a draft on top of a pre-release and no full release, so that the
    [latest] endpoint answers 404. *)
Definition details_paged : Details.Net :=
  Details.mkNet (fun _ => notFound) (fun _ => notFound) (fun _ => notFound)
    (fun url =>
       if String.eqb url "https://api.github.com/repos/palm/economy/releases?per_page=1"
       then ok200 [a_draft]
       else if String.eqb url "https://api.github.com/repos/palm/economy/releases"
       then ok200 [a_draft; a_prerelease]
       else notFound)
    (fun _ => notFound) (fun _ => notFound) (fun _ => notFound) (fun _ => notFound).

(** A host that answers 204 to the contributors request and 500 to the
    listing of releases, and has a pre-release as only release. *)
Definition details_quiet : Details.Net :=
  Details.mkNet (fun _ => notFound) (fun _ => notFound) (fun _ => notFound)
    (fun url =>
       if String.eqb url "https://api.github.com/repos/palm/economy/releases?per_page=1"
       then ok200 [a_prerelease] else serverError)
    (fun _ => notFound) (fun _ => serverError)
    (fun _ => answer 204 "No Content" None) (fun _ => notFound).

Definition identity_decoder (s : string) : Http.Exn + string := inr s.
Definition identity_encoder (s : string) : string := s.

End Samples.


(* ===================================================================== *)
(** ** The order of the date-sorting generation, in words *)
(* ===================================================================== *)

Module DatedSpec.

(** What the comparator of [home.tsx] asks of two plugins, with [time] the
    timestamp of a date text: under [downloads] more downloads first, under
    [stars] more stars first, and in both cases, as under [updated] and every
    unknown key, then the later update, then more stars, then the name; under
    [published] the later publication first and nothing else. *)
Definition cascade (localeCompare : string -> string -> Z) (time : string -> Z)
           (sort : string) (a b : Dated.Plugin) : Prop :=
  let p x := time (Dated.published x) in
  let s x := Num.orZero (Dated.stars x) in
  let d x := Num.orZero (Dated.downloads x) in
  let tail := ListSpec.updated_cascade localeCompare time a b in
  if String.eqb sort "downloads" then d a > d b \/ (d a = d b /\ tail)
  else if String.eqb sort "stars" then s a > s b \/ (s a = s b /\ tail)
  else if String.eqb sort "published" then p a >= p b
  else tail.

(** The date texts of the plugin are understood by the parser. *)
Definition dates_parse (Date_getTime : string -> num) (time : string -> Z)
           (x : Dated.Plugin) : Prop :=
  Date_getTime (Dated.updated x) = Some (time (Dated.updated x))
  /\ Date_getTime (Dated.published x) = Some (time (Dated.published x)).

(** A parser that knows the two dates of the samples. *)
Definition sample_getTime (s : string) : num :=
  if String.eqb s "2024-01-01T00:00:00Z" then Some 1704067200000
  else if String.eqb s "2024-03-01T00:00:00Z" then Some 1709251200000
  else None.

Definition sample_time (s : string) : Z := default 0 (sample_getTime s).

End DatedSpec.

(* ===================================================================== *)
(** ** The list page around the view model: loading, failure, grid *)
(* ===================================================================== *)

(** The component state, the load effect and the three screens are the same
    text in [client/src/pages/plugins.tsx] and in [src/pages/home.tsx]; the
    two differ in the plugin type, the filter and the comparator. *)
Module ListPage.
Section Page.
Context {P : Type}.
Variable filtered : option (list P) -> string -> list P.
Variable sorted : list P -> string -> list P.

(** [useState] of [plugins], [loading] and [error]. *)
Record State : Type := mkState {
  plugins : option (list P);
  loading : bool;
  error : option string
}.

Definition mount : State := {| plugins := None; loading := true; error := None |}.

(** The effect that loads the collection, once the promise of
    [fetchPlugins()] has settled with [r]; [alive] is the flag that the
    clean-up of the effect clears. *)
Definition load (alive : bool) (r : Http.Exn + option (list P)) (st : State) : State :=
  (* [setLoading(true); setError(null);] *)
  let st1 := {| plugins := plugins st; loading := true; error := None |} in
  if negb alive then st1
  else
    match r with
    | inr data =>
        (* [setPlugins(data || [])], then [finally] *)
        {| plugins := Some (default [] data); loading := false; error := None |}
    | inl e =>
        (* [setError(err?.message ?? "Failed to load plugins."); setPlugins(null)] *)
        {| plugins := None; loading := false;
           error := Some (default "Failed to load plugins."%string (Http.message_of e)) |}
    end.

(** What the component returns. *)
Inductive Screen : Type :=
  | Waiting
  | Failure (detail : string)
  | Grid (info : option (nat * string)) (cards : list P) (no_match : bool).

Definition render (st : State) (q sort : string) : Screen :=
  let f := filtered (plugins st) q in
  let s := sorted f sort in
  if loading st then Waiting
  else
    let err := match error st with Some e => Js.truthy e | None => false end in
    if err || negb (bool_decide (is_Some (plugins st))) then
      Failure (if err then "(" +:+ default EmptyString (error st) +:+ ")"
               else "Please try again later.")
    else
      Grid (if Js.truthy q then Some (length s, q) else None) s
           (length f =? 0)%nat.
End Page.

Arguments State : clear implicits.
Arguments Screen : clear implicits.
Arguments Waiting {P}.
Arguments Failure {P}.
Arguments Grid {P}.

(** The first-generation page over the direct loader. *)
Definition early (localeCompare : string -> string -> Z)
           (net : Direct.Net) (now : Z) (cache : Direct.State)
           (q sort : option string) : Screen Early.Plugin :=
  render Early.filtered (Early.sorted localeCompare)
    (load true (fst (fst (Direct.fetchPlugins net now cache))) mount)
    (Early.query_q q) (Early.query_sort sort).

(** The date-sorting page over the backend loader. *)
Definition dated (localeCompare : string -> string -> Z)
           (Date_getTime : string -> num)
           (net : Aggregate.Net) (now : Z) (cache : Aggregate.State)
           (q sort : option string) : Screen Dated.Plugin :=
  render Dated.filtered (Dated.sorted localeCompare Date_getTime)
    (load true
       (inr (List.map Aggregate.obj <$> fst (fst (Aggregate.fetchPlugins net now cache))))
       mount)
    (Dated.query_q q) (Early.query_sort sort).

End ListPage.

(* ===================================================================== *)
(** ** Series of calls of the loaders *)
(* ===================================================================== *)

Module Sessions.

(** The bindings of the direct loader after a series of calls, each made at
    its own time against the remote world of that moment. *)
Definition direct (calls : list (Direct.Net * Z)) (st : Direct.State) : Direct.State :=
  fold_left (fun st call => snd (fst (Direct.fetchPlugins (fst call) (snd call) st)))
    calls st.

(** The number of candidates the loop of the direct loader visits: the
    announced total, as long as the answer of the search can be read. *)
Definition announced (net : Direct.Net) : nat :=
  match Direct.search net Direct.ENDPOINT with
  | Http.Resolved sr =>
      if Http.ok sr then
        match Http.json sr with
        | Some result => Z.to_nat (Direct.total_count result)
        | None => 0%nat
        end
      else 0%nat
  | Http.Rejected _ => 0%nat
  end.

End Sessions.

Module DetailSessions.

(** A series of detail loads through the backend loader: for each call the
    remote world, the time and the identifier asked for.  The bindings at
    the end and the requests issued on the way. *)
Definition details (calls : list (Aggregate.Net * Z * Z)) (st : Aggregate.State)
  : Aggregate.State * list Http.Request :=
  fold_left
    (fun acc call =>
       let '(net, now, i) := call in
       let '(_, st', t) := Aggregate.fetchPlugin net now i (fst acc) in
       (st', snd acc ++ t))
    calls (st, []).

End DetailSessions.

(* ===================================================================== *)
(** ** Links and images of the README: [resolveUrl] of the detail page *)
(* ===================================================================== *)

Module Links.

(** [repo?.default_branch || "HEAD"]. *)
Definition defaultBranch (repo : option Details.GitHubRepo) : string :=
  match repo with
  | Some r =>
      if Js.truthy (Details.repo_default_branch r) then Details.repo_default_branch r
      else "HEAD"%string
  | None => "HEAD"%string
  end.

Definition rawBase (owner name branch : string) : string :=
  "https://raw.githubusercontent.com/" +:+ owner +:+ "/" +:+ name +:+ "/" +:+ branch.

(** [/^(?:https?:)?\/\//i.test(url)]. *)
Definition has_scheme (url : string) : bool :=
  let l := Js.toLowerCase url in
  Js.startsWith url "//" || Js.startsWith l "http://" || Js.startsWith l "https://".

(** [url.replace(/^\.?\//, "")]. *)
Definition strip_lead (url : string) : string :=
  match url with
  | String "."%char (String "/"%char rest) => rest
  | String "/"%char rest => rest
  | _ => url
  end.

(** [resolveUrl(url?)]; [None] is [undefined]. *)
Definition resolveUrl (base : string) (url : option string) : string :=
  match url with
  | None => EmptyString
  | Some u =>
      if negb (Js.truthy u) then EmptyString
      else if has_scheme u || Js.startsWith u "#" then u
      else base +:+ "/" +:+ strip_lead u
  end.

End Links.

(* ===================================================================== *)
(** ** Reporting a plugin: [functions/submit-report.ts] and [handleReport] *)
(* ===================================================================== *)

Module Report.

Record Field : Type := mkField {
  field_name : string;
  field_value : string;
  inline : option bool
}.

(** The one embed of the payload. *)
Record Embed : Type := mkEmbed {
  title : string;
  color : Z;
  fields : list Field;
  footer_text : string;
  timestamp : string
}.

(** What the user and the network see of a run. *)
Inductive Event : Type :=
  | Alerted (message : string)
  | Posted (url : string) (body : list Embed)
  | Logged (what : string).

Definition webhookUrl : string := EmptyString.

Definition embedPayload (owner name reportCategory reportDescription now : string)
  : list Embed :=
  [ {| title := "🚨 Plugin Report";
       color := 15548997;
       fields :=
         [ mkField "Plugin"
             ("[" +:+ owner +:+ "/" +:+ name +:+ "](https://github.com/"
                  +:+ owner +:+ "/" +:+ name +:+ ")") (Some true);
           mkField "Author"
             ("[" +:+ owner +:+ "](https://github.com/" +:+ owner +:+ ")") (Some true);
           mkField "Reason" reportCategory None;
           mkField "Description" reportDescription None ];
       footer_text := "Report submitted by Anonymous.";
       timestamp := now |} ].

(** [submitPluginReport]: [Some true] or [None] for [undefined]; [now] is
    [new Date().toISOString()] and [answer] what the POST meets. *)
Definition submitPluginReport (owner name reportCategory reportDescription now : string)
           (answer : Http.Outcome unit) : option bool * list Event :=
  if negb (Js.truthy reportCategory) then
    (None, [Alerted "Please select a reason for the report."])
  else
    let post :=
      Posted webhookUrl (embedPayload owner name reportCategory reportDescription now) in
    match answer with
    | Http.Resolved response =>
        if Http.ok response then (Some true, [post])
        else (None,
              [post;
               Alerted ("Failed to send report. (Error: "
                          +:+ Js.num_to_string (Http.status response) +:+ ")")])
    | Http.Rejected _ =>
        (None,
         [post; Logged "Error submitting report:";
          Alerted "An error occurred while sending this report. Please report this."])
    end.

(** The report dialog of the detail page. *)
Record Form : Type := mkForm {
  isInReporting : bool;
  reportCategory : string;
  reportDescription : string
}.

(** [handleReport]. *)
Definition handleReport (owner name now : string) (answer : Http.Outcome unit)
           (f : Form) : Form * list Event :=
  let '(success, events) :=
    submitPluginReport owner name (reportCategory f) (reportDescription f) now answer in
  match success with
  | Some true =>
      ({| isInReporting := false; reportCategory := EmptyString;
          reportDescription := EmptyString |},
       events ++ [Alerted "Thank you! Your report has been submitted for review."])
  | _ => (f, events)
  end.

Definition alerts (events : list Event) : list string :=
  omap (fun e => match e with Alerted m => Some m | _ => None end) events.

Definition posts (events : list Event) : list (string * list Embed) :=
  omap (fun e => match e with Posted u b => Some (u, b) | _ => None end) events.

End Report.

Module QuerySpec.
(** The text consists of whitespace only. *)
Fixpoint blank (s : string) : bool :=
  match s with
  | EmptyString => true
  | String c s' => Js.is_ws c && blank s'
  end.
End QuerySpec.

(* ===================================================================== *)
(** ** The age of a plugin on its card: [formatRelativeTime] of [home.tsx] *)
(* ===================================================================== *)

Module Cards.

(** [formatRelativeTime(dateString)] when [new Date()] is [now].  The
    timestamps of [Date] are whole numbers of milliseconds of magnitude at
    most 8.64e15, on which the floating-point quotients of the source and
    their [Math.floor] are the whole-number quotients written here; the
    timestamp of a text that is not a date is NaN, which fails every
    comparison and is printed as it is. *)
Definition formatRelativeTime (Date_getTime : string -> num) (now : Z)
           (dateString : string) : string :=
  if negb (Js.truthy dateString) then EmptyString
  else
    match Date_getTime dateString with
    | None => "NaN seconds ago"
    | Some t =>
        let seconds := (now - t) / 1000 in
        if seconds >? 31536000 then
          Js.num_to_string (seconds / 31536000) +:+ " years ago"
        else if seconds >? 2592000 then
          Js.num_to_string (seconds / 2592000) +:+ " months ago"
        else if seconds >? 86400 then
          Js.num_to_string (seconds / 86400) +:+ " days ago"
        else if seconds >? 3600 then
          Js.num_to_string (seconds / 3600) +:+ " hours ago"
        else if seconds >? 60 then
          Js.num_to_string (seconds / 60) +:+ " minutes ago"
        else Js.num_to_string seconds +:+ " seconds ago"
    end.

(** The units of the text below the year: the name, the length in seconds,
    the largest count the text shows for the unit, and the longest span, in
    seconds, that is still told in the unit. *)
Definition units : list (string * Z * Z * Z) :=
  [("minutes"%string, 60, 60, 3600); ("hours"%string, 3600, 24, 86400);
   ("days"%string, 86400, 30, 2592000); ("months"%string, 2592000, 12, 31536000)].

End Cards.

(* ===================================================================== *)
(** * Properties *)
(* ===================================================================== *)

(** ** String lemmas *)

Module JsFacts.
Import Js ListSpec.

Lemma startsWith_empty h : startsWith h EmptyString = true.
Proof. by destruct h. Qed.

Lemma includes_empty h : includes h EmptyString = true.
Proof. destruct h; simpl; by rewrite ?startsWith_empty. Qed.

Lemma startsWith_spec h t :
  startsWith h t = true <-> exists b, h = t +:+ b.
Proof.
  revert h. induction t as [|a t IH]; intros h.
  - rewrite startsWith_empty. split; [intros _; by exists h | done].
  - destruct h as [|c h]; simpl.
    + split; [done | intros [b Hb]; discriminate].
    + destruct (ascii_dec a c) as [->|Hne]; simpl.
      * rewrite IH. split; intros [b Hb]; exists b.
        -- by rewrite Hb.
        -- by injection Hb.
      * split; [done | intros [b Hb]; injection Hb; congruence].
Qed.

(** [includes] is the substring test. *)
Lemma includes_spec h t :
  includes h t = true <-> exists a b, h = a +:+ t +:+ b.
Proof.
  induction h as [|c h IH].
  - cbn [includes]. rewrite orb_false_r, startsWith_spec. split.
    + intros [b Hb]. by exists EmptyString, b.
    + intros [a [b Hab]]. destruct a as [|x a]; [by exists b | discriminate].
  - cbn [includes]. rewrite orb_true_iff, startsWith_spec, IH. split.
    + intros [[b Hb] | [a [b Hab]]].
      * by exists EmptyString, b.
      * exists (String c a), b. by rewrite Hab.
    + intros [a [b Hab]]. destruct a as [|x a].
      * left. by exists b.
      * right. exists a, b. by injection Hab.
Qed.

Lemma is_ws_lower c : is_ws (lower_char c) = is_ws c.
Proof.
  destruct c as [[] [] [] [] [] [] [] []]; reflexivity.
Qed.

Lemma lower_char_idem c : lower_char (lower_char c) = lower_char c.
Proof.
  destruct c as [[] [] [] [] [] [] [] []]; reflexivity.
Qed.

Lemma toLowerCase_idem s : toLowerCase (toLowerCase s) = toLowerCase s.
Proof. induction s; simpl; [done|]. by rewrite lower_char_idem, IHs. Qed.

Lemma toLowerCase_app s1 s2 :
  toLowerCase (s1 +:+ s2) = toLowerCase s1 +:+ toLowerCase s2.
Proof. induction s1; simpl; [done|]. by rewrite IHs1. Qed.

Lemma toLowerCase_join sep l :
  toLowerCase (join sep l) = join (toLowerCase sep) (List.map toLowerCase l).
Proof.
  induction l as [|x [|y l] IH]; simpl; try done.
  rewrite !toLowerCase_app. f_equal. f_equal. exact IH.
Qed.

(** *** Splitting on whitespace *)

Lemma same_terms_filter l1 l2 :
  same_terms l1 l2 -> List.filter truthy l1 = List.filter truthy l2.
Proof.
  destruct l1 as [|t1 r1], l2 as [|t2 r2]; simpl; try done.
  intros [-> ->]. done.
Qed.

Lemma same_terms_cons_head c l1 l2 :
  same_terms l1 l2 -> same_terms (cons_head c l1) (cons_head c l2).
Proof.
  destruct l1 as [|t1 r1], l2 as [|t2 r2]; simpl; try done.
  intros [-> ->]. done.
Qed.

Lemma same_terms_refl_split s : same_terms (split_ws s) (split_ws s).
Proof.
  induction s as [|c s IH]; simpl; [done|].
  destruct (is_ws c); [done|]. by apply same_terms_cons_head.
Qed.

Lemma split_ws_runs_go_terms s :
  same_terms (split_ws_runs_go false s) (split_ws s)
  /\ List.filter truthy (split_ws_runs_go true s) = List.filter truthy (split_ws s).
Proof.
  induction s as [|c s [IH1 IH2]]; simpl; [done|].
  destruct (is_ws c) eqn:Hc.
  - simpl. split; [split; [done | exact IH2] | exact IH2].
  - split.
    + by apply same_terms_cons_head.
    + by apply same_terms_filter, same_terms_cons_head.
Qed.

(** [split(/\s+/)] and [split(/\s/)] leave the same non-empty pieces. *)
Lemma split_ws_runs_terms s :
  List.filter truthy (split_ws_runs s) = List.filter truthy (split_ws s).
Proof. apply same_terms_filter, split_ws_runs_go_terms. Qed.

Lemma trimStart_terms s :
  List.filter truthy (split_ws (trimStart s)) = List.filter truthy (split_ws s).
Proof.
  induction s as [|c s IH]; simpl; [done|].
  destruct (is_ws c) eqn:Hc; simpl; [done|]. by rewrite Hc.
Qed.

Lemma trimEnd_same_terms s : same_terms (split_ws (trimEnd s)) (split_ws s).
Proof.
  induction s as [|c s IH]; simpl; [done|].
  destruct (is_ws c) eqn:Hc; simpl.
  - destruct (is_empty (trimEnd s)) eqn:He; simpl.
    + split; [done|]. destruct (trimEnd s); [|done].
      simpl in IH. destruct (split_ws s) as [|t2 r2]; [done|].
      destruct IH as [<- Hr]. simpl in *. exact Hr.
    + rewrite Hc. split; [done|]. by apply same_terms_filter.
  - rewrite Hc. by apply same_terms_cons_head.
Qed.

(** Trimming does not change the non-empty pieces. *)
Lemma trim_terms s :
  List.filter truthy (split_ws (trim s)) = List.filter truthy (split_ws s).
Proof.
  unfold trim. rewrite (same_terms_filter _ _ (trimEnd_same_terms _)).
  apply trimStart_terms.
Qed.

Lemma trim_empty_terms s :
  truthy (trim s) = false -> List.filter truthy (split_ws s) = [].
Proof.
  intros H. rewrite <- trim_terms. destruct (trim s); [done | discriminate].
Qed.

Lemma cons_head_lower c l :
  List.map toLowerCase (cons_head c l) = cons_head (lower_char c) (List.map toLowerCase l).
Proof. by destruct l. Qed.

Lemma split_ws_lower s :
  split_ws (toLowerCase s) = List.map toLowerCase (split_ws s).
Proof.
  induction s as [|c s IH]; simpl; [done|].
  rewrite is_ws_lower. destruct (is_ws c); simpl.
  - by rewrite IH.
  - by rewrite IH, cons_head_lower.
Qed.

Lemma strip_hash_lower t :
  toLowerCase (strip_hash (toLowerCase t)) = strip_hash (toLowerCase t).
Proof.
  destruct t as [|c t]; [done|]. simpl.
  destruct c as [[] [] [] [] [] [] [] []];
    match goal with
    | |- context [lower_char ?x] =>
        let y := eval vm_compute in (lower_char x) in
        change (lower_char x) with y
    end; cbn [strip_hash toLowerCase];
    rewrite ?toLowerCase_idem; try reflexivity;
    f_equal; reflexivity.
Qed.

Lemma forallb_truthy (f : string -> bool) l :
  f EmptyString = true -> forallb f (List.filter truthy l) = forallb f l.
Proof.
  intros Hf. induction l as [|x l IH]; simpl; [done|].
  destruct x; simpl; [by rewrite Hf | by rewrite IH].
Qed.

Lemma filter_all {A} (f : A -> bool) l :
  (forall x, f x = true) -> List.filter f l = l.
Proof. intros Hf. induction l as [|x l IH]; simpl; [done|]. by rewrite Hf, IH. Qed.

Lemma forallb_map' {A B} (f : B -> bool) (g : A -> B) l :
  forallb f (List.map g l) = forallb (fun x => f (g x)) l.
Proof. induction l as [|x l IH]; simpl; [done|]. by rewrite IH. Qed.

Lemma forallb_ext' {A} (f g : A -> bool) l :
  (forall x, f x = g x) -> forallb f l = forallb g l.
Proof. intros H. induction l as [|x l IH]; simpl; [done|]. by rewrite H, IH. Qed.

(** The terms computed by the pages, whatever the split, decide a
    conjunction exactly as the stripped pieces of the lowercased query. *)
Lemma page_terms_forallb (split : string -> list string) (P : string -> bool) raw :
  (forall s, List.filter truthy (split s) = List.filter truthy (split_ws s)) ->
  P EmptyString = true ->
  forallb P (List.filter truthy
               (List.map (fun t => toLowerCase (strip_hash t))
                  (split (trim (toLowerCase raw)))))
  = forallb P (List.map strip_hash (split_ws (toLowerCase raw))).
Proof.
  intros Hsplit HP.
  set (g := fun t => toLowerCase (strip_hash t)).
  assert (Hg : P (g EmptyString) = true) by exact HP.
  rewrite forallb_truthy by done.
  rewrite !forallb_map'.
  rewrite <- (forallb_truthy (fun x => P (g x))) by done.
  rewrite Hsplit, trim_terms.
  rewrite forallb_truthy by done.
  rewrite split_ws_lower, !forallb_map'.
  apply forallb_ext'. intros t. unfold g. by rewrite strip_hash_lower.
Qed.

(** *** Terms never straddle a separator *)

Lemma no_ws_cons_head c l :
  is_ws c = false ->
  Forall (fun t => no_ws t = true) l ->
  Forall (fun t => no_ws t = true) (cons_head c l).
Proof.
  intros Hc Hl. destruct l as [|t ts]; simpl.
  - constructor; [|done]. simpl. by rewrite Hc.
  - inversion Hl; subst. constructor; [|done]. simpl. by rewrite Hc.
Qed.

Lemma split_ws_no_ws s : Forall (fun t => no_ws t = true) (split_ws s).
Proof.
  induction s as [|c s IH]; simpl.
  - by constructor.
  - destruct (is_ws c) eqn:Hc; [by constructor | by apply no_ws_cons_head].
Qed.

Lemma strip_hash_no_ws t : no_ws t = true -> no_ws (strip_hash t) = true.
Proof.
  destruct t as [|c t]; [done|]. intros H.
  assert (Ht : no_ws t = true) by (simpl in H; by apply andb_true_iff in H as [_ ?]).
  destruct c as [[] [] [] [] [] [] [] []]; first [exact H | exact Ht].
Qed.

Lemma startsWith_app_sep a sp b t :
  is_ws sp = true -> no_ws t = true ->
  startsWith (a +:+ String sp b) t = startsWith a t.
Proof.
  intros Hsp. revert t. induction a as [|c a IH]; intros t Ht.
  - destruct t as [|x t]; [done|].
    change (EmptyString +:+ String sp b) with (String sp b). cbn [startsWith].
    simpl in Ht. apply andb_true_iff in Ht as [Hx _].
    destruct (ascii_dec x sp) as [->|]; [|done]. by rewrite Hsp in Hx.
  - destruct t as [|x t]; [done|].
    change (String c a +:+ String sp b) with (String c (a +:+ String sp b)).
    cbn [startsWith].
    simpl in Ht. apply andb_true_iff in Ht as [_ Ht].
    destruct (ascii_dec x c); [|done]. simpl. by apply IH.
Qed.

Lemma includes_app_sep a sp b t :
  is_ws sp = true -> no_ws t = true ->
  includes (a +:+ String sp b) t = includes a t || includes b t.
Proof.
  intros Hsp Ht. induction a as [|c a IH].
  - change (EmptyString +:+ String sp b) with (String sp b).
    cbn [includes]. rewrite orb_false_r.
    rewrite <- (startsWith_app_sep EmptyString sp b t Hsp Ht). done.
  - change (String c a +:+ String sp b) with (String c (a +:+ String sp b)).
    cbn [includes]. rewrite IH.
    rewrite <- (startsWith_app_sep (String c a) sp b t Hsp Ht).
    by rewrite orb_assoc.
Qed.

(** On a non-empty array, a whitespace-free term occurs in the space-joined
    text exactly when it occurs in one of the joined fields. *)
Lemma includes_join x l t :
  no_ws t = true ->
  includes (join " " (x :: l)) t = existsb (fun f => includes f t) (x :: l).
Proof.
  intros Ht. revert x. induction l as [|y l IH]; intros x.
  - simpl. by rewrite orb_false_r.
  - change (join " " (x :: y :: l)) with (x +:+ String " " (join " " (y :: l))).
    rewrite includes_app_sep by done. rewrite IH. done.
Qed.

End JsFacts.

(** ** C1: the filter of the list view model *)

Section FilterFacts.
Import Js JsFacts ListSpec.

Lemma filtered_generic {P : Type} (hay : P -> string)
      (split : string -> list string) (plugins : list P) (param : option string) :
  (forall s, List.filter truthy (split s) = List.filter truthy (split_ws s)) ->
  (let q := trim (toLowerCase (default EmptyString param)) in
   if negb (truthy q) then plugins
   else
     let ts := List.filter truthy
                 (List.map (fun t => toLowerCase (strip_hash t)) (split q)) in
     if (length ts =? 0)%nat then plugins
     else List.filter (fun p => forallb (fun t => includes (hay p) t) ts) plugins)
  = List.filter
      (fun p => every_term_in (hay p) (spec_terms (default EmptyString param)))
      plugins.
Proof.
  intros Hsplit. cbv zeta.
  set (raw := default EmptyString param).
  assert (Hpage : forall p,
    forallb (fun t => includes (hay p) t)
      (List.filter truthy
         (List.map (fun t => toLowerCase (strip_hash t)) (split (trim (toLowerCase raw)))))
    = every_term_in (hay p) (spec_terms raw)).
  { intros p. unfold every_term_in, spec_terms.
    apply (page_terms_forallb split (fun t => includes (hay p) t) raw Hsplit).
    apply includes_empty. }
  destruct (truthy (trim (toLowerCase raw))) eqn:Hq; simpl.
  - destruct (length _ =? 0)%nat eqn:Hlen.
    + symmetry. apply filter_all. intros p. rewrite <- Hpage.
      apply Nat.eqb_eq, nil_length_inv in Hlen. by rewrite Hlen.
    + apply List.filter_ext. intros p. apply Hpage.
  - symmetry. apply filter_all. intros p. rewrite <- Hpage.
    destruct (trim (toLowerCase raw)) eqn:Ht; [|discriminate].
    assert (Hnil : List.filter truthy (split EmptyString) = []).
    { rewrite Hsplit. done. }
    clear Hpage. induction (split EmptyString) as [|x l IH]; [done|].
    simpl in Hnil. destruct x; simpl in *; [by apply IH | discriminate].
Qed.

Lemma haystack_fields x y z ks t :
  no_ws t = true ->
  includes (toLowerCase (join " " ([x; y; z] ++ ks))) t
  = some_field_has ([x; y; z] ++ ks) t.
Proof.
  intros Ht. rewrite toLowerCase_join.
  change (toLowerCase " ") with " "%string.
  change (List.map toLowerCase ([x; y; z] ++ ks))
    with (toLowerCase x :: List.map toLowerCase ([y; z] ++ ks)).
  rewrite includes_join by done.
  unfold some_field_has.
  change ([x; y; z] ++ ks) with (x :: ([y; z] ++ ks)).
  cbn [existsb]. f_equal.
  generalize ([y; z] ++ ks). intros l.
  induction l as [|f l IH]; simpl; [done|]. by rewrite IH.
Qed.

Lemma spec_terms_no_ws query :
  Forall (fun t => no_ws t = true) (spec_terms query).
Proof.
  unfold spec_terms. apply Forall_map.
  eapply Forall_impl; [apply split_ws_no_ws|].
  intros t Ht. by apply strip_hash_no_ws.
Qed.

(** Membership in the filtered list, with "substring" spelled out. *)
Lemma filtered_membership_early (param : option string)
      (plugins : list Early.Plugin) (p : Early.Plugin) :
  In p (Early.filtered (Some plugins) (Early.query_q param))
  <-> In p plugins
      /\ forall t, In t (spec_terms (default EmptyString param)) ->
                   exists a b, Early.haystack p = a +:+ t +:+ b.
Proof.
  assert (E : Early.filtered (Some plugins) (Early.query_q param)
              = List.filter
                  (fun p => every_term_in (Early.haystack p)
                              (spec_terms (default EmptyString param))) plugins).
  { unfold Early.filtered, Early.terms, Early.query_q.
    apply (filtered_generic Early.haystack split_ws_runs plugins param
             split_ws_runs_terms). }
  rewrite E, filter_In. unfold every_term_in. rewrite forallb_forall.
  split; intros [Hin Hall]; (split; [done|]); intros t Ht.
  - by apply includes_spec, Hall.
  - by apply includes_spec, Hall.
Qed.

Lemma filtered_membership_dated (param : option string)
      (plugins : list Dated.Plugin) (p : Dated.Plugin) :
  In p (Dated.filtered (Some plugins) (Dated.query_q param))
  <-> In p plugins
      /\ forall t, In t (spec_terms (default EmptyString param)) ->
                   exists a b, Dated.haystack p = a +:+ t +:+ b.
Proof.
  assert (E : Dated.filtered (Some plugins) (Dated.query_q param)
              = List.filter
                  (fun p => every_term_in (Dated.haystack p)
                              (spec_terms (default EmptyString param))) plugins).
  { unfold Dated.filtered, Dated.terms, Dated.query_q.
    apply (filtered_generic Dated.haystack split_ws plugins param (fun _ => eq_refl)). }
  rewrite E, filter_In. unfold every_term_in. rewrite forallb_forall.
  split; intros [Hin Hall]; (split; [done|]); intros t Ht.
  - by apply includes_spec, Hall.
  - by apply includes_spec, Hall.
Qed.

(** A query with a tag, a doubled blank and capitals. *)
Example filtered_sample :
  List.map Early.id
    (Early.filtered
       (Some [Early.mkPlugin 1 "Economy" "Adds money" "1.0" "palm" (Some 3) (Some 4)
                ["shop"; "Coins"]%string None;
              Early.mkPlugin 2 "Warps" "Teleport" "1.0" "pmk" (Some 3) (Some 4)
                ["tp"]%string None])
       (Early.query_q (Some "  #SHOP  econ "%string)))
  = [1]
  /\ spec_terms "  #SHOP  econ " = [""; ""; "shop"; ""; "econ"; ""]%string.
Proof. split; reflexivity. Qed.
End FilterFacts.

(** C1. For every plugin collection and every query, the filtered list of
    both generations of the page is exactly the sub-list of the plugins in
    which every term of the query (lowercased, split on whitespace, leading
    [#] stripped) is a substring of the lowercased, space-joined name, owner,
    description and keywords; and for each such term, being a substring of
    that text is the same as being a substring of one of the fields. *)
Theorem filtered_exact_subset (param : option string) :
  let ts := ListSpec.spec_terms (default EmptyString param) in
  (forall plugins : list Early.Plugin,
     Early.filtered (Some plugins) (Early.query_q param)
     = List.filter (fun p => ListSpec.every_term_in (Early.haystack p) ts) plugins)
  /\ (forall plugins : list Dated.Plugin,
     Dated.filtered (Some plugins) (Dated.query_q param)
     = List.filter (fun p => ListSpec.every_term_in (Dated.haystack p) ts) plugins)
  /\ Forall (fun t => forall p : Early.Plugin,
       Js.includes (Early.haystack p) t
       = ListSpec.some_field_has
           ([Early.name p; Early.owner p; Early.description p] ++ Early.keywords p) t) ts
  /\ Forall (fun t => forall p : Dated.Plugin,
       Js.includes (Dated.haystack p) t
       = ListSpec.some_field_has
           ([Dated.name p; Dated.username (Dated.owner p); Dated.description p]
              ++ Dated.keywords p) t) ts.
Proof.
  cbv zeta. repeat split.
  - intros plugins. unfold Early.filtered, Early.terms, Early.query_q.
    apply (filtered_generic Early.haystack Js.split_ws_runs plugins param).
    apply JsFacts.split_ws_runs_terms.
  - intros plugins. unfold Dated.filtered, Dated.terms, Dated.query_q.
    apply (filtered_generic Dated.haystack Js.split_ws plugins param).
    done.
  - eapply Forall_impl; [apply spec_terms_no_ws|].
    intros t Ht p. by apply haystack_fields.
  - eapply Forall_impl; [apply spec_terms_no_ws|].
    intros t Ht p. by apply haystack_fields.
Qed.

(** ** C2: the display order *)

Section SortFacts.
Context {A : Type}.
Variable cmp : A -> A -> num.

Lemma sort_insert_perm x l : Permutation (sort_insert cmp x l) (x :: l).
Proof.
  induction l as [|y l IH]; simpl; [done|].
  destruct (SortCompare cmp x y <=? 0); [done|].
  rewrite IH. apply perm_swap.
Qed.

(** Sorting rearranges, it neither drops nor invents elements. *)
Lemma Array_sort_perm l : Permutation (Array_sort cmp l) l.
Proof.
  induction l as [|x l IH]; simpl; [done|].
  rewrite sort_insert_perm. by constructor.
Qed.

Hypothesis before_total : forall x y, before cmp x y \/ before cmp y x.
Hypothesis before_trans :
  forall x y z, before cmp x y -> before cmp y z -> before cmp x z.

Lemma sort_insert_sorted x l :
  StronglySorted (before cmp) l -> StronglySorted (before cmp) (sort_insert cmp x l).
Proof.
  induction 1 as [|y l Hl IH Hy]; simpl.
  - repeat constructor.
  - destruct (SortCompare cmp x y <=? 0) eqn:Hxy.
    + apply Z.leb_le in Hxy. constructor; [by constructor|].
      constructor; [exact Hxy|].
      eapply Forall_impl; [exact Hy|]. intros z Hz. by eapply before_trans.
    + apply Z.leb_gt in Hxy. constructor; [exact IH|].
      eapply Permutation_Forall; [symmetry; apply sort_insert_perm|].
      constructor; [|exact Hy].
      destruct (before_total x y) as [H|H]; [unfold before in H; lia | exact H].
Qed.

(** With a consistent comparator, every element of the sorted array may
    stand before all those that follow it. *)
Lemma Array_sort_sorted l : StronglySorted (before cmp) (Array_sort cmp l).
Proof.
  induction l as [|x l IH]; simpl; [constructor|].
  by apply sort_insert_sorted.
Qed.
End SortFacts.

Lemma StronglySorted_weaken {A} (R S : A -> A -> Prop) l :
  (forall x y, R x y -> S x y) -> StronglySorted R l -> StronglySorted S l.
Proof.
  intros HRS. induction 1 as [|x l Hl IH Hx]; constructor; [done|].
  eapply Forall_impl; [exact Hx|]. intros y. apply HRS.
Qed.

(** *** First generation: the comparators are the documented cascades *)

Section EarlyOrder.
Import ListSpec.
Variable localeCompare : string -> string -> Z.
Hypothesis names_total :
  forall x y, localeCompare x y <= 0 \/ localeCompare y x <= 0.
Hypothesis names_trans :
  forall x y z, localeCompare x y <= 0 -> localeCompare y z <= 0 ->
                localeCompare x z <= 0.

Lemma by_stars_cascade a b :
  before (fun a b => Some (Early.by_stars localeCompare a b)) a b
  <-> stars_cascade localeCompare a b.
Proof.
  unfold before, SortCompare, Early.by_stars, stars_cascade. simpl.
  destruct (Z.eqb_spec (Num.orZero (Early.stars b) - Num.orZero (Early.stars a)) 0);
    simpl; [|lia].
  destruct (Z.eqb_spec (Num.orZero (Early.downloads b) - Num.orZero (Early.downloads a)) 0);
    simpl; lia.
Qed.

Lemma by_downloads_cascade a b :
  before (fun a b => Some (Early.by_downloads localeCompare a b)) a b
  <-> downloads_cascade localeCompare a b.
Proof.
  unfold before, SortCompare, Early.by_downloads, downloads_cascade. simpl.
  destruct (Z.eqb_spec (Num.orZero (Early.downloads b) - Num.orZero (Early.downloads a)) 0);
    simpl; [|lia].
  destruct (Z.eqb_spec (Num.orZero (Early.stars b) - Num.orZero (Early.stars a)) 0);
    simpl; lia.
Qed.

Lemma stars_cascade_total a b :
  stars_cascade localeCompare a b \/ stars_cascade localeCompare b a.
Proof.
  unfold stars_cascade. simpl.
  destruct (names_total (Early.name a) (Early.name b)); lia.
Qed.

Lemma stars_cascade_trans a b c :
  stars_cascade localeCompare a b -> stars_cascade localeCompare b c ->
  stars_cascade localeCompare a c.
Proof.
  unfold stars_cascade. simpl. intros Hab Hbc.
  assert (Hn := names_trans (Early.name a) (Early.name b) (Early.name c)). lia.
Qed.

Lemma downloads_cascade_total a b :
  downloads_cascade localeCompare a b \/ downloads_cascade localeCompare b a.
Proof.
  unfold downloads_cascade. simpl.
  destruct (names_total (Early.name a) (Early.name b)); lia.
Qed.

Lemma downloads_cascade_trans a b c :
  downloads_cascade localeCompare a b -> downloads_cascade localeCompare b c ->
  downloads_cascade localeCompare a c.
Proof.
  unfold downloads_cascade. simpl. intros Hab Hbc.
  assert (Hn := names_trans (Early.name a) (Early.name b) (Early.name c)). lia.
Qed.

(** Under the key [downloads] the page shows a rearrangement of the filtered
    plugins in which every plugin precedes, in the downloads cascade, all
    those shown after it; under every other key the same holds with the stars
    cascade. *)
Lemma early_sorted_follows_cascade (l : list Early.Plugin) (sort : string) :
  Permutation (Early.sorted localeCompare l sort) l
  /\ (sort = "downloads"%string ->
      StronglySorted (downloads_cascade localeCompare)
        (Early.sorted localeCompare l sort))
  /\ (sort <> "downloads"%string ->
      StronglySorted (stars_cascade localeCompare)
        (Early.sorted localeCompare l sort)).
Proof.
  unfold Early.sorted. split; [|split].
  - destruct (String.eqb sort "downloads"); apply Array_sort_perm.
  - intros ->. rewrite String.eqb_refl.
    eapply StronglySorted_weaken; [intros x y; apply by_downloads_cascade|].
    apply Array_sort_sorted.
    + intros x y. rewrite !by_downloads_cascade. apply downloads_cascade_total.
    + intros x y z. rewrite !by_downloads_cascade. apply downloads_cascade_trans.
  - intros Hne. apply String.eqb_neq in Hne. rewrite Hne.
    eapply StronglySorted_weaken; [intros x y; apply by_stars_cascade|].
    apply Array_sort_sorted.
    + intros x y. rewrite !by_stars_cascade. apply stars_cascade_total.
    + intros x y z. rewrite !by_stars_cascade. apply stars_cascade_trans.
Qed.
End EarlyOrder.

(** The comparison of names in code-unit order is a consistent
    [localeCompare], so the cascades above are not empty promises. *)
Lemma codeUnitCompare_le x y :
  ListSpec.codeUnitCompare x y <= 0 <-> String.leb x y = true.
Proof.
  unfold ListSpec.codeUnitCompare, String.leb.
  destruct (String.compare x y); split; intros; try done; lia.
Qed.

Lemma early_sorted_follows_cascade_code_units (l : list Early.Plugin) :
  StronglySorted (ListSpec.stars_cascade ListSpec.codeUnitCompare)
    (Early.sorted ListSpec.codeUnitCompare l "stars")
  /\ StronglySorted (ListSpec.downloads_cascade ListSpec.codeUnitCompare)
    (Early.sorted ListSpec.codeUnitCompare l "downloads").
Proof.
  assert (Htotal : forall x y, ListSpec.codeUnitCompare x y <= 0
                               \/ ListSpec.codeUnitCompare y x <= 0).
  { intros x y. rewrite !codeUnitCompare_le. apply String.leb_total. }
  assert (Htrans : forall x y z, ListSpec.codeUnitCompare x y <= 0 ->
                                 ListSpec.codeUnitCompare y z <= 0 ->
                                 ListSpec.codeUnitCompare x z <= 0).
  { intros x y z. rewrite !codeUnitCompare_le. intros Hxy Hyz.
    apply Is_true_true. apply Is_true_true in Hxy, Hyz.
    exact (transitivity (R := String.le) Hxy Hyz). }
  split.
  - by apply (early_sorted_follows_cascade _ Htotal Htrans l "stars").
  - by apply (early_sorted_follows_cascade _ Htotal Htrans l "downloads").
Qed.

(** *** Date-sorting generation: the key [updated] does fall back *)

(** With update dates that parse, the two plugins of the example come out
    in the same order whichever way they came in: equal update times, so the
    star counts decide. *)
Lemma updated_ties_fall_back
      (localeCompare : string -> string -> Z) (Date_getTime : string -> num) (t : Z) :
  Date_getTime "2024-03-01T00:00:00Z" = Some t ->
  Dated.sorted localeCompare Date_getTime [Samples.zeta; Samples.alpha] "updated"
    = [Samples.alpha; Samples.zeta]
  /\ Dated.sorted localeCompare Date_getTime [Samples.alpha; Samples.zeta] "updated"
    = [Samples.alpha; Samples.zeta].
Proof.
  intros Ht.
  assert (H1 : SortCompare (Dated.compare localeCompare Date_getTime "updated")
                 Samples.zeta Samples.alpha = 49).
  { unfold SortCompare, Dated.compare. cbn -[Z.sub]. rewrite Ht. cbn -[Z.sub].
    rewrite Z.sub_diag. reflexivity. }
  assert (H2 : SortCompare (Dated.compare localeCompare Date_getTime "updated")
                 Samples.alpha Samples.zeta = -49).
  { unfold SortCompare, Dated.compare. cbn -[Z.sub]. rewrite Ht. cbn -[Z.sub].
    rewrite Z.sub_diag. reflexivity. }
  unfold Dated.sorted, Array_sort. cbn [foldr sort_insert].
  rewrite H1, H2. done.
Qed.

(** The specification's example under both generations of the page. *)
Lemma sort_example_early (localeCompare : string -> string -> Z) :
  Early.sorted localeCompare [Samples.pluginA; Samples.pluginB] "stars"
    = [Samples.pluginA; Samples.pluginB]
  /\ Early.sorted localeCompare [Samples.pluginA; Samples.pluginB] "downloads"
    = [Samples.pluginB; Samples.pluginA]
  /\ Early.sorted localeCompare [Samples.pluginB; Samples.pluginA] "stars"
    = [Samples.pluginA; Samples.pluginB]
  /\ Early.sorted localeCompare [Samples.pluginB; Samples.pluginA] "downloads"
    = [Samples.pluginB; Samples.pluginA].
Proof. repeat split; reflexivity. Qed.

Lemma sort_example_dated (localeCompare : string -> string -> Z)
      (Date_getTime : string -> num) :
  Dated.sorted localeCompare Date_getTime [Samples.datedA; Samples.datedB] "stars"
    = [Samples.datedA; Samples.datedB]
  /\ Dated.sorted localeCompare Date_getTime [Samples.datedA; Samples.datedB] "downloads"
    = [Samples.datedB; Samples.datedA].
Proof. repeat split; reflexivity. Qed.

(** C2. Under the sort key ["published"] the comparator returns the
    difference of the publication times and nothing else: two plugins
    published at the same time stay in the order in which they came in,
    whatever their update dates, star counts and names.  Here [alpha] has
    fifty times the stars of [zeta] and the earlier name, yet each of the two
    input orders comes back unchanged. *)
Theorem published_ties_keep_input_order
        (localeCompare : string -> string -> Z) (Date_getTime : string -> num) :
  Dated.sorted localeCompare Date_getTime [Samples.zeta; Samples.alpha] "published"
    = [Samples.zeta; Samples.alpha]
  /\ Dated.sorted localeCompare Date_getTime [Samples.alpha; Samples.zeta] "published"
    = [Samples.alpha; Samples.zeta].
Proof.
  assert (Htie : forall a b, Dated.published a = Dated.published b ->
            SortCompare (Dated.compare localeCompare Date_getTime "published") a b = 0).
  { intros a b Hab. unfold SortCompare, Dated.compare. cbn [String.eqb Ascii.eqb Bool.eqb].
    rewrite Hab. destruct (Date_getTime (Dated.published b)) as [t|]; simpl; lia. }
  unfold Dated.sorted, Array_sort. cbn [foldr sort_insert].
  rewrite !Htie by reflexivity. done.
Qed.

(** ** The list loaders *)

Module HttpFacts.
Import Http.

Lemma bind_fetch_trace {A B} m url (o : Outcome A) (f : Response A -> M B) :
  exists t, snd (fetch m url o ≫= f) = (m, url) :: t.
Proof.
  unfold mbind, M_bind, bind, fetch. destruct o as [e|r]; simpl.
  - by exists [].
  - destruct (f r) as [v t]. by exists t.
Qed.

Lemma bind_inr {A B} (m : M A) (f : A -> M B) b t :
  m ≫= f = (inr b, t) ->
  exists a t1 t2, m = (inr a, t1) /\ f a = (inr b, t2) /\ t = t1 ++ t2.
Proof.
  unfold mbind, M_bind, bind. destruct m as [[e|a] t1]; [done|].
  destruct (f a) as [v t2] eqn:Hf. intros [= -> <-]. by exists a, t1, t2.
Qed.

Lemma fetch_inr {A} m url (o : Outcome A) r t :
  fetch m url o = (inr r, t) -> o = Resolved r /\ t = [(m, url)].
Proof. destruct o; simpl; [done|]. by intros [= -> <-]. Qed.

Lemma parse_inr {A} (r : Response A) a t :
  parse r = (inr a, t) -> json r = Some a /\ t = [].
Proof. unfold parse. destruct (json r); [|done]. by intros [= -> <-]. Qed.
End HttpFacts.

Section WindowFacts.
Import Http.

Lemma direct_hit net now st :
  Direct.cache_valid now st = true ->
  Direct.fetchPlugins net now st = (inr (Some (Direct.CACHE st)), st, []).
Proof. intros H. unfold Direct.fetchPlugins. by rewrite H. Qed.

Lemma direct_miss net now st :
  Direct.cache_valid now st = false ->
  exists r st' t,
    Direct.fetchPlugins net now st = (r, st', (GET, Direct.ENDPOINT) :: t).
Proof.
  intros H. unfold Direct.fetchPlugins. rewrite H.
  match goal with
  | |- context [fetch ?m ?u ?o ≫= ?f] =>
      destruct (HttpFacts.bind_fetch_trace m u o f) as [t Ht];
      destruct (fetch m u o ≫= f) as [v t'] eqn:E
  end.
  simpl in Ht. subst t'.
  destruct v as [e|[ps|]]; eauto.
Qed.

Lemma aggregate_hit net now st :
  Aggregate.cache_valid now st = true ->
  Aggregate.fetchPlugins net now st = (Some (Aggregate.CACHE st), st, []).
Proof. intros H. unfold Aggregate.fetchPlugins. by rewrite H. Qed.

Lemma aggregate_miss net now st :
  Aggregate.cache_valid now st = false ->
  exists r st' t,
    Aggregate.fetchPlugins net now st
    = (r, st', (GET, Aggregate.PLUGINS_ENDPOINT) :: t).
Proof.
  intros H. unfold Aggregate.fetchPlugins. rewrite H.
  match goal with
  | |- context [fetch ?m ?u ?o ≫= ?f] =>
      destruct (HttpFacts.bind_fetch_trace m u o f) as [t Ht];
      destruct (fetch m u o ≫= f) as [v t'] eqn:E
  end.
  simpl in Ht. subst t'. unfold Aggregate.catch_null.
  destruct v as [e|[[ps|]|]]; eauto.
Qed.

Lemma direct_valid_iff now st :
  Direct.cache_valid now st = true
  <-> now - Direct.lastFetch st < CACHE_DURATION /\ Direct.CACHE st <> [].
Proof.
  unfold Direct.cache_valid. rewrite andb_true_iff, Z.ltb_lt, Nat.ltb_lt.
  destruct (Direct.CACHE st); simpl; split; intros [? ?]; split; try done; lia.
Qed.

Lemma aggregate_valid_iff now st :
  Aggregate.cache_valid now st = true
  <-> now - Aggregate.lastFetch st < CACHE_DURATION /\ Aggregate.CACHE st <> [].
Proof.
  unfold Aggregate.cache_valid. rewrite andb_true_iff, Z.ltb_lt, Nat.ltb_lt.
  destruct (Aggregate.CACHE st); simpl; split; intros [? ?]; split; try done; lia.
Qed.
End WindowFacts.

(** ** C3: the staleness window of the list loader *)

(** C3, as stated, fails: a load that found no plugin leaves the cache
    empty, and the next call, one second later and well inside the five
    minutes, goes to the network again.  Both designs. *)
Lemma empty_cache_refetches_within_window :
  (let '(r1, st1, t1) :=
     Direct.fetchPlugins Samples.net_nothing 1700000000000 Direct.initial in
   let '(_, _, t2) := Direct.fetchPlugins Samples.net_nothing 1700000001000 st1 in
   r1 = inr (Some [])
   /\ t1 = [(Http.GET, Direct.ENDPOINT)]
   /\ 1700000001000 - Direct.lastFetch st1 < CACHE_DURATION
   /\ t2 = [(Http.GET, Direct.ENDPOINT)])
  /\
  (let '(r1, st1, t1) :=
     Aggregate.fetchPlugins (Samples.backend_of [] Samples.zeta) 1700000000000
       Aggregate.initial in
   let '(_, _, t2) :=
     Aggregate.fetchPlugins (Samples.backend_of [] Samples.zeta) 1700000001000 st1 in
   r1 = Some []
   /\ t1 = [(Http.GET, Aggregate.PLUGINS_ENDPOINT)]
   /\ 1700000001000 - Aggregate.lastFetch st1 < CACHE_DURATION
   /\ t2 = [(Http.GET, Aggregate.PLUGINS_ENDPOINT)]).
Proof. vm_compute. repeat split; reflexivity. Qed.

(** C3, amended. In both designs: when the cache is non-empty and the call
    comes less than five minutes after the recorded last fetch, no request is
    issued, the cached collection is returned as it is and the bindings are
    untouched; when the cache is empty or five minutes have passed, the call
    goes to the network, starting with the collection endpoint. *)
Theorem cached_list_served_within_window
        (dnet : Direct.Net) (anet : Aggregate.Net) (now : Z)
        (dst : Direct.State) (ast : Aggregate.State) :
  (Direct.CACHE dst <> [] -> now - Direct.lastFetch dst < CACHE_DURATION ->
     Direct.fetchPlugins dnet now dst = (inr (Some (Direct.CACHE dst)), dst, []))
  /\ (Direct.CACHE dst = [] \/ CACHE_DURATION <= now - Direct.lastFetch dst ->
     exists r st' t,
       Direct.fetchPlugins dnet now dst = (r, st', (Http.GET, Direct.ENDPOINT) :: t))
  /\ (Aggregate.CACHE ast <> [] -> now - Aggregate.lastFetch ast < CACHE_DURATION ->
     Aggregate.fetchPlugins anet now ast = (Some (Aggregate.CACHE ast), ast, []))
  /\ (Aggregate.CACHE ast = [] \/ CACHE_DURATION <= now - Aggregate.lastFetch ast ->
     exists r st' t,
       Aggregate.fetchPlugins anet now ast
       = (r, st', (Http.GET, Aggregate.PLUGINS_ENDPOINT) :: t)).
Proof.
  repeat split.
  - intros Hne Hlt. apply direct_hit, direct_valid_iff. done.
  - intros H. apply direct_miss.
    destruct (Direct.cache_valid now dst) eqn:E; [|done].
    apply direct_valid_iff in E as [? ?]. destruct H; [done | lia].
  - intros Hne Hlt. apply aggregate_hit, aggregate_valid_iff. done.
  - intros H. apply aggregate_miss.
    destruct (Aggregate.cache_valid now ast) eqn:E; [|done].
    apply aggregate_valid_iff in E as [? ?]. destruct H; [done | lia].
Qed.

Lemma cached_list_served_within_window_witness :
  Direct.fetchPlugins Samples.net_down 1700000060000 Samples.direct_warm
    = (inr (Some [Samples.economy_plugin]), Samples.direct_warm, [])
  /\ (exists r st' t,
        Direct.fetchPlugins Samples.net_down 1700000300000 Samples.direct_warm
        = (r, st', (Http.GET, Direct.ENDPOINT) :: t))
  /\ Aggregate.fetchPlugins (Samples.backend_of [] Samples.zeta) 1700000060000
       Samples.aggregate_warm
    = (Some [Aggregate.mkRef 0 Samples.zeta], Samples.aggregate_warm, [])
  /\ (exists r st' t,
        Aggregate.fetchPlugins (Samples.backend_of [] Samples.zeta) 1700000300000
          Samples.aggregate_warm
        = (r, st', (Http.GET, Aggregate.PLUGINS_ENDPOINT) :: t)).
Proof.
  pose proof (cached_list_served_within_window Samples.net_down
                (Samples.backend_of [] Samples.zeta) 1700000060000
                Samples.direct_warm Samples.aggregate_warm) as (H1 & _ & H3 & _).
  pose proof (cached_list_served_within_window Samples.net_down
                (Samples.backend_of [] Samples.zeta) 1700000300000
                Samples.direct_warm Samples.aggregate_warm) as (_ & H2 & _ & H4).
  split; [apply H1; [discriminate | reflexivity]|].
  split; [apply H2; right; discriminate|].
  split; [apply H3; [discriminate | reflexivity]|].
  apply H4; right; discriminate.
Defined.

(** ** The direct fan-out, one candidate at a time *)

Section CandidateFacts.
Import Http.
Import DirectSpec.
Variable net : Direct.Net.
#[local] Abbreviation listed := (DirectSpec.listed net).
#[local] Abbreviation answers := (DirectSpec.answers net).

Ltac step :=
  unfold mbind, M_bind, mret, M_ret, bind, ret, throw, fetch, parse in *; simpl in *.

Lemma candidate_manifest_refused repo r :
  Direct.manifest net (Direct.manifest_url repo) = Resolved r ->
  ok r = false ->
  Direct.candidate net repo = (inr None, [(GET, Direct.manifest_url repo)]).
Proof. intros Hm Hok. unfold Direct.candidate. step. by rewrite Hm, Hok. Qed.

Lemma candidate_releases_refused repo r pkg r' :
  Direct.manifest net (Direct.manifest_url repo) = Resolved r ->
  ok r = true -> json r = Some pkg ->
  Direct.releases net (Direct.releases_url repo) = Resolved r' ->
  ok r' = false ->
  Direct.candidate net repo
  = (inr None, [(GET, Direct.manifest_url repo); (GET, Direct.releases_url repo)]).
Proof.
  intros Hm Hok Hj Hr Hok'. unfold Direct.candidate. step.
  by rewrite Hm, Hok, Hj, Hr, Hok'.
Qed.

Lemma candidate_no_release repo r pkg r' :
  Direct.manifest net (Direct.manifest_url repo) = Resolved r ->
  ok r = true -> json r = Some pkg ->
  Direct.releases net (Direct.releases_url repo) = Resolved r' ->
  ok r' = true -> json r' = Some [] ->
  Direct.candidate net repo
  = (inr None, [(GET, Direct.manifest_url repo); (GET, Direct.releases_url repo)]).
Proof.
  intros Hm Hok Hj Hr Hok' Hj'. unfold Direct.candidate. step.
  by rewrite Hm, Hok, Hj, Hr, Hok', Hj'.
Qed.

Lemma candidate_listed repo r pkg r' first rest lr :
  Direct.manifest net (Direct.manifest_url repo) = Resolved r ->
  ok r = true -> json r = Some pkg ->
  Direct.releases net (Direct.releases_url repo) = Resolved r' ->
  ok r' = true -> json r' = Some (first :: rest) ->
  Direct.probe net (Direct.logo_url repo) = Resolved lr ->
  Direct.candidate net repo
  = (inr (Some (plugin_of repo pkg first (ok lr))),
     [(GET, Direct.manifest_url repo); (GET, Direct.releases_url repo);
      (HEAD, Direct.logo_url repo)]).
Proof.
  intros Hm Hok Hj Hr Hok' Hj' Hp. unfold Direct.candidate. step.
  rewrite Hm, Hok, Hj, Hr, Hok', Hj', Hp. simpl.
  unfold plugin_of. by destruct (ok lr).
Qed.

(** A candidate is listed only through the last of the four exits. *)
Lemma candidate_listed_inv repo p t :
  Direct.candidate net repo = (inr (Some p), t) ->
  exists r pkg r' first rest lr,
    Direct.manifest net (Direct.manifest_url repo) = Resolved r
    /\ ok r = true /\ json r = Some pkg
    /\ Direct.releases net (Direct.releases_url repo) = Resolved r'
    /\ ok r' = true /\ json r' = Some (first :: rest)
    /\ Direct.probe net (Direct.logo_url repo) = Resolved lr
    /\ p = plugin_of repo pkg first (ok lr).
Proof.
  unfold Direct.candidate. step.
  destruct (Direct.manifest net _) as [e|r] eqn:Hm; [done|].
  destruct (ok r) eqn:Hok; simpl; [|done].
  destruct (json r) as [pkg|] eqn:Hj; simpl; [|done].
  destruct (Direct.releases net _) as [e|r'] eqn:Hr; simpl; [done|].
  destruct (ok r') eqn:Hok'; simpl; [|done].
  destruct (json r') as [[|first rest]|] eqn:Hj'; simpl; try done.
  destruct (Direct.probe net _) as [e|lr] eqn:Hp; simpl; [done|].
  intros [= <- <-].
  exists r, pkg, r', first, rest, lr. repeat split; try done.
  unfold plugin_of. by destruct (ok lr).
Qed.

Lemma candidate_completes repo :
  answers repo -> exists op t, Direct.candidate net repo = (inr op, t).
Proof.
  intros ((r & Hm & Hb) & (r' & Hr & Hb') & (lr & Hp)).
  destruct (ok r) eqn:Hok.
  - destruct (Hb eq_refl) as [pkg Hj].
    destruct (ok r') eqn:Hok'.
    + destruct (Hb' eq_refl) as [[|first rest] Hj'].
      * eexists _, _. by eapply candidate_no_release.
      * eexists _, _. by eapply candidate_listed.
    + eexists _, _. by eapply candidate_releases_refused.
  - eexists _, _. by eapply candidate_manifest_refused.
Qed.

(** *** The loop *)

Lemma candidates_inr its i n acc ps t :
  (i <= length its)%nat ->
  Direct.candidates net its i n acc = (inr ps, t) ->
  (i + n <= length its)%nat
  /\ ps = acc ++ omap listed (take n (drop i its)).
Proof.
  revert i acc t. induction n as [|n IH]; intros i acc t Hle; simpl.
  - unfold ret. intros [= <- <-]. split; [lia|]. by rewrite app_nil_r.
  - destruct (its !! i) as [repo|] eqn:Hi; [|done].
    intros H. apply HttpFacts.bind_inr in H as (op & t1 & t2 & Hc & Hrest & ->).
    apply lookup_lt_Some in Hi as Hlt.
    apply IH in Hrest as [Hlen ->]; [|lia].
    split; [lia|].
    rewrite (drop_S _ _ _ Hi). simpl.
    unfold DirectSpec.listed at 2. rewrite Hc. simpl.
    rewrite <- app_assoc. f_equal. by destruct op.
Qed.

Lemma candidates_complete its i n acc :
  (i + n <= length its)%nat ->
  Forall answers its ->
  exists ps t, Direct.candidates net its i n acc = (inr ps, t).
Proof.
  intros Hlen Hall. revert i acc Hlen.
  induction n as [|n IH]; intros i acc Hlen; simpl.
  - by eexists _, _.
  - destruct (lookup_lt_is_Some_2 its i ltac:(lia)) as [repo Hi]. rewrite Hi.
    assert (Hrepo : answers repo).
    { eapply Forall_lookup_1; [exact Hall | exact Hi]. }
    destruct (candidate_completes repo Hrepo) as (op & t1 & Hc).
    destruct (IH (S i) (acc ++ option_list op) ltac:(lia)) as (ps & t2 & Hrest).
    exists ps, (t1 ++ t2). unfold mbind, M_bind, bind. by rewrite Hc, Hrest.
Qed.



(** An exception thrown while a candidate is examined leaves the loop. *)
Lemma candidates_throw its i n acc j repo e t :
  (j < n)%nat ->
  its !! (i + j)%nat = Some repo ->
  Direct.candidate net repo = (inl e, t) ->
  (forall j', (j' < j)%nat ->
     exists repo' op t',
       its !! (i + j')%nat = Some repo'
       /\ Direct.candidate net repo' = (inr op, t')) ->
  exists t', Direct.candidates net its i n acc = (inl e, t').
Proof.
  revert i n acc. induction j as [|j IH]; intros i n acc Hj Hrepo Hthrow Hbefore.
  - destruct n as [|n]; [lia|]. simpl.
    rewrite Nat.add_0_r in Hrepo. rewrite Hrepo.
    unfold mbind, M_bind, bind. rewrite Hthrow. by eexists.
  - destruct n as [|n]; [lia|]. simpl.
    destruct (Hbefore 0%nat ltac:(lia)) as (repo' & op & t' & Hi & Hc).
    rewrite Nat.add_0_r in Hi. rewrite Hi.
    unfold mbind, M_bind, bind. rewrite Hc.
    destruct (IH (S i) n (acc ++ option_list op) ltac:(lia)) as (t2 & ->).
    + by replace (S i + j)%nat with (i + S j)%nat by lia.
    + exact Hthrow.
    + intros j' Hj'. destruct (Hbefore (S j') ltac:(lia)) as (r & o & tt' & H1 & H2).
      exists r, o, tt'. split; [|done].
      by replace (S i + j')%nat with (i + S j')%nat by lia.
    + by eexists.
Qed.

End CandidateFacts.

(** ** The direct loader as a whole *)

Section DirectLoad.
Import Http DirectSpec.
Variable net : Direct.Net.
Variable now : Z.
Variable st : Direct.State.
Hypothesis stale : Direct.cache_valid now st = false.

Lemma direct_refused sr :
  Direct.search net Direct.ENDPOINT = Resolved sr ->
  ok sr = false ->
  Direct.fetchPlugins net now st
  = (inr None, {| Direct.CACHE := Direct.CACHE st; Direct.lastFetch := now |},
     [(GET, Direct.ENDPOINT)]).
Proof.
  intros Hs Hok. unfold Direct.fetchPlugins. rewrite stale.
  unfold mbind, M_bind, mret, M_ret, bind, ret, fetch. by rewrite Hs, Hok.
Qed.

Lemma direct_fresh_load sr result :
  Direct.search net Direct.ENDPOINT = Resolved sr ->
  ok sr = true -> json sr = Some result ->
  Direct.fetchPlugins net now st
  = match Direct.candidates net (Direct.items result) 0
            (Z.to_nat (Direct.total_count result)) [] with
    | (inr ps, t) =>
        (inr (Some ps),
         {| Direct.CACHE := Direct.merge (Direct.CACHE st) ps; Direct.lastFetch := now |},
         (GET, Direct.ENDPOINT) :: t)
    | (inl e, t) =>
        (inl e, {| Direct.CACHE := Direct.CACHE st; Direct.lastFetch := now |},
         (GET, Direct.ENDPOINT) :: t)
    end.
Proof.
  intros Hs Hok Hj. unfold Direct.fetchPlugins. rewrite stale.
  unfold mbind, M_bind, mret, M_ret, bind, ret, fetch, parse, throw.
  rewrite Hs, Hok, Hj.
  simpl.
  destruct (Direct.candidates net (Direct.items result) 0
              (Z.to_nat (Direct.total_count result)) []) as [[e|ps] t]; simpl; [done|].
  by rewrite app_nil_r.
Qed.

Lemma direct_loaded_inv ps st' t :
  Direct.fetchPlugins net now st = (inr (Some ps), st', t) ->
  exists sr result t',
    Direct.search net Direct.ENDPOINT = Resolved sr
    /\ ok sr = true /\ json sr = Some result
    /\ Direct.candidates net (Direct.items result) 0
         (Z.to_nat (Direct.total_count result)) [] = (inr ps, t').
Proof.
  destruct (Direct.search net Direct.ENDPOINT) as [e|sr] eqn:Hs.
  - unfold Direct.fetchPlugins. rewrite stale.
    unfold mbind, M_bind, bind, fetch. by rewrite Hs.
  - destruct (ok sr) eqn:Hok.
    + destruct (json sr) as [result|] eqn:Hj.
      * rewrite (direct_fresh_load sr result Hs Hok Hj).
        destruct (Direct.candidates net _ _ _ _) as [[e|ps'] t'] eqn:Hc; [done|].
        intros [= <- <- <-]. by exists sr, result, t'.
      * unfold Direct.fetchPlugins. rewrite stale.
        unfold mbind, M_bind, mret, M_ret, bind, ret, fetch, parse, throw.
        by rewrite Hs, Hok, Hj.
    + rewrite (direct_refused sr Hs Hok). done.
Qed.
End DirectLoad.

Lemma aggregate_refused net now st r :
  Aggregate.cache_valid now st = false ->
  Aggregate.plugins net Aggregate.PLUGINS_ENDPOINT = Http.Resolved r ->
  Http.ok r = false ->
  Aggregate.fetchPlugins net now st
  = (None, st, [(Http.GET, Aggregate.PLUGINS_ENDPOINT)]).
Proof.
  intros Hv Hp Hok. unfold Aggregate.fetchPlugins. rewrite Hv.
  unfold mbind, M_bind, mret, M_ret, Http.bind, Http.ret, Http.fetch.
  by rewrite Hp, Hok.
Qed.

Lemma sum_downloads_total l :
  Direct.sum_downloads l = DirectSpec.total_downloads l.
Proof.
  unfold Direct.sum_downloads, DirectSpec.total_downloads.
  assert (H : forall acc, fold_left (fun sum asset => sum + Direct.download_count asset) l acc
                          = acc + foldr Z.add 0 (List.map Direct.download_count l)).
  { induction l as [|a l IH]; intros acc; simpl; [lia|]. rewrite IH. lia. }
  rewrite H. lia.
Qed.

(** ** C4: plugin ids in the cache *)

Section UniqueIds.
Import Http.

Lemma merge_unique cache ps :
  NoDup (List.map Early.id cache) ->
  NoDup (List.map Early.id (Direct.merge cache ps)).
Proof.
  unfold Direct.merge. revert cache.
  induction ps as [|p ps IH]; intros cache Hnd; simpl; [done|].
  apply IH. unfold Direct.cache_find.
  destruct (List.find _ cache) as [hit|] eqn:Hfind; [done|].
  rewrite List.map_app. simpl.
  apply NoDup_app. split; [done|]. split; [|apply NoDup_singleton].
  intros i Hi ->%list_elem_of_singleton.
  apply list_elem_of_In, in_map_iff in Hi as (x & Hx & Hin).
  pose proof (find_none _ _ Hfind x Hin) as Hne. simpl in Hne. lia.
Qed.

(** The merge of the direct design keeps the ids of the cache distinct,
    whatever the network answers. *)
Lemma direct_fetch_unique net now st :
  NoDup (List.map Early.id (Direct.CACHE st)) ->
  NoDup (List.map Early.id (Direct.CACHE (snd (fst (Direct.fetchPlugins net now st))))).
Proof.
  intros Hnd. unfold Direct.fetchPlugins.
  destruct (Direct.cache_valid now st); [done|].
  match goal with
  | |- context [match ?run with _ => _ end] => destruct run as [[e|[ps|]] t]
  end; simpl; try done.
  by apply merge_unique.
Qed.
End UniqueIds.

(** C4. A list load followed, six minutes later, by a detail load of a
    plugin that is in the cache: the fetched object is new, so [indexOf]
    answers [-1], [slice] copies and changes nothing, and [push] adds a second
    entry with the id of the first.  The ids of the cache are no longer
    distinct. *)
Theorem detail_fetch_duplicates_cached_id :
  let net := Samples.backend_of [Samples.zeta; Samples.alpha] Samples.zeta in
  let '(_, st1, _) := Aggregate.fetchPlugins net 1700000000000 Aggregate.initial in
  let '(r, st2, t) := Aggregate.fetchPlugin net 1700000360000 1 st1 in
  List.map (fun x => Dated.id (Aggregate.obj x)) (Aggregate.CACHE st1) = [1; 2]
  /\ t = [(Http.GET, "https://api.serenityjs.net/plugin/1"%string)]
  /\ Aggregate.indexOf (Aggregate.CACHE st1) (Aggregate.alloc (Aggregate.next_addr st1) Samples.zeta) = -1
  /\ List.map (fun x => Dated.id (Aggregate.obj x)) (Aggregate.CACHE st2) = [1; 2; 1]
  /\ ~ NoDup (List.map (fun x => Dated.id (Aggregate.obj x)) (Aggregate.CACHE st2)).
Proof.
  vm_compute. repeat split; try reflexivity.
  intros H. apply NoDup_cons in H as [Hin _]. apply Hin.
  apply elem_of_cons. right. apply elem_of_cons. by left.
Qed.

(** ** C5: the error policy of the list loader *)

(** C5, as stated, fails twice over.  In [net_two] both logo probes are
    answered 404, and both plugins are listed all the same, with the
    placeholder: a failed probe omits nothing.  In [net_bad_manifest] the
    manifest of one candidate is served with status 200 and is not JSON:
    [JSON.parse] throws, nothing catches it, and the whole load fails. *)
Lemma failed_probe_keeps_item_and_bad_manifest_fails_load :
  Direct.probe Samples.net_two (Direct.logo_url Samples.economy)
    = Samples.notFound
  /\ fst (fst (Direct.fetchPlugins Samples.net_two 1700000000000 Direct.initial))
     = inr (Some [Samples.economy_plugin; Samples.warps_plugin])
  /\ fst (fst (Direct.fetchPlugins Samples.net_bad_manifest 1700000000000 Direct.initial))
     = inl (Http.SyntaxError "Unexpected token in JSON").
Proof. vm_compute. repeat split; reflexivity. Qed.

(** C5, amended.  A collection call answered with a non-success status
    makes the loader return null, in both designs, and the cache keeps what it
    had.  In the fan-out, a candidate whose manifest or whose release list is
    answered with a non-success status is skipped without an exception; a
    candidate whose logo probe is answered with a non-success status is kept,
    with the placeholder logo; a list that is returned holds, in order,
    exactly the plugins of the examined candidates that were not skipped; and
    an exception raised while a candidate is examined (a rejected request, a
    body that does not parse) is not swallowed, it ends the load. *)
Theorem refused_items_are_skipped
        (dnet : Direct.Net) (anet : Aggregate.Net) (now : Z)
        (dst : Direct.State) (ast : Aggregate.State) :
  (forall sr,
     Direct.cache_valid now dst = false ->
     Direct.search dnet Direct.ENDPOINT = Http.Resolved sr ->
     Http.ok sr = false ->
     Direct.fetchPlugins dnet now dst
     = (inr None, {| Direct.CACHE := Direct.CACHE dst; Direct.lastFetch := now |},
        [(Http.GET, Direct.ENDPOINT)]))
  /\ (forall r,
     Aggregate.cache_valid now ast = false ->
     Aggregate.plugins anet Aggregate.PLUGINS_ENDPOINT = Http.Resolved r ->
     Http.ok r = false ->
     Aggregate.fetchPlugins anet now ast
     = (None, ast, [(Http.GET, Aggregate.PLUGINS_ENDPOINT)]))
  /\ (forall repo r,
     Direct.manifest dnet (Direct.manifest_url repo) = Http.Resolved r ->
     Http.ok r = false ->
     Direct.candidate dnet repo
     = (inr None, [(Http.GET, Direct.manifest_url repo)]))
  /\ (forall repo r pkg r',
     Direct.manifest dnet (Direct.manifest_url repo) = Http.Resolved r ->
     Http.ok r = true -> Http.json r = Some pkg ->
     Direct.releases dnet (Direct.releases_url repo) = Http.Resolved r' ->
     Http.ok r' = false ->
     Direct.candidate dnet repo
     = (inr None, [(Http.GET, Direct.manifest_url repo);
                   (Http.GET, Direct.releases_url repo)]))
  /\ (forall repo r pkg r' first rest lr,
     Direct.manifest dnet (Direct.manifest_url repo) = Http.Resolved r ->
     Http.ok r = true -> Http.json r = Some pkg ->
     Direct.releases dnet (Direct.releases_url repo) = Http.Resolved r' ->
     Http.ok r' = true -> Http.json r' = Some (first :: rest) ->
     Direct.probe dnet (Direct.logo_url repo) = Http.Resolved lr ->
     Http.ok lr = false ->
     Direct.candidate dnet repo
     = (inr (Some (DirectSpec.plugin_of repo pkg first false)),
        [(Http.GET, Direct.manifest_url repo); (Http.GET, Direct.releases_url repo);
         (Http.HEAD, Direct.logo_url repo)])
     /\ Early.logo (DirectSpec.plugin_of repo pkg first false)
        = Some Direct.PLACEHOLDER)
  /\ (forall ps st' t,
     Direct.cache_valid now dst = false ->
     Direct.fetchPlugins dnet now dst = (inr (Some ps), st', t) ->
     exists sr result,
       Direct.search dnet Direct.ENDPOINT = Http.Resolved sr
       /\ Http.json sr = Some result
       /\ ps = omap (DirectSpec.listed dnet)
                 (take (Z.to_nat (Direct.total_count result)) (Direct.items result)))
  /\ (forall sr result j repo e t,
     Direct.cache_valid now dst = false ->
     Direct.search dnet Direct.ENDPOINT = Http.Resolved sr ->
     Http.ok sr = true -> Http.json sr = Some result ->
     (j < Z.to_nat (Direct.total_count result))%nat ->
     Direct.items result !! j = Some repo ->
     Direct.candidate dnet repo = (inl e, t) ->
     (forall j', (j' < j)%nat ->
        exists repo' op t',
          Direct.items result !! j' = Some repo'
          /\ Direct.candidate dnet repo' = (inr op, t')) ->
     exists st' t', Direct.fetchPlugins dnet now dst = (inl e, st', t')).
Proof.
  split; [intros; by eapply direct_refused|].
  split; [intros; by eapply aggregate_refused|].
  split; [intros; by eapply candidate_manifest_refused|].
  split; [intros; by eapply candidate_releases_refused|].
  split.
  - intros repo r pkg r' first rest lr Hm Hok Hj Hr Hok' Hj' Hp Hlr.
    split; [|done].
    rewrite <- Hlr. by eapply candidate_listed.
  - split.
    + intros ps st' t Hstale Hload.
      destruct (direct_loaded_inv dnet now dst Hstale ps st' t Hload)
        as (sr & result & t' & Hs & Hok & Hj & Hc).
      exists sr, result. split; [done|]. split; [done|].
      apply candidates_inr in Hc as [_ ->]; [|lia].
      by rewrite drop_0.
    + intros sr result j repo e t Hstale Hs Hok Hj Hlt Hrepo Hthrow Hbefore.
      rewrite (direct_fresh_load dnet now dst Hstale sr result Hs Hok Hj).
      destruct (candidates_throw dnet (Direct.items result) 0
                  (Z.to_nat (Direct.total_count result)) [] j repo e t
                  Hlt Hrepo Hthrow Hbefore) as (t' & ->).
      by eexists _, _.
Qed.

Lemma refused_items_are_skipped_witness :
  Direct.fetchPlugins Samples.net_down 1700000000000 Direct.initial
    = (inr None, {| Direct.CACHE := []; Direct.lastFetch := 1700000000000 |},
       [(Http.GET, Direct.ENDPOINT)])
  /\ Direct.candidate Samples.net_nothing Samples.economy
     = (inr None, [(Http.GET, Direct.manifest_url Samples.economy)])
  /\ Early.logo (DirectSpec.plugin_of Samples.economy Samples.manifest_of_any
                   Samples.two_assets false)
     = Some Direct.PLACEHOLDER
  /\ exists sr result,
       Direct.search Samples.net_two Direct.ENDPOINT = Http.Resolved sr
       /\ Http.json sr = Some result
       /\ [Samples.economy_plugin; Samples.warps_plugin]
          = omap (DirectSpec.listed Samples.net_two)
              (take (Z.to_nat (Direct.total_count result)) (Direct.items result)).
Proof.
  pose proof (refused_items_are_skipped Samples.net_down
                (Samples.backend_of [] Samples.zeta) 1700000000000
                Direct.initial Aggregate.initial) as (H1 & _).
  pose proof (refused_items_are_skipped Samples.net_nothing
                (Samples.backend_of [] Samples.zeta) 1700000000000
                Direct.initial Aggregate.initial) as (_ & _ & H3 & _).
  pose proof (refused_items_are_skipped Samples.net_two
                (Samples.backend_of [] Samples.zeta) 1700000000000
                Direct.initial Aggregate.initial) as (_ & _ & _ & _ & H5 & H6 & _).
  split; [by eapply H1|].
  split; [by eapply H3|].
  split.
  - eapply (H5 Samples.economy); reflexivity.
  - eapply H6; reflexivity.
Defined.

(** ** C6: what the fan-out lists *)

(** C6.  After a load through the network that returned a list, every
    plugin of that list was built from a repository of the search result
    whose manifest request and release-list request were answered with
    success, whose release list is not empty, and whose logo probe was
    answered; its download count is the sum of the download counts of the
    assets of the first release, and its logo is the conventional path when
    the probe reported success and the placeholder otherwise. *)
Theorem listed_only_with_manifest_and_release
        (net : Direct.Net) (now : Z) (st st' : Direct.State)
        (ps : list Direct.Plugin) (t : list Http.Request) :
  Direct.cache_valid now st = false ->
  Direct.fetchPlugins net now st = (inr (Some ps), st', t) ->
  exists sr result,
    Direct.search net Direct.ENDPOINT = Http.Resolved sr
    /\ Http.json sr = Some result
    /\ Forall (fun p => exists repo r pkg r' first rest lr,
         repo ∈ Direct.items result
         /\ Direct.manifest net (Direct.manifest_url repo) = Http.Resolved r
         /\ Http.ok r = true /\ Http.json r = Some pkg
         /\ Direct.releases net (Direct.releases_url repo) = Http.Resolved r'
         /\ Http.ok r' = true /\ Http.json r' = Some (first :: rest)
         /\ Direct.probe net (Direct.logo_url repo) = Http.Resolved lr
         /\ p = DirectSpec.plugin_of repo pkg first (Http.ok lr)
         /\ Early.id p = Direct.repo_id repo
         /\ Early.downloads p = Some (DirectSpec.total_downloads (Direct.assets first))
         /\ Early.logo p = Some (if Http.ok lr then Direct.logo_url repo
                                 else Direct.PLACEHOLDER)) ps.
Proof.
  intros Hstale Hload.
  destruct (direct_loaded_inv net now st Hstale ps st' t Hload)
    as (sr & result & t' & Hs & Hok & Hj & Hc).
  exists sr, result. split; [done|]. split; [done|].
  apply candidates_inr in Hc as [_ ->]; [|lia].
  rewrite drop_0. simpl. apply Forall_forall. intros p Hp.
  apply list_elem_of_omap in Hp as (repo & Hrepo & Hlisted).
  unfold DirectSpec.listed in Hlisted.
  destruct (Direct.candidate net repo) as [[e|op] tc] eqn:Hcand; simpl in Hlisted; [done|].
  subst op.
  apply candidate_listed_inv in Hcand
    as (r & pkg & r' & first & rest & lr & Hm & Hmok & Hmj & Hr & Hrok & Hrj & Hl & ->).
  exists repo, r, pkg, r', first, rest, lr.
  repeat split; try done.
  - apply elem_of_take in Hrepo as (i & Hi & _). by eapply list_elem_of_lookup_2.
  - simpl. by rewrite sum_downloads_total.
Qed.

Lemma listed_only_with_manifest_and_release_witness :
  exists sr result,
    Direct.search Samples.net_two Direct.ENDPOINT = Http.Resolved sr
    /\ Http.json sr = Some result
    /\ Forall (fun p => exists repo r pkg r' first rest lr,
         repo ∈ Direct.items result
         /\ Direct.manifest Samples.net_two (Direct.manifest_url repo) = Http.Resolved r
         /\ Http.ok r = true /\ Http.json r = Some pkg
         /\ Direct.releases Samples.net_two (Direct.releases_url repo) = Http.Resolved r'
         /\ Http.ok r' = true /\ Http.json r' = Some (first :: rest)
         /\ Direct.probe Samples.net_two (Direct.logo_url repo) = Http.Resolved lr
         /\ p = DirectSpec.plugin_of repo pkg first (Http.ok lr)
         /\ Early.id p = Direct.repo_id repo
         /\ Early.downloads p = Some (DirectSpec.total_downloads (Direct.assets first))
         /\ Early.logo p = Some (if Http.ok lr then Direct.logo_url repo
                                 else Direct.PLACEHOLDER))
         [Samples.economy_plugin; Samples.warps_plugin].
Proof.
  eapply (listed_only_with_manifest_and_release Samples.net_two 1700000000000
            Direct.initial); reflexivity.
Defined.
(** ** C10: [total_count] against the length of [items] *)





(** ** The detail page *)

Section SlotFacts.
Import Http Details.

Lemma settle_failed {A} alive fb e (s : Slot A) :
  value (settle alive fb (inl e) (begin s)) = value s.
Proof. by destruct alive. Qed.

Lemma settle_alive_ok {A} fb (a : option A) (s : Slot A) :
  settle true fb (inr a) (begin s) = {| value := a; loading := false; error := None |}.
Proof. done. Qed.

Lemma settle_alive_failed {A} fb e (s : Slot A) :
  settle true fb (inl e) (begin s)
  = {| value := value s; loading := false;
       error := Some (default fb (message_of e)) |}.
Proof. done. Qed.

Lemma failed_truthy {A} what (res : Response A) :
  what <> EmptyString -> Js.truthy (default EmptyString (message_of (failed what res))) = true.
Proof. intros Hw. simpl. destruct what; [done|]. done. Qed.
End SlotFacts.

(** ** C7: the latest release and its fallback *)

(** C7, as stated, fails: the fallback asks for a page of one entry,
    [releases?per_page=1], not for all releases.  Against a host that honours
    [per_page], a repository whose newest release is a draft and whose next
    one is not gets "No releases yet.", although the listing of all its
    releases has a non-draft entry. *)
Lemma latest_fallback_reads_one_entry :
  let '(c, v, t) :=
    Details.latest_effect Samples.details_paged true "palm" "economy"
      Details.no_caches (Details.mount Details.no_caches "palm" "economy") in
  t = [(Http.GET, "https://api.github.com/repos/palm/economy/releases/latest"%string);
       (Http.GET, "https://api.github.com/repos/palm/economy/releases?per_page=1"%string)]
  /\ Details.release_list Samples.details_paged
       "https://api.github.com/repos/palm/economy/releases"
     = Samples.ok200 [Samples.a_draft; Samples.a_prerelease]
  /\ List.find (fun x => negb (Details.draft x)) [Samples.a_draft; Samples.a_prerelease]
     = Some Samples.a_prerelease
  /\ Details.value (Details.latestRelease v) = None
  /\ Details.latestReleaseCache c !! "palm/economy"%string = Some None
  /\ Details.latest_panel (Details.latestRelease v)
     = [Details.Empty "No releases yet."%string].
Proof. vm_compute. repeat split; reflexivity. Qed.

(** C7, amended.  When nothing is cached for the page and the [latest]
    endpoint answers 404, the loader asks for the first page of one release
    ([releases?per_page=1]).  If that is answered with success, the first
    non-draft entry of the returned page is stored as latest release, in the
    cache and in the state, with no error; when the page has no non-draft
    entry what is stored is null and the card shows "No releases yet.".  If
    it is answered with any non-success status, nothing is cached, the value
    is left as it was and the error text is set. *)
Theorem latest_release_fallback
        (net : Details.Net) (owner name : string)
        (c : Details.Caches) (v : Details.View)
        (res : Http.Response Details.GitHubRelease) :
  Details.latestReleaseCache c !! Details.cacheKey owner name = None ->
  Details.release_latest net (Details.latest_url owner name) = Http.Resolved res ->
  Http.status res = 404 ->
  let out := Details.latest_effect net true owner name c v in
  snd out = [(Http.GET, Details.latest_url owner name);
             (Http.GET, Details.latest_fallback_url owner name)]
  /\ (forall res2 page,
        Details.release_list net (Details.latest_fallback_url owner name)
          = Http.Resolved res2 ->
        Http.ok res2 = true -> Http.json res2 = Some page ->
        let first := List.find (fun x => negb (Details.draft x)) page in
        Details.latestRelease (snd (fst out))
          = {| Details.value := first; Details.loading := false; Details.error := None |}
        /\ Details.latestReleaseCache (fst (fst out))
           = <[Details.cacheKey owner name := first]> (Details.latestReleaseCache c)
        /\ (first = None ->
            Details.latest_panel (Details.latestRelease (snd (fst out)))
            = [Details.Empty "No releases yet."%string]))
  /\ (forall res2,
        Details.release_list net (Details.latest_fallback_url owner name)
          = Http.Resolved res2 ->
        Http.ok res2 = false ->
        Details.latestReleaseCache (fst (fst out)) = Details.latestReleaseCache c
        /\ Details.latestRelease (snd (fst out))
           = {| Details.value := Details.value (Details.latestRelease v);
                Details.loading := false;
                Details.error :=
                  Some ("Failed to load releases: "
                          +:+ Js.num_to_string (Http.status res2) +:+ " "
                          +:+ Http.statusText res2) |}).
Proof.
  intros Hcache Hlatest H404 out. subst out.
  unfold Details.latest_effect. rewrite Hcache.
  unfold Details.latest_body.
  unfold mbind, M_bind, mret, M_ret, Http.bind, Http.ret, Http.fetch, Http.parse, Http.throw.
  rewrite Hlatest, H404. simpl.
  destruct (Details.release_list net (Details.latest_fallback_url owner name))
    as [e|res2] eqn:Hlist; simpl.
  - split; [|split; intros; discriminate].
    (* the fallback request is logged even when it is rejected *)
    done.
  - destruct (Http.ok res2) eqn:Hok; simpl.
    + destruct (Http.json res2) as [page|] eqn:Hj; simpl.
      * split; [done|]. split.
        -- intros res2' page' [= <-] _ Hj'. rewrite Hj in Hj'. injection Hj' as <-.
           split; [done|]. split; [done|].
           intros Hnone. unfold Details.latest_panel, Details.has_error. simpl.
           by rewrite Hnone.
        -- intros res2' [= <-] Hok'. congruence.
      * split; [done|]. split.
        -- intros res2' page' [= <-] _ Hj'. congruence.
        -- intros res2' [= <-] Hok'. congruence.
    + split; [done|]. split.
      * intros res2' page' [= <-] Hok'. congruence.
      * intros res2' [= <-] _. done.
Qed.

Lemma latest_release_fallback_witness :
  let out :=
    Details.latest_effect Samples.details_quiet true "palm" "economy"
      Details.no_caches (Details.mount Details.no_caches "palm" "economy") in
  snd out = [(Http.GET, Details.latest_url "palm" "economy");
             (Http.GET, Details.latest_fallback_url "palm" "economy")]
  /\ Details.latestRelease (snd (fst out))
     = {| Details.value := Some Samples.a_prerelease; Details.loading := false;
          Details.error := None |}.
Proof.
  pose proof (latest_release_fallback Samples.details_quiet "palm" "economy"
                Details.no_caches (Details.mount Details.no_caches "palm" "economy")
                _ eq_refl eq_refl eq_refl) as (Htrace & Hok & _).
  split; [exact Htrace|].
  destruct (Hok _ _ eq_refl eq_refl eq_refl) as [Hstored _]. exact Hstored.
Defined.

(** ** C8: answers that are normalised *)

(** C8, as stated, fails for the contributors: the page normalises the
    status 204 only, and an answer 404 to the contributors request ends in
    the error text, with no value stored. *)
Lemma contributors_404_is_an_error :
  let '(c, v, t) :=
    Details.contributors_effect Samples.details_absent true "palm" "economy"
      Details.no_caches (Details.mount Details.no_caches "palm" "economy") in
  t = [(Http.GET, "https://api.github.com/repos/palm/economy/contributors?per_page=30"%string)]
  /\ Details.error (Details.contributors v)
     = Some "Failed to load contributors: 404 Not Found"%string
  /\ Details.value (Details.contributors v) = None
  /\ Details.contributorsCache c !! "palm/economy"%string = None.
Proof. vm_compute. repeat split; reflexivity. Qed.

Section Normalised.
Import Http Details.
Variable decodeBase64Utf8 : string -> Exn + string.
Variable net : Net.
Variables owner name : string.
Variable c : Caches.
Variable v : View.

Ltac run :=
  unfold mbind, M_bind, mret, M_ret, bind, ret, fetch, parse, throw; simpl.

Lemma status_404_not_ok {A} (res : Response A) : status res = 404 -> ok res = false.
Proof. intros H. unfold ok. by rewrite H. Qed.

Lemma readme_404 res :
  tab v = TabReadme -> value (readme v) = None ->
  readme_file net (readme_url owner name) = Resolved res ->
  status res = 404 ->
  let out := readme_effect decodeBase64Utf8 net true owner name c v in
  snd out = [(GET, readme_url owner name)]
  /\ readme (snd (fst out))
     = {| value := Some EmptyString; loading := false; error := None |}
  /\ readmeCache (fst (fst out))
     = <[cacheKey owner name := EmptyString]> (readmeCache c).
Proof.
  intros Htab Hnull Hnet H404. cbv zeta.
  unfold readme_effect, readme_body. rewrite Htab, Hnull. run.
  rewrite Hnet, H404. simpl. done.
Qed.

Lemma gallery_404 res :
  tab v = TabGallery -> value (galleryContent v) = None ->
  contents net (gallery_url owner name) = Resolved res ->
  status res = 404 ->
  let out := gallery_effect net true owner name c v in
  snd out = [(GET, gallery_url owner name)]
  /\ galleryContent (snd (fst out))
     = {| value := Some []; loading := false; error := None |}
  /\ galleryCache (fst (fst out))
     = <[cacheKey owner name := []]> (galleryCache c).
Proof.
  intros Htab Hnull Hnet H404. cbv zeta.
  unfold gallery_effect, gallery_body. rewrite Htab, Hnull. run.
  rewrite Hnet, H404. simpl. done.
Qed.

Lemma contributors_204 res :
  contributorsCache c !! cacheKey owner name = None ->
  contributor_list net (contributors_url owner name) = Resolved res ->
  status res = 204 ->
  let out := contributors_effect net true owner name c v in
  snd out = [(GET, contributors_url owner name)]
  /\ contributors (snd (fst out))
     = {| value := Some []; loading := false; error := None |}
  /\ contributorsCache (fst (fst out))
     = <[cacheKey owner name := []]> (contributorsCache c).
Proof.
  intros Hcache Hnet H204. cbv zeta.
  unfold contributors_effect, contributors_body. rewrite Hcache. run.
  rewrite Hnet, H204. simpl. done.
Qed.

Lemma contributors_404 res :
  contributorsCache c !! cacheKey owner name = None ->
  contributor_list net (contributors_url owner name) = Resolved res ->
  status res = 404 ->
  let out := contributors_effect net true owner name c v in
  snd out = [(GET, contributors_url owner name)]
  /\ contributors (snd (fst out))
     = {| value := value (contributors v); loading := false;
          error := Some ("Failed to load contributors: 404 " +:+ statusText res) |}
  /\ contributorsCache (fst (fst out)) = contributorsCache c.
Proof.
  intros Hcache Hnet H404. cbv zeta.
  unfold contributors_effect, contributors_body. rewrite Hcache. run.
  rewrite Hnet. unfold ok, failed. rewrite !H404. simpl.
  repeat split; reflexivity.
Qed.
(** After the 404 the README tab shows the notice, neither spinner nor
    alert. *)
Lemma readme_404_shows_notice res :
  tab v = TabReadme -> value (readme v) = None ->
  readme_file net (readme_url owner name) = Resolved res ->
  status res = 404 ->
  readme_panel
    (readme (snd (fst (readme_effect decodeBase64Utf8 net true owner name c v))))
  = [Empty "No README found for this repository."%string].
Proof.
  intros Htab Hnull Hnet H404.
  destruct (readme_404 res Htab Hnull Hnet H404) as (_ & -> & _). reflexivity.
Qed.

(** A page mounted later over the cached empty string starts with the
    loading flag set ([!readme] is true for [""]) and, the value being
    non-null, never fetches: it shows the spinner. *)
Lemma remount_over_empty_readme :
  readmeCache c !! cacheKey owner name = Some EmptyString ->
  readme_panel (readme (mount c owner name)) = [Spinner]
  /\ readme_effect decodeBase64Utf8 net true owner name c (mount c owner name)
     = (c, mount c owner name, []).
Proof.
  intros Hc. split.
  - unfold mount, readme_panel, has_error. simpl. rewrite Hc. reflexivity.
  - unfold readme_effect, mount. simpl. rewrite Hc. reflexivity.
Qed.
End Normalised.

(** C8, amended.  With the page alive and nothing loaded yet: a README
    request answered 404 stores the empty string, a gallery request answered
    404 stores the empty sequence, a contributors request answered 204 stores
    the empty sequence, each in the state and in the cache, and each leaves
    the error text null; a contributors request answered 404 is not
    normalised, it stores nothing and sets the error text. *)
Theorem absent_resources_are_normalised
        (decodeBase64Utf8 : string -> Http.Exn + string)
        (net : Details.Net) (owner name : string)
        (c : Details.Caches) (v : Details.View) :
  (forall res,
     Details.tab v = Details.TabReadme ->
     Details.value (Details.readme v) = None ->
     Details.readme_file net (Details.readme_url owner name) = Http.Resolved res ->
     Http.status res = 404 ->
     let out := Details.readme_effect decodeBase64Utf8 net true owner name c v in
     snd out = [(Http.GET, Details.readme_url owner name)]
     /\ Details.readme (snd (fst out))
        = {| Details.value := Some EmptyString; Details.loading := false;
             Details.error := None |}
     /\ Details.readmeCache (fst (fst out))
        = <[Details.cacheKey owner name := EmptyString]> (Details.readmeCache c))
  /\ (forall res,
     Details.tab v = Details.TabGallery ->
     Details.value (Details.galleryContent v) = None ->
     Details.contents net (Details.gallery_url owner name) = Http.Resolved res ->
     Http.status res = 404 ->
     let out := Details.gallery_effect net true owner name c v in
     snd out = [(Http.GET, Details.gallery_url owner name)]
     /\ Details.galleryContent (snd (fst out))
        = {| Details.value := Some []; Details.loading := false;
             Details.error := None |}
     /\ Details.galleryCache (fst (fst out))
        = <[Details.cacheKey owner name := []]> (Details.galleryCache c))
  /\ (forall res,
     Details.contributorsCache c !! Details.cacheKey owner name = None ->
     Details.contributor_list net (Details.contributors_url owner name)
       = Http.Resolved res ->
     Http.status res = 204 ->
     let out := Details.contributors_effect net true owner name c v in
     snd out = [(Http.GET, Details.contributors_url owner name)]
     /\ Details.contributors (snd (fst out))
        = {| Details.value := Some []; Details.loading := false;
             Details.error := None |}
     /\ Details.contributorsCache (fst (fst out))
        = <[Details.cacheKey owner name := []]> (Details.contributorsCache c))
  /\ (forall res,
     Details.contributorsCache c !! Details.cacheKey owner name = None ->
     Details.contributor_list net (Details.contributors_url owner name)
       = Http.Resolved res ->
     Http.status res = 404 ->
     let out := Details.contributors_effect net true owner name c v in
     snd out = [(Http.GET, Details.contributors_url owner name)]
     /\ Details.contributors (snd (fst out))
        = {| Details.value := Details.value (Details.contributors v);
             Details.loading := false;
             Details.error :=
               Some ("Failed to load contributors: 404 " +:+ Http.statusText res) |}
     /\ Details.contributorsCache (fst (fst out)) = Details.contributorsCache c).
Proof.
  split; [intros res ? ? ? ?; by apply (readme_404 _ _ _ _ _ _ res)|].
  split; [intros res ? ? ? ?; by apply (gallery_404 _ _ _ _ _ res)|].
  split; [intros res ? ? ?; by apply (contributors_204 _ _ _ _ _ res)|].
  intros res ? ? ?; by apply (contributors_404 _ _ _ _ _ res).
Qed.

Lemma absent_resources_are_normalised_witness :
  Details.readme
    (snd (fst (Details.readme_effect Samples.identity_decoder Samples.details_absent
                 true "palm" "economy" Details.no_caches
                 (Details.mount Details.no_caches "palm" "economy"))))
  = {| Details.value := Some EmptyString; Details.loading := false;
       Details.error := None |}
  /\ Details.galleryContent
       (snd (fst (Details.gallery_effect Samples.details_absent true "palm" "economy"
                    Details.no_caches
                    (Details.setTab Details.TabGallery
                       (Details.mount Details.no_caches "palm" "economy")))))
     = {| Details.value := Some []; Details.loading := false; Details.error := None |}
  /\ Details.contributors
       (snd (fst (Details.contributors_effect Samples.details_quiet true "palm"
                    "economy" Details.no_caches
                    (Details.mount Details.no_caches "palm" "economy"))))
     = {| Details.value := Some []; Details.loading := false; Details.error := None |}.
Proof.
  pose proof (absent_resources_are_normalised Samples.identity_decoder
                Samples.details_absent "palm" "economy" Details.no_caches
                (Details.mount Details.no_caches "palm" "economy")) as (Hreadme & _).
  pose proof (absent_resources_are_normalised Samples.identity_decoder
                Samples.details_absent "palm" "economy" Details.no_caches
                (Details.setTab Details.TabGallery
                   (Details.mount Details.no_caches "palm" "economy")))
    as (_ & Hgallery & _).
  pose proof (absent_resources_are_normalised Samples.identity_decoder
                Samples.details_quiet "palm" "economy" Details.no_caches
                (Details.mount Details.no_caches "palm" "economy"))
    as (_ & _ & Hcontrib & _).
  split; [|split].
  - destruct (Hreadme _ eq_refl eq_refl eq_refl eq_refl) as (_ & H & _). exact H.
  - destruct (Hgallery _ eq_refl eq_refl eq_refl eq_refl) as (_ & H & _). exact H.
  - destruct (Hcontrib _ eq_refl eq_refl eq_refl) as (_ & H & _). exact H.
Defined.

(** ** C9: the lazy fetches run once *)

Section LazyFacts.
Import Http Details.
Variable decodeBase64Utf8 : string -> Exn + string.
Variable encodeURIComponent : string -> string.
Variable net : Net.
Variable alive : bool.
Variables owner name : string.
Variable c : Caches.
Variable v : View.

(** *** README *)

Lemma readme_idle :
  tab v = TabReadme -> is_Some (value (readme v)) ->
  readme_effect decodeBase64Utf8 net alive owner name c v = (c, v, []).
Proof.
  intros Htab Hsome. unfold readme_effect. rewrite Htab. simpl.
  by rewrite bool_decide_eq_true_2.
Qed.

Lemma readme_unfold :
  tab v = TabReadme -> value (readme v) = None ->
  readme_effect decodeBase64Utf8 net alive owner name c v
  = let '(r, t) := readme_body decodeBase64Utf8 net owner name in
    ({| repoCache := repoCache c;
        readmeCache := remember alive (cacheKey owner name) r (fun md => md) (readmeCache c);
        releasesCache := releasesCache c; commitsCache := commitsCache c;
        contributorsCache := contributorsCache c;
        latestReleaseCache := latestReleaseCache c;
        galleryCache := galleryCache c |},
     {| tab := tab v; repo := repo v;
        readme := settle alive "Failed to load README." (stored r) (begin (readme v));
        releases := releases v; commits := commits v;
        galleryContent := galleryContent v; contributors := contributors v;
        latestRelease := latestRelease v |},
     t).
Proof. intros Htab Hnull. unfold readme_effect. by rewrite Htab, Hnull. Qed.

Lemma readme_fetches :
  tab v = TabReadme -> value (readme v) = None ->
  exists t, snd (readme_effect decodeBase64Utf8 net alive owner name c v)
            = (GET, readme_url owner name) :: t.
Proof.
  intros Htab Hnull. rewrite readme_unfold by done.
  assert (Hb : exists t, snd (readme_body decodeBase64Utf8 net owner name)
                         = (GET, readme_url owner name) :: t)
    by (unfold readme_body; apply HttpFacts.bind_fetch_trace).
  destruct (readme_body _ _ _ _) as [r t']. simpl in *. exact Hb.
Qed.

Lemma readme_failed_stays_null e :
  tab v = TabReadme -> value (readme v) = None ->
  fst (readme_body decodeBase64Utf8 net owner name) = inl e ->
  let v' := snd (fst (readme_effect decodeBase64Utf8 net alive owner name c v)) in
  tab v' = TabReadme /\ value (readme v') = None.
Proof.
  intros Htab Hnull Hbody. cbv zeta. rewrite readme_unfold by done.
  destruct (readme_body _ _ _ _) as [r t]. simpl in *. subst r.
  split; [done|]. by destruct alive.
Qed.

Lemma readme_loaded_sticks md :
  tab v = TabReadme -> value (readme v) = None -> alive = true ->
  fst (readme_body decodeBase64Utf8 net owner name) = inr md ->
  let out := readme_effect decodeBase64Utf8 net alive owner name c v in
  tab (snd (fst out)) = TabReadme
  /\ value (readme (snd (fst out))) = Some md
  /\ readmeCache (fst (fst out)) !! cacheKey owner name = Some md.
Proof.
  intros Htab Hnull Halive Hbody. cbv zeta. rewrite readme_unfold by done.
  destruct (readme_body _ _ _ _) as [r t]. simpl in *. subst r alive.
  simpl. split; [done|]. split; [done|]. apply lookup_insert_eq.
Qed.

(** *** Releases *)

Lemma releases_idle :
  tab v = TabVersions -> is_Some (value (releases v)) ->
  releases_effect net alive owner name c v = (c, v, []).
Proof.
  intros Htab Hsome. unfold releases_effect. rewrite Htab. simpl.
  by rewrite bool_decide_eq_true_2.
Qed.

Lemma releases_fetches :
  tab v = TabVersions -> value (releases v) = None ->
  exists t, snd (releases_effect net alive owner name c v)
            = (GET, releases_url owner name) :: t.
Proof.
  intros Htab Hnull. unfold releases_effect. rewrite Htab, Hnull. simpl.
  assert (Hb : exists t, snd (releases_body net owner name)
                         = (GET, releases_url owner name) :: t)
    by (unfold releases_body; apply HttpFacts.bind_fetch_trace).
  destruct (releases_body _ _ _) as [r t']. simpl in *. exact Hb.
Qed.

Lemma releases_failed_stays_null e :
  tab v = TabVersions -> value (releases v) = None ->
  fst (releases_body net owner name) = inl e ->
  let v' := snd (fst (releases_effect net alive owner name c v)) in
  tab v' = TabVersions /\ value (releases v') = None.
Proof.
  intros Htab Hnull Hbody. cbv zeta. unfold releases_effect.
  rewrite Htab, Hnull. simpl.
  destruct (releases_body _ _ _) as [r t]. simpl in *. subst r.
  split; [done|]. by destruct alive.
Qed.

Lemma releases_loaded_sticks d :
  tab v = TabVersions -> value (releases v) = None -> alive = true ->
  fst (releases_body net owner name) = inr d ->
  let out := releases_effect net alive owner name c v in
  tab (snd (fst out)) = TabVersions
  /\ value (releases (snd (fst out))) = Some d
  /\ releasesCache (fst (fst out)) !! cacheKey owner name = Some d.
Proof.
  intros Htab Hnull Halive Hbody. cbv zeta. unfold releases_effect.
  rewrite Htab, Hnull. simpl.
  destruct (releases_body _ _ _) as [r t]. simpl in *. subst r alive.
  simpl. split; [done|]. split; [done|]. apply lookup_insert_eq.
Qed.

(** *** Commits *)

Lemma commits_idle :
  tab v = TabChangelog -> is_Some (value (commits v)) ->
  commits_effect encodeURIComponent net alive owner name c v = (c, v, []).
Proof.
  intros Htab Hsome. unfold commits_effect. rewrite Htab. simpl.
  by rewrite bool_decide_eq_true_2.
Qed.

Lemma commits_fetches :
  tab v = TabChangelog -> value (commits v) = None ->
  exists t, snd (commits_effect encodeURIComponent net alive owner name c v)
            = (GET, commits_url encodeURIComponent owner name v) :: t.
Proof.
  intros Htab Hnull. unfold commits_effect. rewrite Htab, Hnull. simpl.
  assert (Hb : exists t, snd (commits_body encodeURIComponent net owner name v)
                         = (GET, commits_url encodeURIComponent owner name v) :: t)
    by (unfold commits_body; apply HttpFacts.bind_fetch_trace).
  destruct (commits_body _ _ _ _ _) as [r t']. simpl in *. exact Hb.
Qed.

Lemma commits_failed_stays_null e :
  tab v = TabChangelog -> value (commits v) = None ->
  fst (commits_body encodeURIComponent net owner name v) = inl e ->
  let v' := snd (fst (commits_effect encodeURIComponent net alive owner name c v)) in
  tab v' = TabChangelog /\ value (commits v') = None.
Proof.
  intros Htab Hnull Hbody. cbv zeta. unfold commits_effect.
  rewrite Htab, Hnull. simpl.
  destruct (commits_body _ _ _ _ _) as [r t]. simpl in *. subst r.
  split; [done|]. by destruct alive.
Qed.

Lemma commits_loaded_sticks d :
  tab v = TabChangelog -> value (commits v) = None -> alive = true ->
  fst (commits_body encodeURIComponent net owner name v) = inr d ->
  let out := commits_effect encodeURIComponent net alive owner name c v in
  tab (snd (fst out)) = TabChangelog
  /\ value (commits (snd (fst out))) = Some d
  /\ commitsCache (fst (fst out)) !! cacheKey owner name = Some d.
Proof.
  intros Htab Hnull Halive Hbody. cbv zeta. unfold commits_effect.
  rewrite Htab, Hnull. simpl.
  destruct (commits_body _ _ _ _ _) as [r t]. simpl in *. subst r alive.
  simpl. split; [done|]. split; [done|]. apply lookup_insert_eq.
Qed.

(** *** Gallery *)

Lemma gallery_idle :
  tab v = TabGallery -> is_Some (value (galleryContent v)) ->
  gallery_effect net alive owner name c v = (c, v, []).
Proof.
  intros Htab Hsome. unfold gallery_effect. rewrite Htab. simpl.
  by rewrite bool_decide_eq_true_2.
Qed.

Lemma gallery_fetches :
  tab v = TabGallery -> value (galleryContent v) = None ->
  exists t, snd (gallery_effect net alive owner name c v)
            = (GET, gallery_url owner name) :: t.
Proof.
  intros Htab Hnull. unfold gallery_effect. rewrite Htab, Hnull. simpl.
  assert (Hb : exists t, snd (gallery_body net owner name)
                         = (GET, gallery_url owner name) :: t)
    by (unfold gallery_body; apply HttpFacts.bind_fetch_trace).
  destruct (gallery_body _ _ _) as [r t']. simpl in *. exact Hb.
Qed.

Lemma gallery_failed_stays_null e :
  tab v = TabGallery -> value (galleryContent v) = None ->
  fst (gallery_body net owner name) = inl e ->
  let v' := snd (fst (gallery_effect net alive owner name c v)) in
  tab v' = TabGallery /\ value (galleryContent v') = None.
Proof.
  intros Htab Hnull Hbody. cbv zeta. unfold gallery_effect.
  rewrite Htab, Hnull. simpl.
  destruct (gallery_body _ _ _) as [r t]. simpl in *. subst r.
  split; [done|]. by destruct alive.
Qed.

Lemma gallery_loaded_sticks d :
  tab v = TabGallery -> value (galleryContent v) = None -> alive = true ->
  fst (gallery_body net owner name) = inr d ->
  let out := gallery_effect net alive owner name c v in
  tab (snd (fst out)) = TabGallery
  /\ value (galleryContent (snd (fst out))) = Some d
  /\ galleryCache (fst (fst out)) !! cacheKey owner name = Some d.
Proof.
  intros Htab Hnull Halive Hbody. cbv zeta. unfold gallery_effect.
  rewrite Htab, Hnull. simpl.
  destruct (gallery_body _ _ _) as [r t]. simpl in *. subst r alive.
  simpl. split; [done|]. split; [done|]. apply lookup_insert_eq.
Qed.

(** A page mounted over a filled cache starts with the cached values, the
    empty string and the empty sequences included. *)
Lemma mount_reads_caches :
  value (readme (mount c owner name)) = readmeCache c !! cacheKey owner name
  /\ value (releases (mount c owner name)) = releasesCache c !! cacheKey owner name
  /\ value (commits (mount c owner name)) = commitsCache c !! cacheKey owner name
  /\ value (galleryContent (mount c owner name)) = galleryCache c !! cacheKey owner name.
Proof. done. Qed.

End LazyFacts.

(** C9.  For each of the four lazy resources, with its tab active: when
    the value held by the page is not null (the empty string and the empty
    sequence are not null) the effect issues no request and changes nothing;
    when the value is null the effect issues its request; an attempt whose
    body ends in an exception leaves the value null and the tab active, so
    that the next activation issues the request again; an attempt that
    succeeds while the page is alive stores the value in the state and in the
    cache, so that the next activation issues nothing.  A page mounted later
    for the same key starts from the cached values. *)
Theorem lazy_fetch_runs_once
        (decodeBase64Utf8 : string -> Http.Exn + string)
        (encodeURIComponent : string -> string)
        (net : Details.Net) (alive : bool) (owner name : string)
        (c : Details.Caches) (v : Details.View) :
  (Details.tab v = Details.TabReadme ->
     (is_Some (Details.value (Details.readme v)) ->
        Details.readme_effect decodeBase64Utf8 net alive owner name c v = (c, v, []))
     /\ (Details.value (Details.readme v) = None ->
        (exists t, snd (Details.readme_effect decodeBase64Utf8 net alive owner name c v)
                   = (Http.GET, Details.readme_url owner name) :: t)
        /\ (forall e,
              fst (Details.readme_body decodeBase64Utf8 net owner name) = inl e ->
              let v' := snd (fst (Details.readme_effect decodeBase64Utf8 net alive
                                    owner name c v)) in
              Details.tab v' = Details.TabReadme
              /\ Details.value (Details.readme v') = None)
        /\ (forall md,
              alive = true ->
              fst (Details.readme_body decodeBase64Utf8 net owner name) = inr md ->
              let out := Details.readme_effect decodeBase64Utf8 net alive
                           owner name c v in
              Details.tab (snd (fst out)) = Details.TabReadme
              /\ Details.value (Details.readme (snd (fst out))) = Some md
              /\ Details.readmeCache (fst (fst out)) !! Details.cacheKey owner name
                 = Some md)))
  /\ (Details.tab v = Details.TabVersions ->
     (is_Some (Details.value (Details.releases v)) ->
        Details.releases_effect net alive owner name c v = (c, v, []))
     /\ (Details.value (Details.releases v) = None ->
        (exists t, snd (Details.releases_effect net alive owner name c v)
                   = (Http.GET, Details.releases_url owner name) :: t)
        /\ (forall e,
              fst (Details.releases_body net owner name) = inl e ->
              let v' := snd (fst (Details.releases_effect net alive owner name c v)) in
              Details.tab v' = Details.TabVersions
              /\ Details.value (Details.releases v') = None)
        /\ (forall d,
              alive = true ->
              fst (Details.releases_body net owner name) = inr d ->
              let out := Details.releases_effect net alive owner name c v in
              Details.tab (snd (fst out)) = Details.TabVersions
              /\ Details.value (Details.releases (snd (fst out))) = Some d
              /\ Details.releasesCache (fst (fst out)) !! Details.cacheKey owner name
                 = Some d)))
  /\ (Details.tab v = Details.TabChangelog ->
     (is_Some (Details.value (Details.commits v)) ->
        Details.commits_effect encodeURIComponent net alive owner name c v = (c, v, []))
     /\ (Details.value (Details.commits v) = None ->
        (exists t, snd (Details.commits_effect encodeURIComponent net alive owner name c v)
                   = (Http.GET, Details.commits_url encodeURIComponent owner name v) :: t)
        /\ (forall e,
              fst (Details.commits_body encodeURIComponent net owner name v) = inl e ->
              let v' := snd (fst (Details.commits_effect encodeURIComponent net alive
                                    owner name c v)) in
              Details.tab v' = Details.TabChangelog
              /\ Details.value (Details.commits v') = None)
        /\ (forall d,
              alive = true ->
              fst (Details.commits_body encodeURIComponent net owner name v) = inr d ->
              let out := Details.commits_effect encodeURIComponent net alive
                           owner name c v in
              Details.tab (snd (fst out)) = Details.TabChangelog
              /\ Details.value (Details.commits (snd (fst out))) = Some d
              /\ Details.commitsCache (fst (fst out)) !! Details.cacheKey owner name
                 = Some d)))
  /\ (Details.tab v = Details.TabGallery ->
     (is_Some (Details.value (Details.galleryContent v)) ->
        Details.gallery_effect net alive owner name c v = (c, v, []))
     /\ (Details.value (Details.galleryContent v) = None ->
        (exists t, snd (Details.gallery_effect net alive owner name c v)
                   = (Http.GET, Details.gallery_url owner name) :: t)
        /\ (forall e,
              fst (Details.gallery_body net owner name) = inl e ->
              let v' := snd (fst (Details.gallery_effect net alive owner name c v)) in
              Details.tab v' = Details.TabGallery
              /\ Details.value (Details.galleryContent v') = None)
        /\ (forall d,
              alive = true ->
              fst (Details.gallery_body net owner name) = inr d ->
              let out := Details.gallery_effect net alive owner name c v in
              Details.tab (snd (fst out)) = Details.TabGallery
              /\ Details.value (Details.galleryContent (snd (fst out))) = Some d
              /\ Details.galleryCache (fst (fst out)) !! Details.cacheKey owner name
                 = Some d)))
  /\ (Details.value (Details.readme (Details.mount c owner name))
        = Details.readmeCache c !! Details.cacheKey owner name
      /\ Details.value (Details.releases (Details.mount c owner name))
        = Details.releasesCache c !! Details.cacheKey owner name
      /\ Details.value (Details.commits (Details.mount c owner name))
        = Details.commitsCache c !! Details.cacheKey owner name
      /\ Details.value (Details.galleryContent (Details.mount c owner name))
        = Details.galleryCache c !! Details.cacheKey owner name).
Proof.
  split; [|split; [|split; [|split]]].
  - intros Htab. split; [by apply readme_idle|]. intros Hnull.
    split; [by apply readme_fetches|].
    split; [intros e; by apply readme_failed_stays_null|].
    intros md; by apply readme_loaded_sticks.
  - intros Htab. split; [by apply releases_idle|]. intros Hnull.
    split; [by apply releases_fetches|].
    split; [intros e; by apply releases_failed_stays_null|].
    intros d; by apply releases_loaded_sticks.
  - intros Htab. split; [by apply commits_idle|]. intros Hnull.
    split; [by apply commits_fetches|].
    split; [intros e; by apply commits_failed_stays_null|].
    intros d; by apply commits_loaded_sticks.
  - intros Htab. split; [by apply gallery_idle|]. intros Hnull.
    split; [by apply gallery_fetches|].
    split; [intros e; by apply gallery_failed_stays_null|].
    intros d; by apply gallery_loaded_sticks.
  - apply mount_reads_caches.
Qed.

(** A README answered 404 leaves the empty string, and the next activation
    of the tab is idle; a release list answered 500 leaves null, and the next
    activation of the tab asks again. *)
Lemma lazy_fetch_runs_once_witness :
  (let '(c1, v1, _) :=
     Details.readme_effect Samples.identity_decoder Samples.details_absent true
       "palm" "economy" Details.no_caches
       (Details.mount Details.no_caches "palm" "economy") in
   Details.value (Details.readme v1) = Some EmptyString
   /\ Details.readme_effect Samples.identity_decoder Samples.details_absent true
        "palm" "economy" c1 v1 = (c1, v1, []))
  /\
  (let '(c1, v1, _) :=
     Details.releases_effect Samples.details_quiet true "palm" "economy"
       Details.no_caches
       (Details.setTab Details.TabVersions
          (Details.mount Details.no_caches "palm" "economy")) in
   Details.value (Details.releases v1) = None
   /\ exists t,
        snd (Details.releases_effect Samples.details_quiet true "palm" "economy" c1 v1)
        = (Http.GET, Details.releases_url "palm" "economy") :: t).
Proof.
  split.
  - destruct (Details.readme_effect Samples.identity_decoder Samples.details_absent
                true "palm" "economy" Details.no_caches
                (Details.mount Details.no_caches "palm" "economy"))
      as [[c1 v1] t1] eqn:E.
    vm_compute in E. injection E as <- <- <-.
    split; [reflexivity|].
    match goal with
    | |- Details.readme_effect _ _ _ _ _ ?c1 ?v1 = _ =>
        destruct (lazy_fetch_runs_once Samples.identity_decoder Samples.identity_encoder
                    Samples.details_absent true "palm" "economy" c1 v1) as (H & _)
    end.
    apply H; [reflexivity | by eexists].
  - destruct (Details.releases_effect Samples.details_quiet true "palm" "economy"
                Details.no_caches
                (Details.setTab Details.TabVersions
                   (Details.mount Details.no_caches "palm" "economy")))
      as [[c1 v1] t1] eqn:E.
    vm_compute in E. injection E as <- <- <-.
    split; [reflexivity|].
    match goal with
    | |- exists t, snd (Details.releases_effect _ _ _ _ ?c1 ?v1) = _ =>
        destruct (lazy_fetch_runs_once Samples.identity_decoder Samples.identity_encoder
                    Samples.details_quiet true "palm" "economy" c1 v1) as (_ & H & _)
    end.
    apply H; reflexivity.
Defined.

(* ===================================================================== *)
(** * Further properties of the list view model *)
(* ===================================================================== *)

Section FilterComposition.
Import Js JsFacts ListSpec.

Lemma split_ws_nonempty s : split_ws s <> [].
Proof.
  induction s as [|c s IH]; simpl; [done|].
  destruct (is_ws c); [done|]. by destruct (split_ws s).
Qed.

Lemma cons_head_app c l1 l2 :
  l1 <> [] -> cons_head c (l1 ++ l2) = cons_head c l1 ++ l2.
Proof. by destruct l1. Qed.

Lemma split_ws_app_sep a sp b :
  is_ws sp = true -> split_ws (a +:+ String sp b) = split_ws a ++ split_ws b.
Proof.
  intros Hsp. induction a as [|c a IH].
  - change (EmptyString +:+ String sp b) with (String sp b). simpl. by rewrite Hsp.
  - change (String c a +:+ String sp b) with (String c (a +:+ String sp b)).
    simpl. rewrite IH. destruct (is_ws c); [done|].
    apply cons_head_app, split_ws_nonempty.
Qed.

Lemma spec_terms_app q1 q2 :
  spec_terms (q1 +:+ " " +:+ q2) = spec_terms q1 ++ spec_terms q2.
Proof.
  unfold spec_terms. rewrite toLowerCase_app.
  change (toLowerCase (" " +:+ q2)) with (String " " (toLowerCase q2)).
  rewrite split_ws_app_sep by done. apply List.map_app.
Qed.

Lemma every_term_in_app h l1 l2 :
  every_term_in h (l1 ++ l2) = every_term_in h l1 && every_term_in h l2.
Proof. apply forallb_app. Qed.

Lemma filter_filter {A} (f g : A -> bool) l :
  List.filter g (List.filter f l) = List.filter (fun x => f x && g x) l.
Proof.
  induction l as [|x l IH]; simpl; [done|].
  destruct (f x); simpl; [|exact IH]. destruct (g x); by rewrite IH.
Qed.

Lemma early_filtered_eq param plugins :
  Early.filtered (Some plugins) (Early.query_q param)
  = List.filter (fun p => every_term_in (Early.haystack p)
                            (spec_terms (default EmptyString param))) plugins.
Proof.
  unfold Early.filtered, Early.terms, Early.query_q.
  apply (filtered_generic Early.haystack split_ws_runs plugins param
           split_ws_runs_terms).
Qed.

Lemma dated_filtered_eq param plugins :
  Dated.filtered (Some plugins) (Dated.query_q param)
  = List.filter (fun p => every_term_in (Dated.haystack p)
                            (spec_terms (default EmptyString param))) plugins.
Proof.
  unfold Dated.filtered, Dated.terms, Dated.query_q.
  apply (filtered_generic Dated.haystack split_ws plugins param (fun _ => eq_refl)).
Qed.
End FilterComposition.

(** X1.  Searching for two queries one after the other is searching for
    both at once: filtering by [q1] and then filtering what is left by [q2]
    gives the list that the single query ["q1 q2"] gives, in both generations
    of the page.  Adding words to a query can therefore only narrow the
    result. *)
Theorem filtering_composes (q1 q2 : string) :
  (forall plugins : list Early.Plugin,
     Early.filtered
       (Some (Early.filtered (Some plugins) (Early.query_q (Some q1))))
       (Early.query_q (Some q2))
     = Early.filtered (Some plugins) (Early.query_q (Some (q1 +:+ " " +:+ q2))))
  /\ (forall plugins : list Dated.Plugin,
     Dated.filtered
       (Some (Dated.filtered (Some plugins) (Dated.query_q (Some q1))))
       (Dated.query_q (Some q2))
     = Dated.filtered (Some plugins) (Dated.query_q (Some (q1 +:+ " " +:+ q2)))).
Proof.
  split; intros plugins.
  - rewrite !early_filtered_eq. simpl. rewrite filter_filter.
    apply List.filter_ext. intros p.
    by rewrite spec_terms_app, every_term_in_app.
  - rewrite !dated_filtered_eq. simpl. rewrite filter_filter.
    apply List.filter_ext. intros p.
    by rewrite spec_terms_app, every_term_in_app.
Qed.

(* ===================================================================== *)
(** * The display order *)
(* ===================================================================== *)

Section SortOn.
Context {A : Type}.
Variable cmp : A -> A -> num.
Variable ok : A -> Prop.
Hypothesis total_on :
  forall x y, ok x -> ok y -> before cmp x y \/ before cmp y x.
Hypothesis trans_on :
  forall x y z, ok x -> ok y -> ok z ->
                before cmp x y -> before cmp y z -> before cmp x z.

Lemma sort_insert_sorted_on x l :
  ok x -> Forall ok l ->
  StronglySorted (before cmp) l -> StronglySorted (before cmp) (sort_insert cmp x l).
Proof.
  intros Hx Hok Hs. induction Hs as [|y l Hl IH Hy]; simpl.
  - repeat constructor.
  - apply Forall_cons in Hok as [Hoy Hok].
    destruct (SortCompare cmp x y <=? 0) eqn:Hxy.
    + apply Z.leb_le in Hxy. constructor; [by constructor|].
      constructor; [exact Hxy|].
      rewrite Forall_lookup in Hy, Hok. apply Forall_lookup. intros i z Hz.
      eapply (trans_on x y z); eauto.
    + apply Z.leb_gt in Hxy. constructor; [by apply IH|].
      eapply Permutation_Forall; [symmetry; apply sort_insert_perm|].
      constructor; [|exact Hy].
      destruct (total_on x y Hx Hoy) as [H|H]; [unfold before in H; lia | exact H].
Qed.

(** A comparator that is consistent on the elements of the array sorts
    it. *)
Lemma Array_sort_sorted_on l :
  Forall ok l -> StronglySorted (before cmp) (Array_sort cmp l).
Proof.
  induction 1 as [|x l Hx Hl IH]; simpl; [constructor|].
  apply sort_insert_sorted_on; [done| |done].
  eapply Permutation_Forall; [symmetry; apply Array_sort_perm|done].
Qed.
End SortOn.

(** Two arrangements of the same elements that are both in order are the
    same list, when no two different elements may stand before each
    other. *)
Lemma StronglySorted_unique {A} (R : A -> A -> Prop) (l1 l2 : list A) :
  (forall x y, x ∈ l1 -> y ∈ l1 -> R x y -> R y x -> x = y) ->
  StronglySorted R l1 -> StronglySorted R l2 -> Permutation l1 l2 -> l1 = l2.
Proof.
  intros Hanti Hs1. revert l2 Hanti.
  induction Hs1 as [|x l1 Hs1 IH Hx]; intros l2 Hanti Hs2 Hp.
  - by apply Permutation_nil in Hp.
  - destruct Hs2 as [|y l2 Hs2 Hy].
    + symmetry in Hp. by apply Permutation_nil in Hp.
    + assert (x = y) as <-.
      { assert (Hxin : x ∈ y :: l2) by (rewrite <- Hp; left).
        assert (Hyin : y ∈ x :: l1) by (rewrite Hp; left).
        apply elem_of_cons in Hxin as [->|Hxin]; [done|].
        apply elem_of_cons in Hyin as [->|Hyin]; [done|].
        rewrite Forall_forall in Hx, Hy.
        apply Hanti; [left | by right | by apply Hx | by apply Hy]. }
      f_equal. apply IH.
      * intros a b Ha Hb. apply Hanti; by right.
      * done.
      * by apply Permutation_cons_inv in Hp.
Qed.

Section DatedOrder.
Import ListSpec DatedSpec.
Variable localeCompare : string -> string -> Z.
Variable Date_getTime : string -> num.
Variable time : string -> Z.
Hypothesis names_total :
  forall x y, localeCompare x y <= 0 \/ localeCompare y x <= 0.
Hypothesis names_trans :
  forall x y z, localeCompare x y <= 0 -> localeCompare y z <= 0 ->
                localeCompare x z <= 0.

Lemma dated_compare_cascade sort a b :
  dates_parse Date_getTime time a -> dates_parse Date_getTime time b ->
  before (Dated.compare localeCompare Date_getTime sort) a b
  <-> cascade localeCompare time sort a b.
Proof.
  intros [Hua Hpa] [Hub Hpb].
  unfold before, SortCompare, Dated.compare, cascade, updated_cascade.
  rewrite Hua, Hub, Hpa, Hpb. cbn [Num.sub Num.nonzero].
  destruct (Z.eqb_spec (time (Dated.updated b) - time (Dated.updated a)) 0);
    destruct (Z.eqb_spec (Num.orZero (Dated.stars b) - Num.orZero (Dated.stars a)) 0);
    destruct (Z.eqb_spec (Num.orZero (Dated.downloads b)
                          - Num.orZero (Dated.downloads a)) 0);
    destruct (String.eqb sort "downloads");
    destruct (String.eqb sort "stars");
    destruct (String.eqb sort "published");
    cbn [negb default]; unfold id; lia.
Qed.

Lemma dated_cascade_total sort a b :
  cascade localeCompare time sort a b \/ cascade localeCompare time sort b a.
Proof.
  unfold cascade, updated_cascade.
  destruct (names_total (Dated.name a) (Dated.name b));
    destruct (String.eqb sort "downloads");
    destruct (String.eqb sort "stars");
    destruct (String.eqb sort "published"); lia.
Qed.

Lemma dated_cascade_trans sort a b c :
  cascade localeCompare time sort a b -> cascade localeCompare time sort b c ->
  cascade localeCompare time sort a c.
Proof.
  unfold cascade, updated_cascade.
  assert (Hn := names_trans (Dated.name a) (Dated.name b) (Dated.name c)).
  destruct (String.eqb sort "downloads");
    destruct (String.eqb sort "stars");
    destruct (String.eqb sort "published"); lia.
Qed.

Lemma dated_sorted_cascade (l : list Dated.Plugin) (sort : string) :
  Forall (dates_parse Date_getTime time) l ->
  StronglySorted (cascade localeCompare time sort)
    (Dated.sorted localeCompare Date_getTime l sort).
Proof.
  intros Hl. unfold Dated.sorted.
  assert (Hl' : Forall (dates_parse Date_getTime time)
                  (Array_sort (Dated.compare localeCompare Date_getTime sort) l)).
  { eapply Permutation_Forall; [symmetry; apply Array_sort_perm|done]. }
  assert (Hs := Array_sort_sorted_on
                  (Dated.compare localeCompare Date_getTime sort)
                  (dates_parse Date_getTime time)).
  specialize (Hs ltac:(intros x y Hx Hy; rewrite !dated_compare_cascade by done;
                       apply dated_cascade_total)).
  specialize (Hs ltac:(intros x y z Hx Hy Hz; rewrite !dated_compare_cascade by done;
                       apply dated_cascade_trans)).
  specialize (Hs l Hl). revert Hl'. induction Hs as [|x l' Hs IH Hx]; intros Hl'.
  - constructor.
  - apply Forall_cons in Hl' as [Hpx Hl']. constructor; [by apply IH|].
    rewrite Forall_forall in Hx, Hl'. apply Forall_forall. intros y Hy.
    apply dated_compare_cascade; auto.
Qed.
End DatedOrder.

Section SortIndependent.
Context {A : Type}.
Variable cmp : A -> A -> num.
Variable ok : A -> Prop.
Hypothesis total_on :
  forall x y, ok x -> ok y -> before cmp x y \/ before cmp y x.
Hypothesis trans_on :
  forall x y z, ok x -> ok y -> ok z ->
                before cmp x y -> before cmp y z -> before cmp x z.

(** When the comparator separates every two different elements, the sorted
    array does not depend on the order in which the elements came in. *)
Lemma Array_sort_input_independent l l' :
  Forall ok l ->
  (forall x y, x ∈ l -> y ∈ l -> before cmp x y -> before cmp y x -> x = y) ->
  Permutation l l' -> Array_sort cmp l = Array_sort cmp l'.
Proof.
  intros Hok Hanti Hp.
  apply (StronglySorted_unique (before cmp)).
  - intros x y Hx Hy. apply Hanti; by rewrite <- (Array_sort_perm cmp l).
  - by apply (Array_sort_sorted_on cmp ok).
  - apply (Array_sort_sorted_on cmp ok); [done..|].
    eapply Permutation_Forall; [exact Hp|done].
  - by rewrite !Array_sort_perm.
Qed.
End SortIndependent.

Lemma codeUnitCompare_total x y :
  ListSpec.codeUnitCompare x y <= 0 \/ ListSpec.codeUnitCompare y x <= 0.
Proof. rewrite !codeUnitCompare_le. apply String.leb_total. Qed.

Lemma codeUnitCompare_trans x y z :
  ListSpec.codeUnitCompare x y <= 0 -> ListSpec.codeUnitCompare y z <= 0 ->
  ListSpec.codeUnitCompare x z <= 0.
Proof.
  rewrite !codeUnitCompare_le. intros Hxy Hyz.
  apply Is_true_true. apply Is_true_true in Hxy, Hyz.
  exact (transitivity (R := String.le) Hxy Hyz).
Qed.

Lemma codeUnitCompare_antisym x y :
  ListSpec.codeUnitCompare x y <= 0 -> ListSpec.codeUnitCompare y x <= 0 -> x = y.
Proof.
  unfold ListSpec.codeUnitCompare. rewrite (String.compare_antisym y x).
  destruct (String.compare x y) eqn:E; simpl; try lia.
  intros _ _. by apply String.compare_eq_iff.
Qed.

Lemma early_filtered_sub (plugins : list Early.Plugin) q :
  forall p, p ∈ Early.filtered (Some plugins) (Early.query_q q) -> p ∈ plugins.
Proof.
  intros p. rewrite early_filtered_eq, !list_elem_of_In, List.filter_In. tauto.
Qed.

Lemma dated_filtered_sub (plugins : list Dated.Plugin) q :
  forall p, p ∈ Dated.filtered (Some plugins) (Dated.query_q q) -> p ∈ plugins.
Proof.
  intros p. rewrite dated_filtered_eq, !list_elem_of_In, List.filter_In. tauto.
Qed.



(** X3.  What the date-sorting page shows, when the dates of the loaded
    plugins parse, is a rearrangement of the plugins that match the query in
    which every card precedes all later ones in the cascade of the key:
    downloads, update time, stars, name under [downloads]; stars, update
    time, name under [stars]; update time, stars, name under [updated] and
    every unknown key; and the publication time alone under [published]. *)
Theorem dated_page_order
        (localeCompare : string -> string -> Z) (Date_getTime : string -> num)
        (time : string -> Z)
        (names_total :
           forall x y, localeCompare x y <= 0 \/ localeCompare y x <= 0)
        (names_trans :
           forall x y z, localeCompare x y <= 0 -> localeCompare y z <= 0 ->
                         localeCompare x z <= 0)
        (plugins : list Dated.Plugin) (q : option string) (sort : string) :
  Forall (DatedSpec.dates_parse Date_getTime time) plugins ->
  let matches := Dated.filtered (Some plugins) (Dated.query_q q) in
  let shown := Dated.sorted localeCompare Date_getTime matches sort in
  Permutation shown matches
  /\ StronglySorted (DatedSpec.cascade localeCompare time sort) shown.
Proof.
  intros Hparse matches shown. subst shown. split.
  - apply Array_sort_perm.
  - apply dated_sorted_cascade; [done..|].
    rewrite Forall_forall in Hparse. apply Forall_forall. intros p Hp.
    by apply Hparse, (dated_filtered_sub plugins q).
Qed.

Lemma sample_dates_parse :
  Forall (DatedSpec.dates_parse DatedSpec.sample_getTime DatedSpec.sample_time)
    [Samples.zeta; Samples.alpha].
Proof. repeat constructor. Qed.

Lemma dated_page_order_witness :
  let matches :=
    Dated.filtered (Some [Samples.zeta; Samples.alpha]) (Dated.query_q None) in
  let shown :=
    Dated.sorted ListSpec.codeUnitCompare DatedSpec.sample_getTime matches "stars" in
  Permutation shown matches
  /\ StronglySorted
       (DatedSpec.cascade ListSpec.codeUnitCompare DatedSpec.sample_time "stars") shown.
Proof.
  apply (dated_page_order ListSpec.codeUnitCompare DatedSpec.sample_getTime
           DatedSpec.sample_time codeUnitCompare_total codeUnitCompare_trans
           [Samples.zeta; Samples.alpha] None "stars").
  repeat constructor.
Defined.

(** X4.  On the first-generation page the order of the cards does not
    depend on the order in which the loader delivered the plugins, provided
    no two different plugins of the list bear names that the comparison
    treats as equal: every rearrangement of the input is shown in the same
    order, under every sort key. *)
Theorem early_order_ignores_input_order
        (localeCompare : string -> string -> Z)
        (names_total :
           forall x y, localeCompare x y <= 0 \/ localeCompare y x <= 0)
        (names_trans :
           forall x y z, localeCompare x y <= 0 -> localeCompare y z <= 0 ->
                         localeCompare x z <= 0)
        (l l' : list Early.Plugin) (sort : string) :
  (forall a b, a ∈ l -> b ∈ l ->
               localeCompare (Early.name a) (Early.name b) <= 0 ->
               localeCompare (Early.name b) (Early.name a) <= 0 -> a = b) ->
  Permutation l l' ->
  Early.sorted localeCompare l sort = Early.sorted localeCompare l' sort.
Proof.
  intros Hnames Hp. unfold Early.sorted.
  destruct (String.eqb sort "downloads").
  - apply (Array_sort_input_independent _ (fun _ => True)); [| | |  |done].
    + intros x y _ _. rewrite !by_downloads_cascade.
      by apply downloads_cascade_total.
    + intros x y z _ _ _. rewrite !by_downloads_cascade.
      by apply downloads_cascade_trans.
    + by apply Forall_forall.
    + intros x y Hx Hy. rewrite !by_downloads_cascade.
      unfold ListSpec.downloads_cascade. intros H1 H2.
      apply Hnames; [done|done|lia|lia].
  - apply (Array_sort_input_independent _ (fun _ => True)); [| | |  |done].
    + intros x y _ _. rewrite !by_stars_cascade.
      by apply stars_cascade_total.
    + intros x y z _ _ _. rewrite !by_stars_cascade.
      by apply stars_cascade_trans.
    + by apply Forall_forall.
    + intros x y Hx Hy. rewrite !by_stars_cascade.
      unfold ListSpec.stars_cascade. intros H1 H2.
      apply Hnames; [done|done|lia|lia].
Qed.

Lemma early_order_ignores_input_order_witness :
  Early.sorted ListSpec.codeUnitCompare [Samples.pluginA; Samples.pluginB] "stars"
  = Early.sorted ListSpec.codeUnitCompare [Samples.pluginB; Samples.pluginA] "stars".
Proof.
  apply (early_order_ignores_input_order ListSpec.codeUnitCompare
           codeUnitCompare_total codeUnitCompare_trans).
  - intros a b Ha Hb H1 H2.
    apply list_elem_of_In in Ha, Hb. simpl in Ha, Hb.
    destruct Ha as [<-|[<-|[]]]; destruct Hb as [<-|[<-|[]]];
      try reflexivity; vm_compute in H1, H2; congruence.
  - apply perm_swap.
Defined.

(** X5.  On the date-sorting page, under every key but [published], the
    order of the cards does not depend on the order in which the loader
    delivered the plugins, provided their dates parse and no two different
    plugins of the list bear names that the comparison treats as equal. *)
Theorem dated_order_ignores_input_order
        (localeCompare : string -> string -> Z) (Date_getTime : string -> num)
        (time : string -> Z)
        (names_total :
           forall x y, localeCompare x y <= 0 \/ localeCompare y x <= 0)
        (names_trans :
           forall x y z, localeCompare x y <= 0 -> localeCompare y z <= 0 ->
                         localeCompare x z <= 0)
        (l l' : list Dated.Plugin) (sort : string) :
  sort <> "published"%string ->
  Forall (DatedSpec.dates_parse Date_getTime time) l ->
  (forall a b, a ∈ l -> b ∈ l ->
               localeCompare (Dated.name a) (Dated.name b) <= 0 ->
               localeCompare (Dated.name b) (Dated.name a) <= 0 -> a = b) ->
  Permutation l l' ->
  Dated.sorted localeCompare Date_getTime l sort
  = Dated.sorted localeCompare Date_getTime l' sort.
Proof.
  intros Hsort Hparse Hnames Hp. unfold Dated.sorted.
  apply (Array_sort_input_independent _ (DatedSpec.dates_parse Date_getTime time));
    [| |done| |done].
  - intros x y Hx Hy. rewrite !(dated_compare_cascade _ _ time) by done.
    by apply dated_cascade_total.
  - intros x y z Hx Hy Hz. rewrite !(dated_compare_cascade _ _ time) by done.
    by apply dated_cascade_trans.
  - intros x y Hx Hy.
    rewrite Forall_forall in Hparse.
    rewrite !(dated_compare_cascade _ _ time) by auto.
    unfold DatedSpec.cascade, ListSpec.updated_cascade.
    apply String.eqb_neq in Hsort. rewrite Hsort.
    intros H1 H2. apply Hnames; [done|done| |];
      destruct (String.eqb sort "downloads"); destruct (String.eqb sort "stars"); lia.
Qed.

Lemma dated_order_ignores_input_order_witness :
  Dated.sorted ListSpec.codeUnitCompare DatedSpec.sample_getTime
    [Samples.zeta; Samples.alpha] "updated"
  = Dated.sorted ListSpec.codeUnitCompare DatedSpec.sample_getTime
      [Samples.alpha; Samples.zeta] "updated".
Proof.
  apply (dated_order_ignores_input_order ListSpec.codeUnitCompare
           DatedSpec.sample_getTime DatedSpec.sample_time
           codeUnitCompare_total codeUnitCompare_trans).
  - discriminate.
  - repeat constructor.
  - intros a b Ha Hb H1 H2.
    apply list_elem_of_In in Ha, Hb. simpl in Ha, Hb.
    destruct Ha as [<-|[<-|[]]]; destruct Hb as [<-|[<-|[]]];
      try reflexivity; vm_compute in H1, H2; congruence.
  - apply perm_swap.
Defined.

(* ===================================================================== *)
(** * The list page: what is shown when loading goes wrong *)
(* ===================================================================== *)

Section PageFacts.
Context {P : Type}.
Variable filtered : option (list P) -> string -> list P.
Variable sorted : list P -> string -> list P.

Lemma render_load_failure r st q sort d :
  ListPage.render filtered sorted (ListPage.load true r st) q sort = ListPage.Failure d ->
  exists e, r = inl e
    /\ d = (let m := default "Failed to load plugins."%string (Http.message_of e) in
            if Js.truthy m then "(" +:+ m +:+ ")" else "Please try again later.")%string.
Proof.
  destruct r as [e|data]; unfold ListPage.render, ListPage.load; simpl.
  - intros H. exists e. split; [done|].
    destruct (Js.truthy _); simpl in H; congruence.
  - done.
Qed.

Lemma render_load_null st q sort :
  filtered (Some []) q = [] -> sorted [] sort = [] ->
  ListPage.render filtered sorted (ListPage.load true (inr None) st) q sort
  = ListPage.Grid (if Js.truthy q then Some (0%nat, q) else None) [] true.
Proof.
  intros Hf Hs. unfold ListPage.render, ListPage.load. simpl.
  by rewrite Hf, Hs.
Qed.
End PageFacts.

Lemma early_filtered_nil q : Early.filtered (Some []) q = [].
Proof.
  unfold Early.filtered. destruct (negb (Js.truthy q)); [done|].
  by destruct (length (Early.terms q) =? 0)%nat.
Qed.

Lemma dated_filtered_nil q : Dated.filtered (Some []) q = [].
Proof.
  unfold Dated.filtered. destruct (negb (Js.truthy q)); [done|].
  by destruct (length (Dated.terms q) =? 0)%nat.
Qed.

(** X6.  The first-generation page over the direct loader shows its
    failure line only when the loader threw, and then with the message of
    the exception in brackets (or the request to try again later when that
    message is empty).  A GitHub search that is answered with a refusal, a
    rate limit for one, is not such a case: the loader returns null, and
    the page shows an empty grid under the notice that no plugin matches the
    search, with a count of zero results when a query is present. *)
Theorem early_page_failure_line
        (localeCompare : string -> string -> Z)
        (net : Direct.Net) (now : Z) (cache : Direct.State)
        (q sort : option string) :
  (forall d,
     ListPage.early localeCompare net now cache q sort = ListPage.Failure d ->
     exists e,
       fst (fst (Direct.fetchPlugins net now cache)) = inl e
       /\ d = (let m := default "Failed to load plugins."%string (Http.message_of e) in
               if Js.truthy m then "(" +:+ m +:+ ")"
               else "Please try again later.")%string)
  /\ (Direct.cache_valid now cache = false ->
      forall sr,
        Direct.search net Direct.ENDPOINT = Http.Resolved sr ->
        Http.ok sr = false ->
        ListPage.early localeCompare net now cache q sort
        = ListPage.Grid
            (if Js.truthy (Early.query_q q) then Some (0%nat, Early.query_q q) else None)
            [] true).
Proof.
  split.
  - intros d H. by apply render_load_failure in H.
  - intros Hmiss sr Hs Hok. unfold ListPage.early.
    rewrite (direct_refused net now cache Hmiss sr Hs Hok). simpl fst.
    apply render_load_null; [apply early_filtered_nil|].
    unfold Early.sorted. by destruct (String.eqb _ _).
Qed.

Lemma early_page_failure_line_witness :
  ListPage.early ListSpec.codeUnitCompare Samples.net_down 0 Direct.initial
    (Some "shop"%string) None
  = ListPage.Grid (Some (0%nat, "shop"%string)) [] true.
Proof.
  exact (proj2 (early_page_failure_line ListSpec.codeUnitCompare Samples.net_down 0
                  Direct.initial (Some "shop"%string) None)
           eq_refl _ eq_refl eq_refl).
Defined.

(** X7.  The date-sorting page over the backend loader never shows its
    failure line and never stays on the waiting screen once the load has
    settled: the loader catches every failure and returns null.  When the
    backend cannot be reached, refuses, or sends a body that does not parse,
    the page shows an empty grid under the notice that no plugin matches the
    search. *)
Theorem dated_page_never_reports_failure
        (localeCompare : string -> string -> Z) (Date_getTime : string -> num)
        (net : Aggregate.Net) (now : Z) (cache : Aggregate.State)
        (q sort : option string) :
  (exists info cards no_match,
     ListPage.dated localeCompare Date_getTime net now cache q sort
     = ListPage.Grid info cards no_match)
  /\ (Aggregate.cache_valid now cache = false ->
      match Aggregate.plugins net Aggregate.PLUGINS_ENDPOINT with
      | Http.Rejected _ => True
      | Http.Resolved r => Http.ok r = false \/ Http.json r = None
      end ->
      ListPage.dated localeCompare Date_getTime net now cache q sort
      = ListPage.Grid
          (if Js.truthy (Dated.query_q q) then Some (0%nat, Dated.query_q q) else None)
          [] true).
Proof.
  split.
  - unfold ListPage.dated, ListPage.render, ListPage.load. simpl.
    eauto.
  - intros Hmiss Hno. unfold ListPage.dated.
    assert (fst (fst (Aggregate.fetchPlugins net now cache)) = None) as ->.
    { unfold Aggregate.fetchPlugins. rewrite Hmiss.
      unfold mbind, M_bind, mret, M_ret, Http.bind, Http.ret, Http.fetch, Http.parse.
      destruct (Aggregate.plugins net Aggregate.PLUGINS_ENDPOINT) as [e|r]; [done|].
      destruct (Http.ok r) eqn:Hok; simpl; [|done].
      destruct Hno as [?|Hj]; [congruence|]. by rewrite Hj. }
    apply render_load_null; [apply dated_filtered_nil|done].
Qed.

Lemma dated_page_never_reports_failure_witness :
  ListPage.dated ListSpec.codeUnitCompare DatedSpec.sample_getTime
    (Aggregate.mkNet (fun _ => Http.Rejected (Http.TypeError "Failed to fetch"))
                     (fun _ => Samples.notFound))
    0 Aggregate.initial (Some "shop"%string) None
  = ListPage.Grid (Some (0%nat, "shop"%string)) [] true.
Proof.
  exact (proj2 (dated_page_never_reports_failure ListSpec.codeUnitCompare
                  DatedSpec.sample_getTime
                  (Aggregate.mkNet
                     (fun _ => Http.Rejected (Http.TypeError "Failed to fetch"))
                     (fun _ => Samples.notFound))
                  0 Aggregate.initial (Some "shop"%string) None)
           eq_refl I).
Defined.

(* ===================================================================== *)
(** * The caches of the loaders over time *)
(* ===================================================================== *)

Section DirectCache.
Import Http.

Lemma find_app_Some {A} (f : A -> bool) l k x :
  List.find f l = Some x -> List.find f (l ++ k) = Some x.
Proof.
  induction l as [|y l IH]; simpl; [done|]. by destruct (f y).
Qed.

Lemma merge_prefix cache ps : cache `prefix_of` Direct.merge cache ps.
Proof.
  unfold Direct.merge. revert cache.
  induction ps as [|p ps IH]; intros cache; simpl; [done|].
  etrans; [|apply IH]. destruct (Direct.cache_find _ _); [done|].
  by apply prefix_app_r.
Qed.

Lemma direct_fetch_prefix net now st :
  Direct.CACHE st `prefix_of` Direct.CACHE (snd (fst (Direct.fetchPlugins net now st))).
Proof.
  unfold Direct.fetchPlugins.
  destruct (Direct.cache_valid now st); [done|].
  match goal with
  | |- context [match ?run with _ => _ end] => destruct run as [[e|[ps|]] t]
  end; simpl; try done.
  apply merge_prefix.
Qed.

Lemma session_prefix calls st :
  Direct.CACHE st `prefix_of` Direct.CACHE (Sessions.direct calls st).
Proof.
  unfold Sessions.direct. revert st.
  induction calls as [|[net now] calls IH]; intros st; simpl; [done|].
  etrans; [apply (direct_fetch_prefix net now)|apply IH].
Qed.

Lemma session_unique calls st :
  NoDup (List.map Early.id (Direct.CACHE st)) ->
  NoDup (List.map Early.id (Direct.CACHE (Sessions.direct calls st))).
Proof.
  unfold Sessions.direct. revert st.
  induction calls as [|[net now] calls IH]; intros st Hnd; simpl; [done|].
  by apply IH, direct_fetch_unique.
Qed.

Lemma merge_fresh ps :
  NoDup (List.map Early.id ps) -> Direct.merge [] ps = ps.
Proof.
  intros Hnd. unfold Direct.merge.
  assert (H : forall cache,
             NoDup (List.map Early.id (cache ++ ps)) ->
             fold_left
               (fun cache plugin =>
                  match Direct.cache_find cache (Early.id plugin) with
                  | Some _ => cache
                  | None => cache ++ [plugin]
                  end) ps cache = cache ++ ps).
  { clear Hnd. induction ps as [|p ps IH]; intros cache Hnd; simpl.
    - by rewrite app_nil_r.
    - destruct (Direct.cache_find cache (Early.id p)) as [hit|] eqn:Hf.
      + exfalso. apply find_some in Hf as [Hin Hid]. apply Z.eqb_eq in Hid.
        rewrite List.map_app in Hnd. apply NoDup_app in Hnd as (_ & Hdis & _).
        apply (Hdis (Early.id p)).
        * rewrite <- Hid. apply list_elem_of_In, in_map, Hin.
        * simpl. left.
      + rewrite IH; [by rewrite <- app_assoc|].
        by rewrite <- app_assoc. }
  apply (H []). done.
Qed.
End DirectCache.

(** X8.  The direct loader only ever appends to its cache.  Over any series
    of calls, at any times and against any remote worlds, the cache at the
    start is an initial segment of the cache at the end, and an identifier
    that was served by an entry is still served by that same entry: a cached
    plugin is never refreshed and never dropped. *)
Theorem direct_cache_is_append_only
        (calls : list (Direct.Net * Z)) (st : Direct.State) :
  Direct.CACHE st `prefix_of` Direct.CACHE (Sessions.direct calls st)
  /\ forall i p,
       Direct.cache_find (Direct.CACHE st) i = Some p ->
       Direct.cache_find (Direct.CACHE (Sessions.direct calls st)) i = Some p.
Proof.
  pose proof (session_prefix calls st) as Hpre. split; [done|].
  intros i p Hf. destruct Hpre as [k ->]. by apply find_app_Some.
Qed.

(** X9.  Starting from the empty cache, after any series of calls of the
    direct loader no two cached plugins share an identifier, whatever the
    remote side answered, repeated search results included. *)
Theorem direct_cache_ids_stay_unique (calls : list (Direct.Net * Z)) :
  NoDup (List.map Early.id (Direct.CACHE (Sessions.direct calls Direct.initial))).
Proof. apply session_unique. simpl. constructor. Qed.

(** X10.  A first successful load into the empty cache that found at
    least one plugin, all with different identifiers, is repeated by every
    call made less than five minutes later: the same list comes back, the
    bindings stay as they are and no request is issued, whatever the remote
    side would answer by then. *)
Theorem direct_reload_within_window_repeats
        (net net' : Direct.Net) (now now' : Z) (st st' : Direct.State)
        (ps : list Direct.Plugin) (t : list Http.Request) :
  Direct.CACHE st = [] ->
  Direct.fetchPlugins net now st = (inr (Some ps), st', t) ->
  ps <> [] ->
  NoDup (List.map Early.id ps) ->
  now' - now < CACHE_DURATION ->
  Direct.fetchPlugins net' now' st' = (inr (Some ps), st', []).
Proof.
  intros Hempty Hload Hne Hnd Hwin.
  assert (Hmiss : Direct.cache_valid now st = false).
  { unfold Direct.cache_valid. rewrite Hempty. simpl. apply andb_false_r. }
  unfold Direct.fetchPlugins in Hload. rewrite Hmiss in Hload.
  match type of Hload with
  | context [match ?run with _ => _ end] => destruct run as [[e|[ps'|]] t']
  end; simpl in Hload; try done.
  injection Hload as -> <- <-. rewrite Hempty, merge_fresh by done.
  apply direct_hit. apply direct_valid_iff. simpl. split; [lia|done].
Qed.

Lemma direct_reload_within_window_repeats_witness :
  Direct.fetchPlugins Samples.net_down 1060000
    (snd (fst (Direct.fetchPlugins Samples.net_two 1000000 Direct.initial)))
  = (inr (Some (default [] (match fst (fst (Direct.fetchPlugins Samples.net_two
                                               1000000 Direct.initial)) with
                            | inr r => r | inl _ => None end))),
     snd (fst (Direct.fetchPlugins Samples.net_two 1000000 Direct.initial)), []).
Proof.
  apply (direct_reload_within_window_repeats Samples.net_two Samples.net_down
           1000000 1060000 Direct.initial _ _
           (snd (Direct.fetchPlugins Samples.net_two 1000000 Direct.initial))).
  - reflexivity.
  - reflexivity.
  - discriminate.
  - vm_compute. apply NoDup_cons_2; [|apply NoDup_singleton].
    intros H%list_elem_of_singleton. discriminate H.
  - reflexivity.
Defined.

Section DirectRequests.
Import Http.

(** The three requests the loop may issue about one repository, in the
    order in which it issues them. *)
Lemma candidate_trace net repo :
  snd (Direct.candidate net repo)
  `prefix_of` [(GET, Direct.manifest_url repo); (GET, Direct.releases_url repo);
               (HEAD, Direct.logo_url repo)].
Proof.
  unfold Direct.candidate.
  unfold mbind, M_bind, mret, M_ret, bind, ret, throw, fetch, parse.
  destruct (Direct.manifest net _) as [e|r]; simpl; [by eexists|].
  destruct (ok r); simpl; [|by eexists].
  destruct (json r) as [pkg|]; simpl; [|by eexists].
  destruct (Direct.releases net _) as [e|r']; simpl; [by eexists|].
  destruct (ok r'); simpl; [|by eexists].
  destruct (json r') as [[|first rest]|]; simpl; try by eexists.
  destruct (Direct.probe net _) as [e|lr]; simpl; by eexists.
Qed.

Lemma candidates_trace net its i n acc :
  let t := snd (Direct.candidates net its i n acc) in
  (length t <= 3 * n)%nat
  /\ Forall (fun rq => exists repo, repo ∈ its
               /\ rq ∈ [(GET, Direct.manifest_url repo);
                        (GET, Direct.releases_url repo);
                        (HEAD, Direct.logo_url repo)]) t.
Proof.
  revert i acc. induction n as [|n IH]; intros i acc; simpl.
  - split; [lia|constructor].
  - destruct (its !! i) as [repo|] eqn:Hi; simpl; [|split; [lia|constructor]].
    pose proof (candidate_trace net repo) as Hpre.
    assert (Hlen : (length (snd (Direct.candidate net repo)) <= 3)%nat).
    { apply prefix_length in Hpre. simpl in Hpre. lia. }
    assert (Hall : Forall (fun rq => exists repo, repo ∈ its
               /\ rq ∈ [(GET, Direct.manifest_url repo);
                        (GET, Direct.releases_url repo);
                        (HEAD, Direct.logo_url repo)])
              (snd (Direct.candidate net repo))).
    { apply Forall_forall. intros rq Hrq. exists repo. split.
      - by eapply list_elem_of_lookup_2.
      - destruct Hpre as [k Hk]. rewrite Hk. apply elem_of_app. by left. }
    unfold mbind, M_bind, bind.
    destruct (Direct.candidate net repo) as [[e|op] t1]; simpl in *.
    + split; [lia|done].
    + specialize (IH (S i) (acc ++ option_list op)).
      destruct (Direct.candidates net its (S i) n (acc ++ option_list op))
        as [r t2]; simpl in *.
      destruct IH as [IHlen IHall]. split.
      * rewrite length_app. lia.
      * by apply Forall_app.
Qed.
End DirectRequests.

(** X11.  One call of the direct loader issues no request when it is
    served from the cache, and otherwise the search first and then, one
    repository after the other, at most three requests about each
    repository that the search returned: the manifest, the release list and
    the logo probe.  In all it issues at most one request plus three per
    announced result. *)
Theorem direct_request_budget (net : Direct.Net) (now : Z) (st : Direct.State) :
  let t := snd (Direct.fetchPlugins net now st) in
  (length t <= 1 + 3 * Sessions.announced net)%nat
  /\ (if Direct.cache_valid now st then t = []
      else exists t',
        t = (Http.GET, Direct.ENDPOINT) :: t'
        /\ Forall (fun rq =>
             exists sr result repo,
               Direct.search net Direct.ENDPOINT = Http.Resolved sr
               /\ Http.json sr = Some result
               /\ repo ∈ Direct.items result
               /\ rq ∈ [(Http.GET, Direct.manifest_url repo);
                        (Http.GET, Direct.releases_url repo);
                        (Http.HEAD, Direct.logo_url repo)]) t').
Proof.
  unfold Direct.fetchPlugins, Sessions.announced.
  destruct (Direct.cache_valid now st); simpl; [split; [lia|done]|].
  unfold mbind, M_bind, mret, M_ret, Http.bind, Http.ret, Http.throw,
    Http.fetch, Http.parse.
  destruct (Direct.search net Direct.ENDPOINT) as [e|sr] eqn:Hs; simpl.
  { split; [lia|]. eexists. split; [done|constructor]. }
  destruct (Http.ok sr); simpl.
  2:{ split; [lia|]. eexists. split; [done|constructor]. }
  destruct (Http.json sr) as [result|] eqn:Hj; simpl.
  2:{ split; [lia|]. eexists. split; [done|constructor]. }
  pose proof (candidates_trace net (Direct.items result) 0
                (Z.to_nat (Direct.total_count result)) []) as [Hlen Hall].
  destruct (Direct.candidates net (Direct.items result) 0
              (Z.to_nat (Direct.total_count result)) []) as [[e|ps] t];
    simpl in *.
  - split; [lia|]. eexists. split; [done|].
    eapply Forall_impl; [exact Hall|]. intros rq (repo & Hin & Hrq).
    exists sr, result, repo. by rewrite ?Hs.
  - rewrite app_nil_r. split; [lia|]. eexists. split; [done|].
    eapply Forall_impl; [exact Hall|]. intros rq (repo & Hin & Hrq).
    exists sr, result, repo. by rewrite ?Hs.
Qed.

(** X12.  The direct loader restarts its five-minute window before it
    knows whether the refresh succeeds.  When a refresh over a cache that
    holds plugins fails, by a refusal of the search or by an exception, every
    call of the following five minutes is answered with the old list and
    issues no request. *)
Theorem direct_failed_refresh_serves_stale
        (net net' : Direct.Net) (now now' : Z) (st : Direct.State) :
  Direct.cache_valid now st = false ->
  Direct.CACHE st <> [] ->
  (forall ps, fst (fst (Direct.fetchPlugins net now st)) <> inr (Some ps)) ->
  now' - now < CACHE_DURATION ->
  let st' := snd (fst (Direct.fetchPlugins net now st)) in
  Direct.fetchPlugins net' now' st' = (inr (Some (Direct.CACHE st)), st', []).
Proof.
  intros Hmiss Hne Hfail Hwin st'.
  assert (Hst : st' = {| Direct.CACHE := Direct.CACHE st; Direct.lastFetch := now |}).
  { subst st'. revert Hfail. unfold Direct.fetchPlugins. rewrite Hmiss.
    match goal with
    | |- context [match ?run with _ => _ end] => destruct run as [[e|[ps|]] t]
    end; simpl; try done.
    intros H. by destruct (H ps). }
  rewrite Hst. rewrite direct_hit; [done|].
  apply direct_valid_iff. simpl. split; [lia|done].
Qed.

Lemma direct_failed_refresh_serves_stale_witness :
  Direct.fetchPlugins Samples.net_two 1700000400000
    (snd (fst (Direct.fetchPlugins Samples.net_down 1700000399000 Samples.direct_warm)))
  = (inr (Some [Samples.economy_plugin]),
     snd (fst (Direct.fetchPlugins Samples.net_down 1700000399000 Samples.direct_warm)),
     []).
Proof.
  apply (direct_failed_refresh_serves_stale Samples.net_down Samples.net_two
           1700000399000 1700000400000 Samples.direct_warm).
  - reflexivity.
  - discriminate.
  - intros ps. vm_compute. discriminate.
  - reflexivity.
Defined.

Section AggregateOverTime.
Import Http.

Lemma aggregate_miss_later now now' st :
  Aggregate.cache_valid now st = false -> now <= now' ->
  Aggregate.cache_valid now' st = false.
Proof.
  unfold Aggregate.cache_valid. intros H Hle.
  apply andb_false_iff in H as [H|H]; apply andb_false_iff; [left|by right].
  apply Z.ltb_ge in H. apply Z.ltb_ge. lia.
Qed.

Lemma fetchPlugin_lastFetch net now i st :
  Aggregate.lastFetch (snd (fst (Aggregate.fetchPlugin net now i st)))
  = Aggregate.lastFetch st.
Proof.
  unfold Aggregate.fetchPlugin.
  destruct (if Aggregate.cache_valid now st then _ else _); [done|].
  destruct (Aggregate.catch_null _) as [[p|] t]; done.
Qed.

Lemma fetchPlugin_outside_window net now i st :
  CACHE_DURATION <= now - Aggregate.lastFetch st ->
  snd (Aggregate.fetchPlugin net now i st) = [(GET, Aggregate.details_url i)].
Proof.
  intros Hout. unfold Aggregate.fetchPlugin, Aggregate.cache_valid.
  apply Z.ltb_ge in Hout. rewrite Hout. simpl.
  unfold mbind, M_bind, mret, M_ret, bind, ret, fetch, parse, Aggregate.catch_null.
  destruct (Aggregate.details net (Aggregate.details_url i)) as [e|r]; [done|].
  simpl. destruct (ok r); simpl; [|done].
  by destruct (json r).
Qed.
End AggregateOverTime.

(** X13.  After a failed load of the backend loader the next call,
    whenever it comes, goes to the backend again.  When the backend could
    not be reached, refused, or sent text that is not JSON, the bindings are
    left as they were, the window not restarted.  When it sent a JSON value
    that is not iterable, the window has been restarted and the cache
    emptied before the spread threw: the list cached before is lost, and
    the empty cache makes the next call a miss all the same. *)
Theorem aggregate_failed_load_is_retried
        (net net' : Aggregate.Net) (now now' : Z) (st : Aggregate.State) :
  Aggregate.cache_valid now st = false ->
  fst (fst (Aggregate.fetchPlugins net now st)) = None ->
  now <= now' ->
  let st' := snd (fst (Aggregate.fetchPlugins net now st)) in
  st' = match Aggregate.plugins net Aggregate.PLUGINS_ENDPOINT with
        | Http.Resolved r =>
            match Http.ok r, Http.json r with
            | true, Some Aggregate.NotIterable =>
                {| Aggregate.CACHE := []; Aggregate.lastFetch := now;
                   Aggregate.next_addr := Aggregate.next_addr st |}
            | _, _ => st
            end
        | Http.Rejected _ => st
        end
  /\ exists r st'' t,
       Aggregate.fetchPlugins net' now' st'
       = (r, st'', (Http.GET, Aggregate.PLUGINS_ENDPOINT) :: t).
Proof.
  intros Hmiss Hnone Hle st'.
  assert (Hst : st' = match Aggregate.plugins net Aggregate.PLUGINS_ENDPOINT with
        | Http.Resolved r =>
            match Http.ok r, Http.json r with
            | true, Some Aggregate.NotIterable =>
                {| Aggregate.CACHE := []; Aggregate.lastFetch := now;
                   Aggregate.next_addr := Aggregate.next_addr st |}
            | _, _ => st
            end
        | Http.Rejected _ => st
        end).
  { subst st'. revert Hnone. unfold Aggregate.fetchPlugins. rewrite Hmiss.
    unfold mbind, M_bind, mret, M_ret, Http.bind, Http.ret, Http.fetch, Http.parse,
      Http.throw, Aggregate.catch_null.
    destruct (Aggregate.plugins net Aggregate.PLUGINS_ENDPOINT) as [e|r]; [done|].
    simpl. destruct (Http.ok r); simpl; [|done].
    by destruct (Http.json r) as [[ps|]|]. }
  split; [exact Hst|]. apply aggregate_miss. rewrite Hst.
  destruct (Aggregate.plugins net Aggregate.PLUGINS_ENDPOINT) as [e|r];
    [by eapply aggregate_miss_later|].
  destruct (Http.ok r); [|by eapply aggregate_miss_later].
  destruct (Http.json r) as [[ps|]|]; try by eapply aggregate_miss_later.
  unfold Aggregate.cache_valid. simpl. apply andb_false_r.
Qed.

Lemma aggregate_failed_load_is_retried_witness :
  let broken :=
    Aggregate.mkNet (fun _ => Samples.ok200 Aggregate.NotIterable)
                    (fun _ => Samples.notFound) in
  let st' :=
    snd (fst (Aggregate.fetchPlugins broken 1700000400000 Samples.aggregate_warm)) in
  st' = {| Aggregate.CACHE := []; Aggregate.lastFetch := 1700000400000;
           Aggregate.next_addr := 1 |}
  /\ exists r st'' t,
       Aggregate.fetchPlugins (Samples.backend_of [Samples.zeta] Samples.zeta)
         1700000400001 st'
       = (r, st'', (Http.GET, Aggregate.PLUGINS_ENDPOINT) :: t).
Proof.
  apply (aggregate_failed_load_is_retried
           (Aggregate.mkNet (fun _ => Samples.ok200 Aggregate.NotIterable)
                            (fun _ => Samples.notFound))
           (Samples.backend_of [Samples.zeta] Samples.zeta)
           1700000400000 1700000400001 Samples.aggregate_warm).
  - reflexivity.
  - reflexivity.
  - lia.
Defined.

(** X14.  A detail load never restarts the window of the backend loader,
    and outside that window it never consults the cache.  So when the list
    was not loaded within the five minutes before, every detail load of a
    series issues its own request, one per call and in the order of the
    calls, however often the same plugin is asked for and whatever the cache
    holds. *)
Theorem detail_loads_outside_window_always_fetch
        (calls : list (Aggregate.Net * Z * Z)) (st : Aggregate.State) :
  Forall (fun call => CACHE_DURATION <= snd (fst call) - Aggregate.lastFetch st) calls ->
  snd (DetailSessions.details calls st)
  = List.map (fun call => (Http.GET, Aggregate.details_url (snd call))) calls
  /\ Aggregate.lastFetch (fst (DetailSessions.details calls st))
     = Aggregate.lastFetch st.
Proof.
  unfold DetailSessions.details.
  assert (H : forall t0,
    Forall (fun call => CACHE_DURATION <= snd (fst call) - Aggregate.lastFetch st) calls ->
    let r := fold_left
      (fun acc call =>
         let '(net, now, i) := call in
         let '(_, st', t) := Aggregate.fetchPlugin net now i (fst acc) in
         (st', snd acc ++ t)) calls (st, t0) in
    snd r = t0 ++ List.map (fun call => (Http.GET, Aggregate.details_url (snd call))) calls
    /\ Aggregate.lastFetch (fst r) = Aggregate.lastFetch st).
  { revert st. induction calls as [|[[net now] i] calls IH]; intros st t0 Hall; simpl.
    - by rewrite app_nil_r.
    - apply Forall_cons in Hall as [Hhd Hall]. simpl in Hhd.
      pose proof (fetchPlugin_outside_window net now i st Hhd) as Ht.
      pose proof (fetchPlugin_lastFetch net now i st) as Hl.
      destruct (Aggregate.fetchPlugin net now i st) as [[r st'] t]. simpl in *.
      subst t. rewrite <- Hl.
      destruct (IH st' (t0 ++ [(Http.GET, Aggregate.details_url i)])) as [IH1 IH2].
      { by rewrite Hl. }
      split; [|done]. rewrite IH1. by rewrite <- app_assoc. }
  intros Hall. apply (H [] Hall).
Qed.

Lemma detail_loads_outside_window_always_fetch_witness :
  snd (DetailSessions.details
         [(Samples.backend_of [] Samples.zeta, 1700000000000, 1);
          (Samples.backend_of [] Samples.zeta, 1700000001000, 1)]
         Aggregate.initial)
  = [(Http.GET, Aggregate.details_url 1); (Http.GET, Aggregate.details_url 1)]
  /\ Aggregate.lastFetch
       (fst (DetailSessions.details
               [(Samples.backend_of [] Samples.zeta, 1700000000000, 1);
                (Samples.backend_of [] Samples.zeta, 1700000001000, 1)]
               Aggregate.initial)) = 0.
Proof.
  apply (detail_loads_outside_window_always_fetch
           [(Samples.backend_of [] Samples.zeta, 1700000000000, 1);
            (Samples.backend_of [] Samples.zeta, 1700000001000, 1)]
           Aggregate.initial).
  repeat constructor; vm_compute; discriminate.
Defined.

(* ===================================================================== *)
(** * The detail page: further properties of the effects *)
(* ===================================================================== *)

Section Unmounted.
Import Details.
Variable decodeBase64Utf8 : string -> Http.Exn + string.
Variable encodeURIComponent : string -> string.
Variable net : Net.
Variables owner name : string.
Variable c : Caches.
Variable v : View.

Ltac gone :=
  destruct c; cbv zeta; simpl;
  repeat match goal with
         | |- context [if ?b then _ else _] => destruct b; simpl
         | |- context [let '(_, _) := ?m in _] => destruct m as [[?|?] ?]; simpl
         | |- context [match ?m with Some _ => _ | None => _ end] => destruct m; simpl
         end;
  repeat split; reflexivity.

Lemma repo_effect_gone :
  let out := repo_effect net false owner name c v in
  fst (fst out) = c /\ value (repo (snd (fst out))) = value (repo v).
Proof. unfold repo_effect. gone. Qed.

Lemma readme_effect_gone :
  let out := readme_effect decodeBase64Utf8 net false owner name c v in
  fst (fst out) = c /\ value (readme (snd (fst out))) = value (readme v).
Proof. unfold readme_effect. gone. Qed.

Lemma releases_effect_gone :
  let out := releases_effect net false owner name c v in
  fst (fst out) = c /\ value (releases (snd (fst out))) = value (releases v).
Proof. unfold releases_effect. gone. Qed.

Lemma commits_effect_gone :
  let out := commits_effect encodeURIComponent net false owner name c v in
  fst (fst out) = c /\ value (commits (snd (fst out))) = value (commits v).
Proof. unfold commits_effect. gone. Qed.

Lemma gallery_effect_gone :
  let out := gallery_effect net false owner name c v in
  fst (fst out) = c
  /\ value (galleryContent (snd (fst out))) = value (galleryContent v).
Proof. unfold gallery_effect. gone. Qed.

Lemma latest_effect_gone :
  let out := latest_effect net false owner name c v in
  fst (fst out) = c
  /\ value (latestRelease (snd (fst out)))
     = match latestReleaseCache c !! cacheKey owner name with
       | Some cached => cached
       | None => value (latestRelease v)
       end.
Proof.
  unfold latest_effect.
  destruct (latestReleaseCache c !! cacheKey owner name); [done|].
  destruct (latest_body net owner name) as [[?|?] ?]; destruct c; done.
Qed.

Lemma contributors_effect_gone :
  let out := contributors_effect net false owner name c v in
  fst (fst out) = c
  /\ value (contributors (snd (fst out)))
     = match contributorsCache c !! cacheKey owner name with
       | Some cached => Some cached
       | None => value (contributors v)
       end.
Proof.
  unfold contributors_effect.
  destruct (contributorsCache c !! cacheKey owner name); [done|].
  destruct (contributors_body net owner name) as [[?|?] ?]; destruct c; done.
Qed.
End Unmounted.

(** X15.  An effect of the detail page whose page went away before its
    answer arrived stores nothing: each of the seven effects leaves every
    cache as it was, and the value it is responsible for stays what the
    state, or for the two side cards the cache, held before the request. *)
Theorem unmounted_effects_store_nothing
        (decodeBase64Utf8 : string -> Http.Exn + string)
        (encodeURIComponent : string -> string)
        (net : Details.Net) (owner name : string)
        (c : Details.Caches) (v : Details.View) :
  let k := Details.cacheKey owner name in
  let repo' := Details.repo_effect net false owner name c v in
  let readme' := Details.readme_effect decodeBase64Utf8 net false owner name c v in
  let releases' := Details.releases_effect net false owner name c v in
  let commits' := Details.commits_effect encodeURIComponent net false owner name c v in
  let gallery' := Details.gallery_effect net false owner name c v in
  let latest' := Details.latest_effect net false owner name c v in
  let contributors' := Details.contributors_effect net false owner name c v in
  (fst (fst repo') = c /\ fst (fst readme') = c /\ fst (fst releases') = c
   /\ fst (fst commits') = c /\ fst (fst gallery') = c /\ fst (fst latest') = c
   /\ fst (fst contributors') = c)
  /\ Details.value (Details.repo (snd (fst repo'))) = Details.value (Details.repo v)
  /\ Details.value (Details.readme (snd (fst readme')))
     = Details.value (Details.readme v)
  /\ Details.value (Details.releases (snd (fst releases')))
     = Details.value (Details.releases v)
  /\ Details.value (Details.commits (snd (fst commits')))
     = Details.value (Details.commits v)
  /\ Details.value (Details.galleryContent (snd (fst gallery')))
     = Details.value (Details.galleryContent v)
  /\ Details.value (Details.latestRelease (snd (fst latest')))
     = match Details.latestReleaseCache c !! k with
       | Some cached => cached
       | None => Details.value (Details.latestRelease v)
       end
  /\ Details.value (Details.contributors (snd (fst contributors')))
     = match Details.contributorsCache c !! k with
       | Some cached => Some cached
       | None => Details.value (Details.contributors v)
       end.
Proof.
  cbv zeta.
  destruct (repo_effect_gone net owner name c v) as [-> ->].
  destruct (readme_effect_gone decodeBase64Utf8 net owner name c v) as [-> ->].
  destruct (releases_effect_gone net owner name c v) as [-> ->].
  destruct (commits_effect_gone encodeURIComponent net owner name c v) as [-> ->].
  destruct (gallery_effect_gone net owner name c v) as [-> ->].
  destruct (latest_effect_gone net owner name c v) as [-> ->].
  destruct (contributors_effect_gone net owner name c v) as [-> ->].
  repeat split; reflexivity.
Qed.

Section Sidebar.
Import Http Details.
Variable net : Net.
Variables owner name : string.
Variable c : Caches.
Variable v : View.

Lemma latest_effect_first r t :
  latestReleaseCache c !! cacheKey owner name = None ->
  latest_body net owner name = (r, t) ->
  latest_effect net true owner name c v
  = ({| repoCache := repoCache c; readmeCache := readmeCache c;
        releasesCache := releasesCache c; commitsCache := commitsCache c;
        contributorsCache := contributorsCache c;
        latestReleaseCache :=
          remember true (cacheKey owner name) r (fun d => d) (latestReleaseCache c);
        galleryCache := galleryCache c |},
     {| tab := tab v; repo := repo v; readme := readme v;
        releases := releases v; commits := commits v;
        galleryContent := galleryContent v; contributors := contributors v;
        latestRelease := settle true "Failed to load latest release." r
                           (begin (latestRelease v)) |},
     t).
Proof. intros Hc Hb. unfold latest_effect. by rewrite Hc, Hb. Qed.

Lemma contributors_effect_first r t :
  contributorsCache c !! cacheKey owner name = None ->
  contributors_body net owner name = (r, t) ->
  contributors_effect net true owner name c v
  = ({| repoCache := repoCache c; readmeCache := readmeCache c;
        releasesCache := releasesCache c; commitsCache := commitsCache c;
        contributorsCache :=
          remember true (cacheKey owner name) r (fun d => d) (contributorsCache c);
        latestReleaseCache := latestReleaseCache c;
        galleryCache := galleryCache c |},
     {| tab := tab v; repo := repo v; readme := readme v;
        releases := releases v; commits := commits v;
        galleryContent := galleryContent v;
        contributors := settle true "Failed to load contributors." (stored r)
                          (begin (contributors v));
        latestRelease := latestRelease v |},
     t).
Proof. intros Hc Hb. unfold contributors_effect. by rewrite Hc, Hb. Qed.

Lemma latest_body_first_request :
  exists t, snd (latest_body net owner name) = (GET, latest_url owner name) :: t.
Proof.
  unfold latest_body.
  match goal with
  | |- context [fetch ?m ?u ?o ≫= ?f] =>
      destruct (HttpFacts.bind_fetch_trace m u o f) as [t Ht]
  end.
  eauto.
Qed.
End Sidebar.

(** X16.  The side card of the latest release is loaded once per plugin.
    After a load that succeeded, every later run of the effect, on the same
    page or on one mounted afterwards, takes the answer from the cache and
    issues no request, also when the answer was that there is no release.
    A load that failed caches nothing, so the next run asks again. *)
Theorem latest_release_is_loaded_once
        (net net' : Details.Net) (alive' : bool) (owner name : string)
        (c : Details.Caches) (v v' : Details.View) :
  Details.latestReleaseCache c !! Details.cacheKey owner name = None ->
  let first := Details.latest_effect net true owner name c v in
  let again := Details.latest_effect net' alive' owner name (fst (fst first)) v' in
  match fst (Details.latest_body net owner name) with
  | inr r =>
      snd again = []
      /\ fst (fst again) = fst (fst first)
      /\ Details.latestRelease (snd (fst again))
         = {| Details.value := r; Details.loading := false;
              Details.error := Details.error (Details.latestRelease v') |}
  | inl _ =>
      fst (fst first) = c
      /\ exists t, snd again
                   = (Http.GET, Details.latest_url owner name) :: t
  end.
Proof.
  intros Hc first again. subst first again.
  destruct (Details.latest_body net owner name) as [r t] eqn:Hb.
  rewrite (latest_effect_first net owner name c v r t Hc Hb). simpl fst.
  destruct r as [e|r]; simpl.
  - split; [by destruct c|].
    unfold Details.latest_effect at 1. simpl. rewrite Hc.
    destruct (latest_body_first_request net' owner name) as [t' Ht'].
    destruct (Details.latest_body net' owner name) as [r' t'']. simpl in *.
    subst t''. eauto.
  - unfold Details.latest_effect. simpl. rewrite lookup_insert_eq. done.
Qed.

Lemma latest_release_is_loaded_once_witness :
  let first :=
    Details.latest_effect Samples.details_absent true "palm" "economy"
      Details.no_caches (Details.mount Details.no_caches "palm" "economy") in
  let again :=
    Details.latest_effect Samples.details_quiet true "palm" "economy"
      (fst (fst first)) (Details.mount (fst (fst first)) "palm" "economy") in
  match fst (Details.latest_body Samples.details_absent "palm" "economy") with
  | inr r =>
      snd again = []
      /\ fst (fst again) = fst (fst first)
      /\ Details.latestRelease (snd (fst again))
         = {| Details.value := r; Details.loading := false;
              Details.error :=
                Details.error
                  (Details.latestRelease
                     (Details.mount (fst (fst first)) "palm" "economy")) |}
  | inl _ =>
      fst (fst first) = Details.no_caches
      /\ exists t, snd again
                   = (Http.GET, Details.latest_url "palm" "economy") :: t
  end.
Proof.
  apply (latest_release_is_loaded_once Samples.details_absent Samples.details_quiet
           true "palm" "economy" Details.no_caches).
  reflexivity.
Defined.

(** X17.  A repository without README is told apart on the first visit
    only.  The first load, answered 404, shows the notice that no README was
    found and caches the empty text.  A page mounted afterwards starts from
    that cached text with its loading flag set, and since a cached text is
    never fetched again, no run of the README effect, on whichever tab, with
    whichever answers ready, changes anything or issues a request: the
    panel stays on the spinner. *)
Theorem revisit_after_missing_readme_spins
        (decodeBase64Utf8 : string -> Http.Exn + string)
        (net net' : Details.Net) (alive' : bool) (owner name : string)
        (c : Details.Caches) (res : Http.Response Details.ReadmeJson)
        (t : Details.Tab) :
  Details.readmeCache c !! Details.cacheKey owner name = None ->
  Details.readme_file net (Details.readme_url owner name) = Http.Resolved res ->
  Http.status res = 404 ->
  let first :=
    Details.readme_effect decodeBase64Utf8 net true owner name c
      (Details.mount c owner name) in
  let c' := fst (fst first) in
  let v' := Details.setTab t (Details.mount c' owner name) in
  Details.readme_panel (Details.readme (snd (fst first)))
  = [Details.Empty "No README found for this repository."%string]
  /\ Details.readme_panel (Details.readme v') = [Details.Spinner]
  /\ Details.readme_effect decodeBase64Utf8 net' alive' owner name c' v' = (c', v', []).
Proof.
  intros Hc Hnet H404 first c' v'.
  assert (Hnull : Details.value (Details.readme (Details.mount c owner name)) = None).
  { unfold Details.mount. simpl. by rewrite Hc. }
  destruct (readme_404 decodeBase64Utf8 net owner name c (Details.mount c owner name)
              res eq_refl Hnull Hnet H404) as (_ & Hslot & Hcache).
  fold first in Hslot, Hcache. fold c' in Hcache.
  assert (Hc' : Details.readmeCache c' !! Details.cacheKey owner name
                = Some EmptyString).
  { rewrite Hcache. apply lookup_insert_eq. }
  split; [by rewrite Hslot|].
  split.
  - subst v'. unfold Details.setTab, Details.mount, Details.readme_panel,
      Details.has_error. simpl. by rewrite Hc'.
  - subst v'. unfold Details.readme_effect, Details.setTab, Details.mount. simpl.
    rewrite Hc'. simpl. by destruct (negb (Details.tab_eqb t Details.TabReadme)).
Qed.

Lemma revisit_after_missing_readme_spins_witness :
  let first :=
    Details.readme_effect Samples.identity_decoder Samples.details_absent true
      "palm" "economy" Details.no_caches
      (Details.mount Details.no_caches "palm" "economy") in
  let c' := fst (fst first) in
  let v' := Details.setTab Details.TabReadme (Details.mount c' "palm" "economy") in
  Details.readme_panel (Details.readme (snd (fst first)))
  = [Details.Empty "No README found for this repository."%string]
  /\ Details.readme_panel (Details.readme v') = [Details.Spinner]
  /\ Details.readme_effect Samples.identity_decoder Samples.details_quiet true
       "palm" "economy" c' v' = (c', v', []).
Proof.
  apply (revisit_after_missing_readme_spins Samples.identity_decoder
           Samples.details_absent Samples.details_quiet true "palm" "economy"
           Details.no_caches _ Details.TabReadme eq_refl eq_refl eq_refl).
Defined.

(** X18.  What the side card of the latest release shows once its first
    load on a fresh page has finished is one block and one only: the release
    when there is one, the notice "No releases yet." when the repository has
    none that is not a draft, and the alert with the message when the load
    failed.  A failure is therefore not reported as "No releases yet.",
    unless the message of the exception is empty. *)
Theorem latest_card_after_load
        (net : Details.Net) (owner name : string) (c : Details.Caches) :
  Details.latestReleaseCache c !! Details.cacheKey owner name = None ->
  Details.latest_panel
    (Details.latestRelease
       (snd (fst (Details.latest_effect net true owner name c
                    (Details.mount c owner name)))))
  = match fst (Details.latest_body net owner name) with
    | inr (Some r) => [Details.Shown r]
    | inr None => [Details.Empty "No releases yet."%string]
    | inl e =>
        let m := default "Failed to load latest release."%string (Http.message_of e) in
        if Js.truthy m then [Details.Alert m]
        else [Details.Empty "No releases yet."%string]
    end.
Proof.
  intros Hc.
  destruct (Details.latest_body net owner name) as [r t] eqn:Hb.
  rewrite (latest_effect_first net owner name c _ r t Hc Hb). simpl.
  unfold Details.mount. simpl. rewrite Hc. simpl.
  destruct r as [e|[r|]]; try reflexivity.
  unfold Details.latest_panel, Details.has_error. simpl.
  by destruct (Js.truthy (default _ (Http.message_of e))).
Qed.

Lemma latest_card_after_load_witness :
  Details.latest_panel
    (Details.latestRelease
       (snd (fst (Details.latest_effect Samples.details_quiet true "palm" "economy"
                    Details.no_caches
                    (Details.mount Details.no_caches "palm" "economy")))))
  = match fst (Details.latest_body Samples.details_quiet "palm" "economy") with
    | inr (Some r) => [Details.Shown r]
    | inr None => [Details.Empty "No releases yet."%string]
    | inl e =>
        let m := default "Failed to load latest release."%string (Http.message_of e) in
        if Js.truthy m then [Details.Alert m]
        else [Details.Empty "No releases yet."%string]
    end.
Proof.
  apply (latest_card_after_load Samples.details_quiet "palm" "economy"
           Details.no_caches eq_refl).
Defined.

(** X19.  When the README answer is JSON without base64 content but with
    a download address, the page shows whatever text the request to that
    address returns: the status of that second answer is never looked at, so
    the body of an error page is shown, and cached, as the README.  Two
    requests are issued, the second to the address the first answer named. *)
Theorem readme_download_status_is_not_checked
        (decodeBase64Utf8 : string -> Http.Exn + string)
        (net : Details.Net) (owner name : string) (c : Details.Caches)
        (res : Http.Response Details.ReadmeJson) (j : Details.ReadmeJson)
        (u : string) (raw : Http.Response unit) :
  Details.readmeCache c !! Details.cacheKey owner name = None ->
  Details.readme_file net (Details.readme_url owner name) = Http.Resolved res ->
  Http.ok res = true ->
  Js.includes (default EmptyString (Http.contentType res)) "application/json" = true ->
  Http.json res = Some j ->
  from_option Js.truthy false (Details.content j)
  && bool_decide (Details.encoding j = Some "base64"%string) = false ->
  Details.download_url j = Some u -> Js.truthy u = true ->
  Details.raw_file net u = Http.Resolved raw ->
  Js.truthy (Http.text raw) = true ->
  let out :=
    Details.readme_effect decodeBase64Utf8 net true owner name c
      (Details.mount c owner name) in
  snd out = [(Http.GET, Details.readme_url owner name); (Http.GET, u)]
  /\ Details.readme_panel (Details.readme (snd (fst out)))
     = [Details.Shown (Http.text raw)]
  /\ Details.readmeCache (fst (fst out)) !! Details.cacheKey owner name
     = Some (Http.text raw).
Proof.
  intros Hc Hnet Hok Hct Hj Hcontent Hurl Hu Hraw Htext out. subst out.
  assert (H404 : (Http.status res =? 404) = false).
  { apply Z.eqb_neq. intros H. apply status_404_not_ok in H. congruence. }
  unfold Details.readme_effect, Details.readme_body, Details.mount. simpl.
  rewrite Hc. simpl.
  unfold mbind, M_bind, mret, M_ret, Http.bind, Http.ret, Http.fetch, Http.parse,
    Http.throw.
  rewrite Hnet. cbn [fst snd]. rewrite H404, Hok. cbn [negb]. rewrite Hct, Hj.
  cbn -[Js.truthy from_option]. rewrite Hcontent, Hurl. cbn -[Js.truthy]. rewrite Hu, Hraw. cbn -[Js.truthy].
  split; [done|]. split.
  - rewrite Htext. rewrite bool_decide_false; [done|].
    intros [= H]. rewrite H in Htext. done.
  - apply lookup_insert_eq.
Qed.

Lemma readme_download_status_is_not_checked_witness :
  let net :=
    Details.mkNet (fun _ => Samples.notFound)
      (fun _ => Samples.ok200 (Details.mkReadmeJson None None
                                 (Some "https://raw.example/README.md"%string)))
      (fun _ => Http.Resolved
                  (Http.mkResponse 404 "Not Found" (Some "text/plain"%string) None
                     "404: Not Found"))
      (fun _ => Samples.notFound) (fun _ => Samples.notFound)
      (fun _ => Samples.notFound) (fun _ => Samples.notFound)
      (fun _ => Samples.notFound) in
  let out :=
    Details.readme_effect Samples.identity_decoder net true "palm" "economy"
      Details.no_caches (Details.mount Details.no_caches "palm" "economy") in
  snd out = [(Http.GET, Details.readme_url "palm" "economy");
             (Http.GET, "https://raw.example/README.md"%string)]
  /\ Details.readme_panel (Details.readme (snd (fst out)))
     = [Details.Shown "404: Not Found"%string]
  /\ Details.readmeCache (fst (fst out)) !! Details.cacheKey "palm" "economy"
     = Some "404: Not Found"%string.
Proof.
  intros net.
  apply (readme_download_status_is_not_checked Samples.identity_decoder net
           "palm" "economy" Details.no_caches _ _ _
           (Http.mkResponse 404 "Not Found" (Some "text/plain"%string) None
              "404: Not Found")
           eq_refl eq_refl eq_refl eq_refl eq_refl eq_refl eq_refl eq_refl eq_refl
           eq_refl).
Defined.

(* ===================================================================== *)
(** * Dates that do not parse *)
(* ===================================================================== *)

Lemma Array_sort_no_verdict {A} (cmp : A -> A -> num) (l : list A) :
  (forall x y, x ∈ l -> y ∈ l -> cmp x y = None) -> Array_sort cmp l = l.
Proof.
  induction l as [|x l IH]; intros H; simpl; [done|].
  rewrite IH.
  - destruct l as [|y l]; simpl; [done|].
    unfold SortCompare. rewrite H; [done|left|right; left].
  - intros a b Ha Hb. apply H; by right.
Qed.

(** X20.  On the date-sorting page, under [updated] and under every key
    the comparator does not know, the difference of two update times that
    do not parse is not a number, and the comparator returns it as it is:
    when no update date of the list parses, the cards are shown in the order
    in which the loader delivered them, whatever their stars and names. *)
Theorem unparsed_update_dates_keep_input_order
        (localeCompare : string -> string -> Z) (Date_getTime : string -> num)
        (l : list Dated.Plugin) (sort : string) :
  sort <> "downloads"%string -> sort <> "stars"%string -> sort <> "published"%string ->
  Forall (fun p => Date_getTime (Dated.updated p) = None) l ->
  Dated.sorted localeCompare Date_getTime l sort = l.
Proof.
  intros Hd Hs Hp Hall. unfold Dated.sorted.
  apply Array_sort_no_verdict. intros x y Hx Hy.
  rewrite Forall_forall in Hall.
  unfold Dated.compare.
  apply String.eqb_neq in Hd, Hs, Hp. rewrite Hd, Hs, Hp.
  by rewrite (Hall x Hx), (Hall y Hy).
Qed.

Lemma unparsed_update_dates_keep_input_order_witness :
  Dated.sorted ListSpec.codeUnitCompare DatedSpec.sample_getTime
    [Samples.datedB; Samples.datedA] "updated"
  = [Samples.datedB; Samples.datedA].
Proof.
  apply (unparsed_update_dates_keep_input_order ListSpec.codeUnitCompare
           DatedSpec.sample_getTime [Samples.datedB; Samples.datedA] "updated").
  - discriminate.
  - discriminate.
  - discriminate.
  - repeat constructor.
Defined.

(* ===================================================================== *)
(** * Links of the README *)
(* ===================================================================== *)

Section LinkFacts.
Import Js Links.

Lemma rawBase_has_scheme owner name branch rest :
  has_scheme (rawBase owner name branch +:+ rest) = true.
Proof. reflexivity. Qed.

Lemma rawBase_truthy owner name branch rest :
  truthy (rawBase owner name branch +:+ rest) = true.
Proof. reflexivity. Qed.

Lemma strip_lead_plain rest :
  startsWith rest "/" = false -> startsWith rest "./" = false ->
  strip_lead rest = rest.
Proof.
  destruct rest as [|a rest]; [done|].
  destruct (ascii_dec a "/") as [->|Ha].
  { intros H.
    assert (startsWith (String "/" rest) "/" = true)
      by (apply JsFacts.startsWith_spec; by exists rest).
    congruence. }
  destruct (ascii_dec a ".") as [->|Hb].
  - destruct rest as [|b rest]; [done|].
    destruct (ascii_dec b "/") as [->|Hc].
    { intros _ H.
      assert (startsWith (String "." (String "/" rest)) "./" = true)
        by (apply JsFacts.startsWith_spec; by exists rest).
      congruence. }
    intros _ _.
    unfold strip_lead.
    destruct b as [[] [] [] [] [] [] [] []]; try reflexivity. by destruct Hc.
  - intros _ _. unfold strip_lead.
    destruct a as [[] [] [] [] [] [] [] []]; try reflexivity;
      (by destruct Ha) || (by destruct Hb).
Qed.
End LinkFacts.

(** X21.  Resolving the address of a link or image of the README is
    stable: an address that has been resolved resolves to itself, so nothing
    is prefixed twice.  A relative address gives the same result whether it
    is written [./x], [/x] or [x], namely [x] under the raw-content root of
    the repository and branch. *)
Theorem resolveUrl_is_stable (owner name branch : string) (url : option string) :
  let base := Links.rawBase owner name branch in
  Links.resolveUrl base (Some (Links.resolveUrl base url)) = Links.resolveUrl base url
  /\ forall rest,
       Js.truthy rest = true ->
       Js.startsWith rest "/" = false -> Js.startsWith rest "./" = false ->
       Links.has_scheme rest = false -> Js.startsWith rest "#" = false ->
       Links.resolveUrl base (Some ("./" +:+ rest)) = base +:+ "/" +:+ rest
       /\ Links.resolveUrl base (Some ("/" +:+ rest)) = base +:+ "/" +:+ rest
       /\ Links.resolveUrl base (Some rest) = base +:+ "/" +:+ rest.
Proof.
  intros base. split.
  - destruct url as [u|]; [|reflexivity]. unfold Links.resolveUrl.
    destruct (Js.truthy u) eqn:Hu; cbn [negb]; [|reflexivity].
    destruct (Links.has_scheme u || Js.startsWith u "#") eqn:Hs.
    + by rewrite Hu, Hs.
    + subst base. by rewrite rawBase_truthy, rawBase_has_scheme.
  - intros rest Ht Hslash Hdot Hscheme Hhash.
    assert (Hfirst : Js.startsWith ("/" +:+ rest) "//" = false).
    { change ("/" +:+ rest) with (String "/" rest). simpl.
      destruct rest; [done|]. simpl in *. by rewrite Hslash. }
    split; [|split].
    + reflexivity.
    + unfold Links.resolveUrl, Links.has_scheme.
      change (Js.truthy ("/" +:+ rest)) with true. rewrite Hfirst. reflexivity.
    + unfold Links.resolveUrl. rewrite Ht, Hscheme, Hhash. simpl.
      by rewrite strip_lead_plain.
Qed.

Lemma resolveUrl_is_stable_witness :
  let base := Links.rawBase "palm" "economy" "main" in
  Links.resolveUrl base (Some "./docs/shop.png") = base +:+ "/" +:+ "docs/shop.png"
  /\ Links.resolveUrl base (Some "/docs/shop.png") = base +:+ "/" +:+ "docs/shop.png"
  /\ Links.resolveUrl base (Some "docs/shop.png") = base +:+ "/" +:+ "docs/shop.png".
Proof.
  exact (proj2 (resolveUrl_is_stable "palm" "economy" "main" None) "docs/shop.png"
           eq_refl eq_refl eq_refl eq_refl eq_refl).
Defined.

(* ===================================================================== *)
(** * Reporting a plugin *)
(* ===================================================================== *)

(** X22.  Submitting the report dialog ends with exactly one alert.  The
    report is posted, once, only when a reason is selected; the dialog is
    closed and its fields are cleared only when that post was answered with
    a success status; after a missing reason, a refusal or a network
    failure the dialog stays open with what the user entered. *)
Theorem report_dialog_outcomes
        (owner name now : string) (answer : Http.Outcome unit) (f : Report.Form) :
  let out := Report.handleReport owner name now answer f in
  let accepted :=
    Js.truthy (Report.reportCategory f)
    && match answer with Http.Resolved r => Http.ok r | Http.Rejected _ => false end in
  length (Report.alerts (snd out)) = 1%nat
  /\ Report.posts (snd out)
     = (if Js.truthy (Report.reportCategory f)
        then [(Report.webhookUrl,
               Report.embedPayload owner name (Report.reportCategory f)
                 (Report.reportDescription f) now)]
        else [])
  /\ fst out
     = (if accepted
        then {| Report.isInReporting := false; Report.reportCategory := EmptyString;
                Report.reportDescription := EmptyString |}
        else f).
Proof.
  unfold Report.handleReport, Report.submitPluginReport.
  destruct (Js.truthy (Report.reportCategory f)); simpl; [|done].
  destruct answer as [e|r]; simpl; [done|].
  by destruct (Http.ok r).
Qed.

(* ===================================================================== *)
(** * More on queries *)
(* ===================================================================== *)

Section QueryFacts.
Import Js JsFacts ListSpec.

Lemma every_term_in_swap h q1 q2 :
  every_term_in h (spec_terms (q1 +:+ " " +:+ q2))
  = every_term_in h (spec_terms (q2 +:+ " " +:+ q1)).
Proof. rewrite !spec_terms_app, !every_term_in_app. apply andb_comm. Qed.

Lemma blank_lower q : QuerySpec.blank q = true -> QuerySpec.blank (toLowerCase q) = true.
Proof.
  induction q as [|c q IH]; simpl; [done|].
  intros [Hc Hq]%andb_true_iff. by rewrite is_ws_lower, Hc, IH.
Qed.

Lemma blank_split q :
  QuerySpec.blank q = true -> Forall (fun t => t = EmptyString) (split_ws q).
Proof.
  induction q as [|c q IH]; simpl; [by repeat constructor|].
  intros [Hc Hq]%andb_true_iff. rewrite Hc. constructor; [done|by apply IH].
Qed.

Lemma blank_terms h q :
  QuerySpec.blank q = true -> every_term_in h (spec_terms q) = true.
Proof.
  intros Hq. unfold every_term_in, spec_terms.
  apply forallb_forall. intros t Ht.
  apply in_map_iff in Ht as (s & <- & Hs).
  pose proof (blank_split _ (blank_lower _ Hq)) as Hall.
  rewrite Forall_forall in Hall.
  rewrite (Hall s) by by apply list_elem_of_In.
  apply includes_empty.
Qed.

End QueryFacts.

(** X23.  The order of the words of a query does not matter: in both
    generations of the page the query ["a b"] and the query ["b a"] select
    the same plugins in the same order. *)
Theorem query_word_order_is_immaterial (q1 q2 : string) :
  (forall plugins : list Early.Plugin,
     Early.filtered (Some plugins) (Early.query_q (Some (q1 +:+ " " +:+ q2)))
     = Early.filtered (Some plugins) (Early.query_q (Some (q2 +:+ " " +:+ q1))))
  /\ (forall plugins : list Dated.Plugin,
     Dated.filtered (Some plugins) (Dated.query_q (Some (q1 +:+ " " +:+ q2)))
     = Dated.filtered (Some plugins) (Dated.query_q (Some (q2 +:+ " " +:+ q1)))).
Proof.
  split; intros plugins.
  - rewrite !early_filtered_eq. apply List.filter_ext. intros p.
    apply every_term_in_swap.
  - rewrite !dated_filtered_eq. apply List.filter_ext. intros p.
    apply every_term_in_swap.
Qed.

(** X24.  A query that is absent or consists of whitespace only filters
    nothing: both generations of the page show the whole collection, in the
    order of the loader before sorting. *)
Theorem blank_query_keeps_everything (q : string) :
  QuerySpec.blank q = true ->
  (forall plugins : list Early.Plugin,
     Early.filtered (Some plugins) (Early.query_q (Some q)) = plugins
     /\ Early.filtered (Some plugins) (Early.query_q None) = plugins)
  /\ (forall plugins : list Dated.Plugin,
     Dated.filtered (Some plugins) (Dated.query_q (Some q)) = plugins
     /\ Dated.filtered (Some plugins) (Dated.query_q None) = plugins).
Proof.
  intros Hq. split; intros plugins; split; try reflexivity.
  - rewrite early_filtered_eq. apply JsFacts.filter_all. intros p. by apply blank_terms.
  - rewrite dated_filtered_eq. apply JsFacts.filter_all. intros p. by apply blank_terms.
Qed.

Lemma blank_query_keeps_everything_witness :
  Early.filtered (Some [Samples.pluginA; Samples.pluginB])
    (Early.query_q (Some "   "%string))
  = [Samples.pluginA; Samples.pluginB].
Proof.
  exact (proj1 (proj1 (blank_query_keeps_everything "   " eq_refl)
                  [Samples.pluginA; Samples.pluginB])).
Defined.



(* ===================================================================== *)
(** * The age shown on a card *)
(* ===================================================================== *)

(** X26.  For a date that parses, the age on a card reads "n unit ago"
    where n whole units fit into the elapsed seconds and one more does not.
    A unit is used for the spans that are strictly longer than the unit and
    not longer than the next one: minutes, hours, days and months are shown
    with a count of at least one and at most 60, 24, 30 and 12, years with a
    count of at least one, seconds up to 60, and as they are when the date
    lies in the future.  A span of exactly one unit is therefore still told
    in the next smaller unit: the longest span of a unit reads as its largest
    count, one hour reads "60 minutes ago". *)
Theorem card_age_counts_whole_units
        (Date_getTime : string -> num) (now t : Z) (dateString : string) :
  Js.truthy dateString = true ->
  Date_getTime dateString = Some t ->
  let seconds := (now - t) / 1000 in
  let shown := Cards.formatRelativeTime Date_getTime now dateString in
  (exists (n len : Z) (unit : string),
     shown = Js.num_to_string n +:+ " " +:+ unit +:+ " ago"
     /\ len * n <= seconds < len * (n + 1)
     /\ ((unit = "seconds"%string /\ len = 1 /\ seconds <= 60)
         \/ (exists most upto,
               (unit, len, most, upto) ∈ Cards.units
               /\ len < seconds <= upto /\ 1 <= n <= most)
         \/ (unit = "years"%string /\ len = 31536000 /\ len < seconds /\ 1 <= n)))
  /\ (forall unit len most upto,
        (unit, len, most, upto) ∈ Cards.units -> seconds = upto ->
        shown = Js.num_to_string most +:+ " " +:+ unit +:+ " ago")
  /\ (seconds = 3600 -> shown = "60 minutes ago"%string)
  /\ (seconds = 60 -> shown = "60 seconds ago"%string).
Proof.
  intros Htruthy Ht seconds shown. subst shown. unfold Cards.formatRelativeTime.
  rewrite Htruthy, Ht. cbn [negb]. fold seconds.
  assert (Hboundary : forall unit len most upto,
            (unit, len, most, upto) ∈ Cards.units -> seconds = upto ->
            (if seconds >? 31536000
             then Js.num_to_string (seconds / 31536000) +:+ " years ago"
             else if seconds >? 2592000
             then Js.num_to_string (seconds / 2592000) +:+ " months ago"
             else if seconds >? 86400
             then Js.num_to_string (seconds / 86400) +:+ " days ago"
             else if seconds >? 3600
             then Js.num_to_string (seconds / 3600) +:+ " hours ago"
             else if seconds >? 60
             then Js.num_to_string (seconds / 60) +:+ " minutes ago"
             else Js.num_to_string seconds +:+ " seconds ago")
            = Js.num_to_string most +:+ " " +:+ unit +:+ " ago").
  { intros unit len most upto Hin Hs. rewrite Hs.
    apply list_elem_of_In in Hin. simpl in Hin.
    destruct Hin as [[= <- <- <- <-]|[[= <- <- <- <-]|[[= <- <- <- <-]
                    |[[= <- <- <- <-]|[]]]]]; reflexivity. }
  split; [|split; [exact Hboundary|split]].
  2:{ intros Hs. rewrite Hs. reflexivity. }
  2:{ intros Hs. rewrite Hs. reflexivity. }
  destruct (Z.gtb_spec seconds 31536000) as [Hy|Hy].
  { exists (seconds / 31536000), 31536000, "years"%string.
    split; [reflexivity|].
    pose proof (Z.div_mod seconds 31536000 ltac:(lia)).
    pose proof (Z.mod_pos_bound seconds 31536000 ltac:(lia)).
    split; [lia|]. right. right. repeat split; [lia|].
    apply Z.div_le_lower_bound; lia. }
  destruct (Z.gtb_spec seconds 2592000) as [Hm|Hm].
  { exists (seconds / 2592000), 2592000, "months"%string.
    split; [reflexivity|].
    pose proof (Z.div_mod seconds 2592000 ltac:(lia)).
    pose proof (Z.mod_pos_bound seconds 2592000 ltac:(lia)).
    split; [lia|]. right. left. exists 12, 31536000.
    split; [apply list_elem_of_In; simpl; tauto|]. split; [lia|].
    split; [apply Z.div_le_lower_bound; lia|].
    apply Z.lt_succ_r, Z.div_lt_upper_bound; lia. }
  destruct (Z.gtb_spec seconds 86400) as [Hd|Hd].
  { exists (seconds / 86400), 86400, "days"%string.
    split; [reflexivity|].
    pose proof (Z.div_mod seconds 86400 ltac:(lia)).
    pose proof (Z.mod_pos_bound seconds 86400 ltac:(lia)).
    split; [lia|]. right. left. exists 30, 2592000.
    split; [apply list_elem_of_In; simpl; tauto|]. split; [lia|].
    split; [apply Z.div_le_lower_bound; lia|].
    apply Z.div_le_upper_bound; lia. }
  destruct (Z.gtb_spec seconds 3600) as [Hh|Hh].
  { exists (seconds / 3600), 3600, "hours"%string.
    split; [reflexivity|].
    pose proof (Z.div_mod seconds 3600 ltac:(lia)).
    pose proof (Z.mod_pos_bound seconds 3600 ltac:(lia)).
    split; [lia|]. right. left. exists 24, 86400.
    split; [apply list_elem_of_In; simpl; tauto|]. split; [lia|].
    split; [apply Z.div_le_lower_bound; lia|].
    apply Z.div_le_upper_bound; lia. }
  destruct (Z.gtb_spec seconds 60) as [Hmin|Hmin].
  { exists (seconds / 60), 60, "minutes"%string.
    split; [reflexivity|].
    pose proof (Z.div_mod seconds 60 ltac:(lia)).
    pose proof (Z.mod_pos_bound seconds 60 ltac:(lia)).
    split; [lia|]. right. left. exists 60, 3600.
    split; [apply list_elem_of_In; simpl; tauto|]. split; [lia|].
    split; [apply Z.div_le_lower_bound; lia|].
    apply Z.div_le_upper_bound; lia. }
  exists seconds, 1, "seconds"%string.
  split; [reflexivity|]. split; [lia|]. left. repeat split. lia.
Qed.

Lemma card_age_counts_whole_units_witness :
  Cards.formatRelativeTime DatedSpec.sample_getTime 1709254800000
    "2024-03-01T00:00:00Z"
  = "60 minutes ago"%string.
Proof.
  exact (proj1 (proj2 (proj2
           (card_age_counts_whole_units DatedSpec.sample_getTime 1709254800000
              1709251200000 "2024-03-01T00:00:00Z" eq_refl eq_refl)))
           eq_refl).
Defined.
